(** * paradox/hardware/panel.py: handshake frames, password packing,
      message dispatch, label loading and status dispatch.

    The Python module is embedded function by function.  Python values
    that the functions inspect dynamically ([None], [int], [str],
    [bytes]) are inductive types, raised exceptions are the [Raise]
    outcome of a [result], and the logger and the transport are threaded
    as explicit state. *)

From Stdlib Require Import ZArith Lia Strings.Byte Strings.Ascii DecimalString.
From Stdlib Require DecimalFacts DecimalPos.
From stdpp Require Import base list strings gmap.

Local Open Scope Z_scope.

(** ** Bytes *)

Abbreviation bytes := (list byte).

#[global] Instance byte_eq_decision : EqDecision byte := Byte.byte_eq_dec.

Definition byte_to_Z (b : byte) : Z := Z.of_N (Byte.to_N b).

Definition byte_of_Z (z : Z) : option byte :=
  if 0 <=? z then Byte.of_N (Z.to_N z) else None.

(** ** Python objects and outcomes *)

(** A Python [str] is the sequence of its code points, and [ord c] is a
    code point.  The string literals of the module are ASCII: a literal
    of this file stands for the [str] of its characters. *)
Definition unicode : Type := list Z.

#[global] Instance unicode_eq_decision : EqDecision unicode := list_eq_dec.

Definition ord (c : ascii) : Z := Z.of_N (Ascii.N_of_ascii c).

Definition str_of (s : string) : unicode :=
  ord <$> String.list_ascii_of_string s.

Coercion str_of : string >-> unicode.

(** The objects [encode_password] inspects with [isinstance], [len],
    [isdigit] and [int], and the arguments of [str.format]. *)
Inductive pyobj : Type :=
| PyInt (n : Z)
| PyStr (s : unicode)
| PyBytes (b : bytes).

#[global] Instance pyobj_eq_decision : EqDecision pyobj.
Proof. solve_decision. Defined.

(** Instances of Python's [Exception] class.  [Exception fmt args] is
    [Exception(fmt.format( *args))]; the others are the built-in and
    [construct] error classes the module can raise. *)
Inductive exn : Type :=
| Exception (fmt : string) (args : list pyobj)
| TypeError
| ValueError
| IndexError
| AttributeError
| KeyError
| StreamError
| FormatFieldError
| IntegerError
| MappingError
| ConstError
| RawCopyError
| ChecksumError
| UnicodeDecodeError
| LookupError
| ResourceWarning (fmt : string) (args : list pyobj)
| NotImplementedError (msg : string).

#[global] Instance exn_eq_decision : EqDecision exn.
Proof. solve_decision. Defined.

Inductive result (A : Type) : Type :=
| Ok (a : A)
| Raise (e : exn).
Arguments Ok {A} a.
Arguments Raise {A} e.

#[global] Instance result_eq_decision {A} `{EqDecision A} : EqDecision (result A).
Proof. solve_decision. Defined.

#[global] Instance result_ret : MRet result := @Ok.
#[global] Instance result_bind : MBind result := λ A B f m,
  match m with
  | Ok a => f a
  | Raise e => Raise e
  end.
#[global] Instance result_fmap : FMap result := λ A B f m,
  match m with
  | Ok a => Ok (f a)
  | Raise e => Raise e
  end.

Definition raises {A} (m : result A) : Prop := ∃ e, m = Raise e.

(** ** Python built-ins used by the module *)

(** Code points (for [str]) or byte values (for [bytes]) of a sequence. *)
Definition codes (o : pyobj) : result (list Z) :=
  match o with
  | PyInt _ => Raise TypeError
  | PyStr s => Ok s
  | PyBytes b => Ok (byte_to_Z <$> b)
  end.

Definition len (o : pyobj) : result Z :=
  cs ← codes o; Ok (Z.of_nat (length cs)).

(** The ASCII digits. *)
Definition is_decimal (c : Z) : bool := (48 <=? c) && (c <=? 57).

(** The decimal digits of Unicode (general category Nd, Unicode 14.0 as in
    CPython 3.11) come in runs of ten consecutive code points with the
    values 0 to 9; these are the code points of the zeros. *)
Definition unicode_decimal_zeros : list Z :=
  [0x30; 0x660; 0x6F0; 0x7C0; 0x966; 0x9E6; 0xA66; 0xAE6; 0xB66; 0xBE6;
   0xC66; 0xCE6; 0xD66; 0xDE6; 0xE50; 0xED0; 0xF20; 0x1040; 0x1090; 0x17E0;
   0x1810; 0x1946; 0x19D0; 0x1A80; 0x1A90; 0x1B50; 0x1BB0; 0x1C40; 0x1C50;
   0xA620; 0xA8D0; 0xA900; 0xA9D0; 0xA9F0; 0xAA50; 0xABF0; 0xFF10; 0x104A0;
   0x10D30; 0x11066; 0x110F0; 0x11136; 0x111D0; 0x112F0; 0x11450; 0x114D0;
   0x11650; 0x116C0; 0x11730; 0x118E0; 0x11950; 0x11C50; 0x11D50; 0x11DA0;
   0x16A60; 0x16AC0; 0x16B50; 0x1D7CE; 0x1D7D8; 0x1D7E2; 0x1D7EC; 0x1D7F6;
   0x1E140; 0x1E2F0; 0x1E950; 0x1FBF0].

(** [unicodedata.decimal(chr(c))]: the value of a decimal digit. *)
Definition unicode_decimal (c : Z) : option Z :=
  (λ zero, c - zero)
    <$> find (λ zero, (zero <=? c) && (c <? zero + 10)) unicode_decimal_zeros.

(** The other digits of Unicode (Numeric_Type=Digit: superscripts,
    subscripts, circled digits and the like), as ranges. *)
Definition unicode_other_digits : list (Z * Z) :=
  [(0xB2, 0xB3); (0xB9, 0xB9); (0x1369, 0x1371); (0x19DA, 0x19DA);
   (0x2070, 0x2070); (0x2074, 0x2079); (0x2080, 0x2089); (0x2460, 0x2468);
   (0x2474, 0x247C); (0x2488, 0x2490); (0x24EA, 0x24EA); (0x24F5, 0x24FD);
   (0x24FF, 0x24FF); (0x2776, 0x277E); (0x2780, 0x2788); (0x278A, 0x2792);
   (0x10A40, 0x10A43); (0x10E60, 0x10E68); (0x11052, 0x1105A);
   (0x1F100, 0x1F10A)].

(** [chr(c).isdigit()]: a decimal digit or another digit. *)
Definition unicode_isdigit (c : Z) : bool :=
  bool_decide (is_Some (unicode_decimal c))
  || existsb (λ r, (r.1 <=? c) && (c <=? r.2)) unicode_other_digits.

(** [str.isdigit] accepts the digits of Unicode, [bytes.isdigit] the ASCII
    digits only.  Both are false on an empty sequence. *)
Definition isdigit (o : pyobj) : result bool :=
  match o with
  | PyInt _ => Raise TypeError
  | PyStr s => Ok (negb (bool_decide (s = [])) && forallb unicode_isdigit s)
  | PyBytes b =>
      let cs := byte_to_Z <$> b in
      Ok (negb (bool_decide (cs = [])) && forallb is_decimal cs)
  end.

(** The value of each character as a decimal digit: of Unicode in a
    [str], of ASCII in [bytes]. *)
Definition digit_value (o : pyobj) (c : Z) : option Z :=
  match o with
  | PyStr _ => unicode_decimal c
  | _ => if is_decimal c then Some (c - 48) else None
  end.

Definition decimal_value (cs : list Z) : Z :=
  foldl (λ acc c, 10 * acc + (c - 48)) 0 cs.

(** [int(o)] for a sequence made of digits only (the only sequences that
    reach the call): the decimal value of the digits, or [ValueError] when
    a character is not a decimal digit. *)
Definition int (o : pyobj) : result Z :=
  match o with
  | PyInt n => Ok n
  | _ =>
      cs ← codes o;
      match mapM (digit_value o) cs with
      | Some (d :: digits) => Ok (foldl (λ acc d, 10 * acc + d) 0 (d :: digits))
      | _ => Raise ValueError
      end
  end.

(** [str(n)] for an [int]. *)
Definition str (n : Z) : string := NilZero.string_of_int (Z.to_int n).

(** [s.zfill(width)]: zeros on the left, after a leading sign. *)
Definition zfill (width : nat) (s : string) : string :=
  let fill := String.string_of_list_ascii
                (replicate (width - String.length s) "0"%char) in
  match s with
  | String c rest =>
      if bool_decide (c = "+"%char ∨ c = "-"%char)
      then String c (fill +:+ rest) else fill +:+ s
  | EmptyString => fill
  end.

(** [sep.join(l)] *)
Fixpoint join (sep : unicode) (l : list unicode) : unicode :=
  match l with
  | [] => []
  | [s] => s
  | s :: l => s ++ sep ++ join sep l
  end.

(** [l[k]] and [l[k] = v] on a list, with Python's negative indices and
    [IndexError] out of range. *)
Definition py_index {A} (l : list A) (k : Z) : result nat :=
  let n := Z.of_nat (length l) in
  let k := if k <? 0 then k + n else k in
  if (0 <=? k) && (k <? n) then Ok (Z.to_nat k) else Raise IndexError.

Definition getitem {A} (l : list A) (k : Z) : result A :=
  i ← py_index l k;
  match l !! i with
  | Some x => Ok x
  | None => Raise IndexError
  end.

Definition setitem {A} (l : list A) (k : Z) (v : A) : result (list A) :=
  i ← py_index l k; Ok (<[i := v]> l).

(** [bytes(ints)]: [ValueError] unless every element is in [range(256)]. *)
Definition to_bytes (ints : list Z) : result bytes :=
  match mapM byte_of_Z ints with
  | Some b => Ok b
  | None => Raise ValueError
  end.

(** ** The [construct] combinators the frame definitions are built from

    A [Construct U A] parses a value of type [A] from a stream of units
    [U] and builds one into such a stream.  The units are [byte]s, or
    [bool]s inside a [BitStruct] (where [construct] stores every bit in a
    byte of its own).  A key that a Python caller may leave out of the
    object it builds from ([Const], [Default], [Rebuild], [Checksum], the
    keys of a [RawCopy]) is an [option]: [None] is the omitted key, and
    parsing always returns [Some].  Building returns, with the units
    written, the object [construct] stores in the context. *)

Module construct.

(** What the lambdas of the module read from the context:
    [this._root._subcons.<name>.sizeof()] and [this.fields.data]. *)
Record Context : Type := {
  _root_subcons : list (string * nat);
  fields_data : option bytes
}.

Record Construct (U A : Type) : Type := {
  _parse : Context → list U → result (A * list U);
  _build : Context → A → result (A * list U);
  _sizeof : nat;
  _subcons : list (string * nat)
}.
Arguments _parse {U A} _ _ _.
Arguments _build {U A} _ _ _.
Arguments _sizeof {U A} _.
Arguments _subcons {U A} _.

(** [subcon.parse(data)] and [subcon.build(obj)]: the outermost construct
    is the root of the context.  Bytes left after the parse are ignored. *)
Definition root {A} (subcon : Construct byte A) : Context :=
  {| _root_subcons := _subcons subcon; fields_data := None |}.

Definition parse {A} (subcon : Construct byte A) (data : bytes) : result A :=
  '(obj, _) ← _parse subcon (root subcon) data; Ok obj.

Definition build {A} (subcon : Construct byte A) (obj : A) : result bytes :=
  '(_, data) ← _build subcon (root subcon) obj; Ok data.

Definition stream_read {U} (stream : list U) (n : nat)
  : result (list U * list U) :=
  if decide (n ≤ length stream)%nat
  then Ok (take n stream, drop n stream) else Raise StreamError.

(** *** Integers and raw bytes *)

(** [FormatField(">", "B")] *)
Definition Int8ub : Construct byte Z := {|
  _parse _ stream :=
    '(data, stream) ← stream_read stream 1;
    match data with
    | [b] => Ok (byte_to_Z b, stream)
    | _ => Raise StreamError
    end;
  _build _ obj :=
    match byte_of_Z obj with
    | Some b => Ok (obj, [b])
    | None => Raise FormatFieldError
    end;
  _sizeof := 1;
  _subcons := []
|}.

(** [FormatField(">", "H")] *)
Definition Int16ub : Construct byte Z := {|
  _parse _ stream :=
    '(data, stream) ← stream_read stream 2;
    match data with
    | [hi; lo] => Ok (256 * byte_to_Z hi + byte_to_Z lo, stream)
    | _ => Raise StreamError
    end;
  _build _ obj :=
    match byte_of_Z (obj `div` 256), byte_of_Z (obj `mod` 256) with
    | Some hi, Some lo => Ok (obj, [hi; lo])
    | _, _ => Raise FormatFieldError
    end;
  _sizeof := 2;
  _subcons := []
|}.

Definition Bytes (size : nat) : Construct byte bytes := {|
  _parse _ stream := stream_read stream size;
  _build _ obj :=
    if decide (length obj = size)
    then Ok (obj, obj) else Raise StreamError;
  _sizeof := size;
  _subcons := []
|}.

(** [Padding(size)] is [Padded(size, Pass)]: parsing skips [size]
    bytes whatever they hold and returns [None]; building writes zeros. *)
Definition Padding (size : nat) : Construct byte unit := {|
  _parse _ stream := '(_, stream) ← stream_read stream size; Ok (tt, stream);
  _build _ _ := Ok (tt, replicate size x00);
  _sizeof := size;
  _subcons := []
|}.

(** *** Bit fields *)

Definition Flag : Construct bool bool := {|
  _parse _ stream :=
    '(data, stream) ← stream_read stream 1;
    match data with
    | [b] => Ok (b, stream)
    | _ => Raise StreamError
    end;
  _build _ obj := Ok (obj, [obj]);
  _sizeof := 1;
  _subcons := []
|}.

Definition bits2integer (data : list bool) : Z :=
  foldl (λ number b, Z.lor (Z.shiftl number 1) (Z.b2z b)) 0 data.

(** Fills the bits from the last one down while shifting [number] right. *)
Fixpoint integer2bits (number : Z) (width : nat) : list bool :=
  match width with
  | O => []
  | S width => integer2bits (Z.shiftr number 1) width ++ [Z.odd number]
  end.

Definition BitsInteger (size : nat) : Construct bool Z := {|
  _parse _ stream :=
    '(data, stream) ← stream_read stream size;
    Ok (bits2integer data, stream);
  _build _ obj :=
    if (0 <=? obj) && (obj <? 2 ^ Z.of_nat size)
    then Ok (obj, integer2bits obj size) else Raise IntegerError;
  _sizeof := size;
  _subcons := []
|}.

Definition Nibble : Construct bool Z := BitsInteger 4.

(** Most significant bit first. *)
Definition byte2bits (b : byte) : list bool :=
  let '(b0, (b1, (b2, (b3, (b4, (b5, (b6, b7))))))) := Byte.to_bits b in
  [b7; b6; b5; b4; b3; b2; b1; b0].

Definition bytes2bits (data : bytes) : list bool := data ≫= byte2bits.

Fixpoint bits2bytes (data : list bool) : result bytes :=
  match data with
  | [] => Ok []
  | b7 :: b6 :: b5 :: b4 :: b3 :: b2 :: b1 :: b0 :: data =>
      rest ← bits2bytes data;
      Ok (Byte.of_bits (b0, (b1, (b2, (b3, (b4, (b5, (b6, b7))))))) :: rest)
  | _ => Raise ValueError
  end.

(** [Bitwise(subcon)] for a subcon of fixed size is
    [Transformed(subcon, bytes2bits, size//8, bits2bytes, size//8)]. *)
Definition Bitwise {A} (subcon : Construct bool A) : Construct byte A :=
  let size := _sizeof subcon in {|
  _parse ctx stream :=
    '(data, stream) ← stream_read stream (size `div` 8)%nat;
    '(obj, _) ← _parse subcon ctx (bytes2bits data);
    Ok (obj, stream);
  _build ctx obj :=
    '(buildret, data) ← _build subcon ctx obj;
    data ← bits2bytes data;
    if decide (length data = (size `div` 8)%nat)
    then Ok (buildret, data) else Raise StreamError;
  _sizeof := (size `div` 8)%nat;
  _subcons := []
|}.

(** *** Structs *)

Record Renamed (U A : Type) : Type :=
  Rename { rn_name : string; rn_subcon : Construct U A }.
Arguments Rename {U A} _ _.
Arguments rn_name {U A} _.
Arguments rn_subcon {U A} _.

(** A [Struct] stores each object it parsed or built in the context under
    the subcon's name.  [Context] keeps what the lambdas read, so storing
    is by the type of the object: a [RawCopy] object named [fields] leaves
    its [data], any other object leaves nothing. *)
Class InContext (A : Type) : Type :=
  in_context : string → A → Context → Context.

#[global] Instance any_in_context {A} : InContext A | 100 := λ _ _ ctx, ctx.

Definition Struct_nil {U} : Construct U unit := {|
  _parse _ stream := Ok (tt, stream);
  _build _ _ := Ok (tt, []);
  _sizeof := 0;
  _subcons := []
|}.

(** A [Struct] parses and builds its subcons in the declared order; the
    parsed [Container] is the nested pair of the subcons' values. *)
Definition Struct_cons {U A B} `{InContext A}
    (field : Renamed U A) (rest : Construct U B) : Construct U (A * B) := {|
  _parse ctx stream :=
    '(subobj, stream) ← _parse (rn_subcon field) ctx stream;
    let ctx := in_context (rn_name field) subobj ctx in
    '(obj, stream) ← _parse rest ctx stream;
    Ok ((subobj, obj), stream);
  _build ctx obj :=
    '(subobj, data1) ← _build (rn_subcon field) ctx obj.1;
    let ctx := in_context (rn_name field) subobj ctx in
    '(obj, data2) ← _build rest ctx obj.2;
    Ok ((subobj, obj), data1 ++ data2);
  _sizeof := (_sizeof (rn_subcon field) + _sizeof rest)%nat;
  _subcons := (rn_name field, _sizeof (rn_subcon field)) :: _subcons rest
|}.

Declare Scope construct_scope.
Delimit Scope construct_scope with construct.
Notation "name / subcon" := (Rename name%string subcon) : construct_scope.
Notation "'Struct' ( x , .. , y )" :=
  (Struct_cons x%construct .. (Struct_cons y%construct Struct_nil) ..)
  (at level 0, format "'Struct' ( '[v' x ,  '/' .. ,  '/' y ']' )").
Notation "'BitStruct' ( x , .. , y )" :=
  (Bitwise (Struct_cons x%construct .. (Struct_cons y%construct Struct_nil) ..))
  (at level 0, format "'BitStruct' ( '[v' x ,  '/' .. ,  '/' y ']' )").
Notation "'Container' ( x , .. , y )" := (pair x .. (pair y tt) ..)
  (at level 0, format "'Container' ( x ,  .. ,  y )").

(** *** Constants, defaults and computed fields *)

Definition Const {U A} `{EqDecision A} (value : A) (subcon : Construct U A)
  : Construct U (option A) := {|
  _parse ctx stream :=
    '(obj, stream) ← _parse subcon ctx stream;
    if decide (obj = value) then Ok (Some obj, stream) else Raise ConstError;
  _build ctx obj :=
    if decide (obj = None ∨ obj = Some value)
    then '(_, data) ← _build subcon ctx value; Ok (Some value, data)
    else Raise ConstError;
  _sizeof := _sizeof subcon;
  _subcons := []
|}.

Definition Default {U A} (subcon : Construct U A) (value : A)
  : Construct U (option A) := {|
  _parse ctx stream :=
    '(obj, stream) ← _parse subcon ctx stream; Ok (Some obj, stream);
  _build ctx obj :=
    '(buildret, data) ← _build subcon ctx (default value obj);
    Ok (Some buildret, data);
  _sizeof := _sizeof subcon;
  _subcons := []
|}.

(** Building ignores the object given and builds [func(this)]. *)
Definition Rebuild {U A} (subcon : Construct U A) (func : Context → result A)
  : Construct U (option A) := {|
  _parse ctx stream :=
    '(obj, stream) ← _parse subcon ctx stream; Ok (Some obj, stream);
  _build ctx _ :=
    obj ← func ctx;
    '(buildret, data) ← _build subcon ctx obj;
    Ok (Some buildret, data);
  _sizeof := _sizeof subcon;
  _subcons := []
|}.

(** [this._root._subcons.<name>.sizeof()] *)
Definition root_subcon_sizeof (name : string) (this : Context) : result Z :=
  match list_find (λ kv, kv.1 = name) (_root_subcons this) with
  | Some (_, (_, size)) => Ok (Z.of_nat size)
  | None => Raise AttributeError
  end.

(** *** Adapters *)

(** What an [Enum] parses to: the member's name ([EnumIntegerString]) when
    the integer is mapped, the integer itself ([EnumInteger]) otherwise.
    Building takes either. *)
Inductive EnumValue : Type :=
| EnumIntegerString (name : string)
| EnumInteger (n : Z).

#[global] Instance EnumValue_eq_decision : EqDecision EnumValue.
Proof. solve_decision. Defined.

(** A later entry of the mapping overrides an earlier one, as in a dict. *)
Definition encmapping (mapping : list (string * Z)) (name : string) : option Z :=
  snd <$> last (filter (λ kv, kv.1 = name) mapping).

Definition decmapping (mapping : list (string * Z)) (n : Z) : option string :=
  fst <$> last (filter (λ kv, kv.2 = n) mapping).

(** An adapter's build returns the object it was given. *)
Definition Enum {U} (subcon : Construct U Z) (mapping : list (string * Z))
  : Construct U EnumValue := {|
  _parse ctx stream :=
    '(n, stream) ← _parse subcon ctx stream;
    Ok (match decmapping mapping n with
        | Some name => EnumIntegerString name
        | None => EnumInteger n
        end, stream);
  _build ctx obj :=
    n ← match obj with
        | EnumInteger n => Ok n
        | EnumIntegerString name =>
            match encmapping mapping name with
            | Some n => Ok n
            | None => Raise MappingError
            end
        end;
    '(_, data) ← _build subcon ctx n;
    Ok (obj, data);
  _sizeof := _sizeof subcon;
  _subcons := []
|}.

Definition ExprAdapter {U A B} (subcon : Construct U A)
    (decoder : A → result B) (encoder : B → result A) : Construct U B := {|
  _parse ctx stream :=
    '(obj, stream) ← _parse subcon ctx stream;
    obj ← decoder obj;
    Ok (obj, stream);
  _build ctx obj :=
    obj2 ← encoder obj;
    '(_, data) ← _build subcon ctx obj2;
    Ok (obj, data);
  _sizeof := _sizeof subcon;
  _subcons := []
|}.

(** *** Raw copies and checksums *)

(** The object of a [RawCopy]: a parse fills every key; a build takes an
    object with [data] or, failing that, with [value]. *)
Record RawCopyObj (A : Type) : Type := {
  data : option bytes;
  value : option A;
  offset1 : option Z;
  offset2 : option Z;
  raw_length : option Z   (* the key [length] *)
}.
Arguments data {A} _.
Arguments value {A} _.
Arguments offset1 {A} _.
Arguments offset2 {A} _.
Arguments raw_length {A} _.

#[global] Instance RawCopyObj_in_context {A} : InContext (RawCopyObj A) | 0 :=
  λ name obj ctx,
    if decide (name = "fields")
    then {| _root_subcons := _root_subcons ctx; fields_data := data obj |}
    else ctx.

(** [tell] is the position of the stream where the [RawCopy] starts. *)
Definition RawCopy_at {A} (tell : Z) (subcon : Construct byte A)
  : Construct byte (RawCopyObj A) := {|
  _parse ctx stream :=
    let offset1 := tell in
    '(obj, stream') ← _parse subcon ctx stream;
    let offset2 := tell + Z.of_nat (length stream - length stream') in
    '(raw, _) ← stream_read stream (Z.to_nat (offset2 - offset1));
    Ok ({| data := Some raw; value := Some obj;
           offset1 := Some offset1; offset2 := Some offset2;
           raw_length := Some (offset2 - offset1) |}, stream');
  _build ctx obj :=
    match data obj, value obj with
    | Some raw, _ =>
        let offset1 := tell in
        let offset2 := tell + Z.of_nat (length raw) in
        Ok ({| data := Some raw; value := value obj;
               offset1 := Some offset1; offset2 := Some offset2;
               raw_length := Some (offset2 - offset1) |}, raw)
    | None, Some v =>
        let offset1 := tell in
        '(buildret, raw) ← _build subcon ctx v;
        let offset2 := tell + Z.of_nat (length raw) in
        Ok ({| data := Some raw; value := Some buildret;
               offset1 := Some offset1; offset2 := Some offset2;
               raw_length := Some (offset2 - offset1) |}, raw)
    | None, None => Raise RawCopyError
    end;
  _sizeof := _sizeof subcon;
  _subcons := []
|}.

(** Every frame of the module starts with its [RawCopy]. *)
Abbreviation RawCopy := (RawCopy_at 0).

(** [this.fields.data] *)
Definition this_fields_data (this : Context) : result bytes :=
  match fields_data this with
  | Some raw => Ok raw
  | None => Raise KeyError
  end.

(** Parsing compares the field read with the hash of the bytes; building
    writes the hash whatever object is given. *)
Definition Checksum (checksumfield : Construct byte bytes)
    (hashfunc : bytes → bytes) (bytesfunc : Context → result bytes)
  : Construct byte (option bytes) := {|
  _parse ctx stream :=
    '(hash1, stream) ← _parse checksumfield ctx stream;
    raw ← bytesfunc ctx;
    let hash2 := hashfunc raw in
    if decide (hash1 ≠ hash2) then Raise ChecksumError
    else Ok (Some hash1, stream);
  _build ctx _ :=
    raw ← bytesfunc ctx;
    let hash2 := hashfunc raw in
    '(_, data) ← _build checksumfield ctx hash2;
    Ok (Some hash2, data);
  _sizeof := _sizeof checksumfield;
  _subcons := []
|}.

End construct.

Import construct.

(** ** paradox.hardware.common

    The module imports [calculate_checksum], [ProductIdEnum],
    [CommunicationSourceIDEnum] and [HexInt] from
    [paradox.hardware.common], which is not among the sources: the
    checksum function, the members of the two enums and the two
    conversions of [HexInt] are parameters. *)
Class Common : Type := {
  calculate_checksum : bytes → byte;
  ProductIdEnum_members : list (string * Z);
  CommunicationSourceIDEnum_members : list (string * Z);
  HexInt_decode : Z → result Z;
  HexInt_encode : Z → result Z
}.

Section frames.
Context `{Common}.

(** Modelled from the spec: [product_id (enum)] is one byte of the
    payload, an [Enum] over [Int8ub]; its members are a parameter. *)
Definition ProductIdEnum : Construct byte EnumValue :=
  Enum Int8ub ProductIdEnum_members.

(** Modelled from the spec: [source_id (enum, default 1)] is one byte of
    the payload, an [Enum] over [Int8ub]; its members are a parameter. *)
Definition CommunicationSourceIDEnum : Construct byte EnumValue :=
  Enum Int8ub CommunicationSourceIDEnum_members.

(** Modelled from the spec: each of [application{version,revision,build}]
    is one byte shown as a display value, an adapter over [Int8ub]; the
    two conversions are parameters. *)
Definition HexInt : Construct byte Z :=
  ExprAdapter Int8ub HexInt_decode HexInt_encode.

(** ** The frame definitions *)

Definition InitiateCommunication_fields :=
  Struct("po" / BitStruct(
           "command" / Const 7 Nibble,
           "reserved0" / Const 2 Nibble),
         "reserved1" / Padding 35).

Definition InitiateCommunication :=
  Struct("fields" / RawCopy InitiateCommunication_fields,
         "checksum" / Checksum (Bytes 1) (λ data, [calculate_checksum data])
                               this_fields_data).

Definition InitiateCommunicationResponse_fields :=
  Struct("po" / BitStruct(
           "command" / Const 7 Nibble,
           "message_center" / Nibble),
         "new_protocol" / Const 0xFF Int8ub,
         "protocol_id" / Int8ub,
         "protocol" / Struct(
           "version" / Int8ub,
           "revision" / Int8ub,
           "build" / Int8ub),
         "family_id" / Int8ub,
         "product_id" / ProductIdEnum,
         "talker" / Enum Int8ub [("BOOT_LOADER", 0);
                                 ("CONTROLLER_APPLICATION", 1);
                                 ("MODULE_APPLICATION", 2)],
         "application" / Struct(
           "version" / HexInt,
           "revision" / HexInt,
           "build" / HexInt),
         "serial_number" / Bytes 4,
         "hardware" / Struct(
           "version" / Int8ub,
           "revision" / Int8ub),
         "bootloader" / Struct(
           "version" / Int8ub,
           "revision" / Int8ub,
           "build" / Int8ub,
           "day" / Int8ub,
           "month" / Int8ub,
           "year" / Int8ub),
         "processor_id" / Int8ub,
         "encryption_id" / Int8ub,
         "reserved0" / Bytes 2,
         "label" / Bytes 8).

Definition InitiateCommunicationResponse :=
  Struct("fields" / RawCopy InitiateCommunicationResponse_fields,
         "checksum" / Checksum (Bytes 1) (λ data, [calculate_checksum data])
                               this_fields_data).

Definition StartCommunication_fields :=
  Struct("po" / Struct("command" / Const 0x5F Int8ub),
         "validation" / Const 0x20 Int8ub,
         "_not_used0" / Padding 31,
         "source_id" / Default CommunicationSourceIDEnum (EnumInteger 1),
         "user_id" / Struct(
           "high" / Default Int8ub 0,
           "low" / Default Int8ub 0)).

Definition StartCommunication :=
  Struct("fields" / RawCopy StartCommunication_fields,
         "checksum" / Checksum (Bytes 1) (λ data, [calculate_checksum data])
                               this_fields_data).

Definition StartCommunicationResponse_fields :=
  Struct("po" / BitStruct(
           "command" / Const 0 Nibble,
           "status" / Struct(
             "reserved" / Flag,
             "alarm_reporting_pending" / Flag,
             "Winload_connected" / Flag,
             "NeWare_connected" / Flag)),
         "_not_used0" / Bytes 3,
         "product_id" / ProductIdEnum,
         "firmware" / Struct(
           "version" / Int8ub,
           "revision" / Int8ub,
           "build" / Int8ub),
         "panel_id" / Int16ub,
         "_not_used1" / Bytes 5,
         "transceiver" / Struct(
           "firmware_build" / Int8ub,
           "family" / Int8ub,
           "firmware_version" / Int8ub,
           "firmware_revision" / Int8ub,
           "noise_floor_level" / Int8ub,
           "status" / BitStruct(
             "_not_used" / BitsInteger 6,
             "noise_floor_high" / Flag,
             "constant_carrier" / Flag),
           "hardware_revision" / Int8ub),
         "_not_used2" / Bytes 14).

Definition StartCommunicationResponse :=
  Struct("fields" / RawCopy StartCommunicationResponse_fields,
         "checksum" / Checksum (Bytes 1) (λ data, [calculate_checksum data])
                               this_fields_data).

Definition CloseConnection_fields :=
  Struct("po" / Struct(
           "command" / Const 0x70 Int8ub),
         "length" / Rebuild Int8ub (λ this,
           fields ← root_subcon_sizeof "fields" this;
           checksum ← root_subcon_sizeof "checksum" this;
           Ok (fields + checksum)),
         "_not_used0" / Padding 34).

Definition CloseConnection :=
  Struct("fields" / RawCopy CloseConnection_fields,
         "checksum" / Checksum (Bytes 1) (λ data, [calculate_checksum data])
                               this_fields_data).

End frames.

(** ** Logging, configuration and collaborators *)

Inductive level : Type := INFO | WARNING | ERROR.

(** [logger.<level>(fmt.format( *args))]; [exc_info] is set by
    [logger.exception]. *)
Record LogRecord : Type := Log {
  log_level : level;
  log_fmt : string;
  log_args : list pyobj;
  exc_info : option exn
}.

(** An ordered [dict], as a list of items in insertion order: assigning
    to a key that is present replaces its value in place. *)
Abbreviation dict K V := (list (K * V)).

Fixpoint dict_setitem {K V} `{EqDecision K} (k : K) (v : V) (d : dict K V)
  : dict K V :=
  match d with
  | [] => [(k, v)]
  | (k', v') :: d =>
      if decide (k' = k) then (k, v) :: d else (k', v') :: dict_setitem k v d
  end.

Fixpoint dict_get {K V} `{EqDecision K} (k : K) (d : dict K V) : option V :=
  match d with
  | [] => None
  | (k', v') :: d => if decide (k' = k) then Some v' else dict_get k d
  end.

Definition dict_values {K V} (d : dict K V) : list V := snd <$> d.

(** What label loading takes from outside the module: [cfg.LIMITS] and
    [cfg.LABEL_ENCODING] of [paradox.config], [sanitize_key] of
    [paradox.lib.utils], and Python's [bytes.decode] and [str.title].
    [bytes_decode encoding b] raises [UnicodeDecodeError] or [LookupError];
    decoding UTF-8 with [errors='ignore'] does not raise.  The names of
    the categories and of the encoding are literals of the program. *)
Class Externals : Type := {
  LIMITS : gmap string (list Z);
  LABEL_ENCODING : string;
  sanitize_key : unicode → unicode;
  bytes_decode : string → bytes → result unicode;
  decode_utf8_ignore : bytes → unicode;
  title : string → string
}.

(** The part of a [ReadEEPROM] reply the module reads:
    [fields.value.po.command], [fields.value.address] and
    [fields.value.data]. *)
Record Reply : Type := {
  reply_command : Z;
  reply_address : Z;
  reply_data : bytes
}.

(** [dict(address=address, length=field_length)] *)
Record Args : Type := { args_address : Z; args_length : nat }.

(** An entry of [mem_map['elements']]. *)
Record ElemDef : Type := {
  addresses : list (list Z);
  label_offset : nat
}.

(** The values of a label's properties ([id] is an [int], [key] and
    [label] are [str]). *)
Abbreviation Properties := (gmap string pyobj).

(** The panel object.  [W] is the state of the transport behind
    [core.send_wait], which answers with a reply or with [None].
    [mem_map] and [get_message] are what a panel model provides:
    [mem_map_elements] is [mem_map['elements']] when the key is there. *)
Record PanelObj (W MessageSpec : Type) : Type := {
  send_wait : MessageSpec → Args → (Reply → bool) → W → option Reply * W;
  get_message : string → result MessageSpec;
  mem_map_elements : option (dict string ElemDef)
}.
Arguments send_wait {W MessageSpec} _ _ _ _ _.
Arguments get_message {W MessageSpec} _ _.
Arguments mem_map_elements {W MessageSpec} _.

(** The message a status parser is handed: [fields.value.address] and
    [fields.value.data]. *)
Record StatusMessage : Type := {
  status_address : Z;
  status_data : bytes
}.

(** ** class Panel *)

Module Panel.

Section parse_message.
Context `{Common}.

(** The [Container] a call returns is the object of one of four frames. *)
Definition Container_of {U A} (_ : Construct U A) : Type := A.

Inductive Message : Type :=
| IsInitiateCommunication (c : Container_of InitiateCommunication)
| IsStartCommunication (c : Container_of StartCommunication)
| IsInitiateCommunicationResponse (c : Container_of InitiateCommunicationResponse)
| IsStartCommunicationResponse (c : Container_of StartCommunicationResponse).

(** [message[k]] on [bytes] is an [int]. *)
Definition byte_at (message : bytes) (k : Z) : result Z :=
  byte_to_Z <$> getitem message k.

Definition parse_message (message : option bytes) (direction : string)
  : result (option Message) :=
  match message with
  | None => Ok None
  | Some message =>
      if decide (length message = 0%nat) then Ok None
      else if decide (direction = "topanel") then
        c ← (m0 ← byte_at message 0;
             if m0 =? 0x72
             then m1 ← byte_at message 1; Ok (m1 =? 0) else Ok false);
        if c : bool
        then Some ∘ IsInitiateCommunication <$> parse InitiateCommunication message
        else
          m0 ← byte_at message 0;
          if m0 =? 0x5F
          then Some ∘ IsStartCommunication <$> parse StartCommunication message
          else Ok None
      else
        c ← (m0 ← byte_at message 0;
             if m0 =? 0x72
             then m1 ← byte_at message 1; Ok (m1 =? 0xFF) else Ok false);
        if c : bool
        then Some ∘ IsInitiateCommunicationResponse
               <$> parse InitiateCommunicationResponse message
        else
          c ← (m0 ← byte_at message 0;
               if m0 =? 0x00
               then m4 ← byte_at message 4; Ok (0 <? m4) else Ok false);
          if c : bool
          then Some ∘ IsStartCommunicationResponse
                 <$> parse StartCommunicationResponse message
          else Ok None
  end.

End parse_message.

(** What [get_error_message] is given: an [int], or the
    [EnumIntegerString] of a parsed [Enum] field, which is a [str] (the
    member's name) that carries the integer it was decoded from. *)
Inductive ErrorCode : Type :=
| ErrorInt (n : Z)
| ErrorEnumIntegerString (intvalue : Z) (name : string).

Definition get_error_message (error_code : ErrorCode) : string :=
  let error_str :=
    match error_code with
    | ErrorInt n => str n
    | ErrorEnumIntegerString _ name => name
    end in
  let error_code :=
    match error_code with
    | ErrorInt n => n
    | ErrorEnumIntegerString intvalue _ => intvalue
    end in
  if error_code =? 0x00 then "Requested command did not work"
  else if error_code =? 0x01 then "User Code is invalid"
  else if error_code =? 0x02
       then "Partition in code lockout (too many bad entries)"
  else if error_code =? 0x05 then "Panel will disconnect"
  else if error_code =? 0x10 then "Panel Not connected"
  else if error_code =? 0x11 then "Panel Already Connected"
  else if error_code =? 0x12 then "Invalid PC Password"
  else if error_code =? 0x13 then "Winload on phone line"
  else if error_code =? 0x14 then "Invalid Module address"
  else if error_code =? 0x15 then "Cannot write in RAM"
  else if error_code =? 0x16 then "Request to Upgrade Failed"
  else if error_code =? 0x17 then "Record number out of range"
  else if error_code =? 0x19 then "Invalid record type"
  else if error_code =? 0x1A then "Multi-Bus not supported"
  else if error_code =? 0x1B then "Incorrect number of users"
  else if error_code =? 0x1C then "Invalid label number"
  else error_str.

(** The body of [while i > 0]; [i] only counts down, so the loop is a
    recursion on it. *)
Fixpoint encode_password_loop (i : nat) (int_password i2 : Z) (res : list Z)
  : result (list Z) :=
  match i with
  | O => Ok res
  | S i' =>
      let b := int_password `mod` 10 in
      let b := if b =? 0 then 0x0a else b in
      let int_password := int_password `div` 10 in
      '(res, i2) ←
        (if Z.of_nat i `mod` 2 =? 0
         then res ← setitem res i2 b; Ok (res, i2)
         else old ← getitem res i2;
              res ← setitem res i2 (Z.land (Z.lor (Z.shiftl b 4) old) 0xff);
              Ok (res, i2 - 1));
      encode_password_loop i' int_password i2 res
  end.

(** [if isinstance(password, int): password = str(password).zfill(4)] *)
Definition normalize (password : pyobj) : pyobj :=
  match password with
  | PyInt n => PyStr (zfill 4 (str n))
  | _ => password
  end.

Definition no_password : list pyobj :=
  [PyBytes [x30; x30; x30; x30]; PyStr "0000"; PyInt 0].

(** [password] is [None] or an object. *)
Definition encode_password (password : option pyobj) : result bytes :=
  let res := [0; 0] in
  match password with
  | None => Ok [x00; x00]
  | Some password =>
      if bool_decide (password ∈ no_password) then Ok [x00; x00]
      else
        let password := normalize password in
        n ← len password;
        if bool_decide (n ≠ 4)
        then Raise (Exception "Password length must be equal to 4. Got {}" [PyInt n])
        else
          d ← isdigit password;
          if negb d
          then Raise (Exception "Not supported password {}" [password])
          else
            int_password ← int password;
            let i := Z.min 4 n in
            let i2 := i `div` 2 - 1 in
            res ← encode_password_loop (Z.to_nat i) int_password i2 res;
            to_bytes res
  end.

Section labels.
Context `{Externals} {W MessageSpec : Type}.

(** [data[label_offset:label_offset + field_length].strip(b'\0 ')] *)
Definition is_pad (b : byte) : bool :=
  bool_decide (b = x00) || bool_decide (b = x20).

Fixpoint lstrip (b : bytes) : bytes :=
  match b with
  | c :: b' => if is_pad c then lstrip b' else b
  | [] => []
  end.

Definition strip (b : bytes) : bytes := reverse (lstrip (reverse (lstrip b))).

(** The lambda passed as [reply_expected]. *)
Definition reply_expected (address : Z) (m : Reply) : bool :=
  (reply_command m =? 0x05) && (reply_address m =? address).

(** The label of a reply (the lines from [data = reply.fields.value.data]
    to the end of the [try]): the text, and the log with the warning of
    the fallback when there is one. *)
Definition label_of (reply : Reply) (field_length label_offset : nat)
    (log : list LogRecord) : result (unicode * list LogRecord) :=
  let data := reply_data reply in
  let b_label := strip (take field_length (drop label_offset data)) in
  let label := (λ c, if bool_decide (c = x00) then x20 else c) <$> b_label in
  match bytes_decode LABEL_ENCODING label with
  | Ok label => Ok (label, log)
  | Raise UnicodeDecodeError =>
      Ok (decode_utf8_ignore label,
          log ++ [Log WARNING
            "Unable to properly decode label {} using the {} encoding.\n                     Specify a different encoding using the LABEL_ENCODING configuration option."
            [PyBytes b_label; PyStr LABEL_ENCODING] None])
  | Raise e => Raise e
  end.

(** [properties = template.copy()] and the three assignments. *)
Definition properties_of (template : Properties) (index : Z) (label : unicode)
  : Properties :=
  let properties := template in
  let properties := <["id" := PyInt index]> properties in
  let properties := <["key" := PyStr (sanitize_key label)]> properties in
  <["label" := PyStr label]> properties.

(** The state the loop works on: the dict to fill (which the caller
    keeps whatever the outcome), the transport and the log. *)
Fixpoint _load_labels (self : PanelObj W MessageSpec)
    (data_dict : dict Z Properties) (addresses : list (Z * Z))
    (field_length : nat) (label_offset : nat) (template : option Properties)
    (w : W) (log : list LogRecord)
  : result () * dict Z Properties * W * list LogRecord :=
  let template := default ∅ template in
  match addresses with
  | [] => (Ok (), data_dict, w, log)
  | (index, address) :: addresses =>
      let args := {| args_address := address; args_length := field_length |} in
      match get_message self "ReadEEPROM" with
      | Raise e => (Raise e, data_dict, w, log)
      | Ok spec =>
          let '(reply, w) :=
            send_wait self spec args (reply_expected address) w in
          match reply with
          | None =>
              (Ok (), data_dict, w,
               log ++ [Log ERROR "Could not fully load labels" [] None])
          | Some reply =>
              match label_of reply field_length label_offset log with
              | Raise e => (Raise e, data_dict, w, log)
              | Ok (label, log) =>
                  let properties := properties_of template index label in
                  let data_dict := dict_setitem index properties data_dict in
                  _load_labels self data_dict addresses field_length
                    label_offset (Some template) w log
              end
          end
      end
  end.

(** [enumerate(chain.from_iterable(addresses), start=1)] *)
Definition enumerate_from {A} (start : Z) (l : list A) : list (Z * A) :=
  imap (λ i a, (start + Z.of_nat i, a)) l.

(** [', '.join([v["label"] for v in d.values()])]: a missing key is a
    [KeyError], an item that is not a [str] a [TypeError]. *)
Definition join_labels (d : dict Z Properties) : result unicode :=
  labels ← mapM (λ v : Properties,
                   match v !! "label" with
                   | Some (PyStr s) => Ok s
                   | Some _ => Raise TypeError
                   | None => Raise KeyError
                   end) (dict_values d);
  Ok (join ", " labels).

(** The pairs of a category: its addresses numbered from 1, restricted
    to [cfg.LIMITS] when the category has an entry there. *)
Definition category_addresses (elem_type : string) (elem_def : ElemDef)
  : list (Z * Z) :=
  let addresses := enumerate_from 1 (concat (addresses elem_def)) in
  let limits := LIMITS !! elem_type in
  match limits with
  | Some limits => filter (λ ia, ia.1 ∈ limits) addresses
  | None => addresses
  end.

(** The loop over [self.mem_map['elements']]; [data] is the
    [defaultdict(dict)]. *)
Fixpoint load_labels_loop (self : PanelObj W MessageSpec)
    (elements : dict string ElemDef)
    (data : dict string (dict Z Properties)) (w : W) (log : list LogRecord)
  : result (dict string (dict Z Properties)) * W * list LogRecord :=
  match elements with
  | [] => (Ok data, w, log)
  | (elem_type, elem_def) :: elements =>
      let addresses := category_addresses elem_type elem_def in
      let data_dict := default [] (dict_get elem_type data) in
      let '(r, data_dict, w, log) :=
        _load_labels self data_dict addresses 16 (label_offset elem_def) None w log in
      let data := dict_setitem elem_type data_dict data in
      match r with
      | Raise e => (Raise e, w, log)
      | Ok _ =>
          match join_labels data_dict with
          | Raise e => (Raise e, w, log)
          | Ok labels =>
              let log := log ++ [Log INFO "{}: {}"
                                   [PyStr (title elem_type); PyStr labels] None] in
              load_labels_loop self elements data w log
          end
      end
  end.

Definition load_labels (self : PanelObj W MessageSpec) (w : W)
    (log : list LogRecord)
  : result (dict string (dict Z Properties)) * W * list LogRecord :=
  let log := log ++ [Log INFO "Updating Labels from Panel" [] None] in
  let data := [] in
  match mem_map_elements self with
  | None => (Raise KeyError, w, log)
  | Some elements => load_labels_loop self elements data w log
  end.

End labels.

(** [parser_map] maps an address to a construct; [parser.parse] raises
    instances of [Exception]. *)
Definition handle_status {A} (message : StatusMessage)
    (parser_map : gmap Z (Construct byte A)) (log : list LogRecord)
  : result (option A) * list LogRecord :=
  let mvars := message in
  match parser_map !! status_address mvars with
  | None =>
      (Ok None,
       log ++ [Log ERROR
         "Parser for memory address ({}) is not implemented. Please review your STATUS_REQUESTS setting. Skipping."
         [PyInt (status_address mvars)] None])
  | Some parser =>
      match parse parser (status_data mvars) with
      | Ok obj => (Ok (Some obj), log)
      | Raise e =>
          (Ok None,
           log ++ [Log ERROR "Unable to parse RAM Status Block ({})"
                     [PyInt (status_address mvars)] (Some e)])
      end
  end.

End Panel.

(** * The specification's statements *)

(** ** Frames: encoding, decoding and valid field values *)

(** [X.build(dict(fields=dict(value=fields)))] *)
Definition encode {A} (X : Construct byte (RawCopyObj A * (option bytes * ())))
    (fields : A) : result bytes :=
  build X (Container({| data := None; value := Some fields; offset1 := None;
                        offset2 := None; raw_length := None |}, None)).

(** [X.parse(message).fields.value] *)
Definition decode {A} (X : Construct byte (RawCopyObj A * (option bytes * ())))
    (message : bytes) : result A :=
  obj ← parse X message;
  match value obj.1 with
  | Some fields => Ok fields
  | None => Raise KeyError
  end.

(** The two laws of a construct [c] with respect to the objects [valid]
    accepts: building a valid object writes [_sizeof c] units from which
    parsing returns the object, and a parse that succeeds consumes
    [_sizeof c] units. *)
Definition build_parse_law {U A} (c : Construct U A)
    (valid : Context → A → bool) : Prop :=
  ∀ ctx obj, valid ctx obj = true →
    ∃ data, _build c ctx obj = Ok (obj, data) ∧ length data = _sizeof c ∧
            ∀ rest, _parse c ctx (data ++ rest) = Ok (obj, rest).

Definition parse_sizeof_law {U A} (c : Construct U A) : Prop :=
  ∀ ctx stream obj rest,
    _parse c ctx stream = Ok (obj, rest) →
    (_sizeof c ≤ length stream)%nat ∧ rest = drop (_sizeof c) stream.

(** [valid c ctx obj]: the object gives every key of [c] a value of the
    key's range.  Field by field: an integer is in the range of its
    width, a byte string has the declared length, a [Const] holds its
    constant, a [Default] holds a valid value, a [Rebuild] holds the value
    its lambda computes, an [Enum] holds a member's name or an integer
    that is no member's value, and an adapter holds a value that its
    encoder turns into one its decoder turns back. *)
Class Lawful {U A} (c : Construct U A) : Type := {
  valid : Context → A → bool;
  build_parse : build_parse_law c valid;
  parse_sizeof : parse_sizeof_law c
}.
Arguments valid {U A} c {_} ctx obj.
Arguments build_parse {U A} c {_} ctx obj.
Arguments parse_sizeof {U A} c {_} ctx stream obj rest.

Definition in_range (lo hi obj : Z) : bool := (lo <=? obj) && (obj <? hi).

Definition Enum_valid {U} (subcon : Construct U Z) `{!Lawful subcon}
    (mapping : list (string * Z)) (ctx : Context) (obj : EnumValue) : bool :=
  match obj with
  | EnumIntegerString name =>
      match encmapping mapping name with
      | Some n => bool_decide (decmapping mapping n = Some name)
                  && valid subcon ctx n
      | None => false
      end
  | EnumInteger n =>
      bool_decide (decmapping mapping n = None) && valid subcon ctx n
  end.

(** The round trip of a frame [X] whose payload is [fields_con]: the
    encoding of valid fields is 37 bytes that decode to the same fields
    and end in the checksum of the first 36. *)
Definition round_trips {A}
    (X : Construct byte (RawCopyObj A * (option bytes * ())))
    (fields_con : Construct byte A) `{!Lawful fields_con}
    (checksum : bytes → byte) : Prop :=
  ∀ fields, valid fields_con (root X) fields = true →
    ∃ message, encode X fields = Ok message ∧
      length message = 37%nat ∧
      decode X message = Ok fields ∧
      message !! 36%nat = Some (checksum (take 36 message)).

(** ** The dispatcher as the specification words it *)

Inductive frame_type : Type :=
| InitiateCommunication_type
| StartCommunication_type
| InitiateCommunicationResponse_type
| StartCommunicationResponse_type.

(** [buffer[k] == v] reads as false when the buffer has no byte [k]. *)
Definition byte_is (buffer : bytes) (k : nat) (P : Z → bool) : bool :=
  match buffer !! k with
  | Some b => P (byte_to_Z b)
  | None => false
  end.

Definition classify (buffer : bytes) (direction : string) : option frame_type :=
  if decide (direction = "topanel") then
    if byte_is buffer 0 (Z.eqb 0x72) && byte_is buffer 1 (Z.eqb 0x00)
    then Some InitiateCommunication_type
    else if byte_is buffer 0 (Z.eqb 0x5F) then Some StartCommunication_type
    else None
  else
    if byte_is buffer 0 (Z.eqb 0x72) && byte_is buffer 1 (Z.eqb 0xFF)
    then Some InitiateCommunicationResponse_type
    else if byte_is buffer 0 (Z.eqb 0x00) && byte_is buffer 4 (Z.ltb 0)
    then Some StartCommunicationResponse_type
    else None.

Definition parse_as `{Common} (t : frame_type) (buffer : bytes)
  : result (option Panel.Message) :=
  match t with
  | InitiateCommunication_type =>
      Some ∘ Panel.IsInitiateCommunication <$> parse InitiateCommunication buffer
  | StartCommunication_type =>
      Some ∘ Panel.IsStartCommunication <$> parse StartCommunication buffer
  | InitiateCommunicationResponse_type =>
      Some ∘ Panel.IsInitiateCommunicationResponse
        <$> parse InitiateCommunicationResponse buffer
  | StartCommunicationResponse_type =>
      Some ∘ Panel.IsStartCommunicationResponse
        <$> parse StartCommunicationResponse buffer
  end.

Definition classify_and_parse `{Common} (buffer : option bytes)
    (direction : string) : result (option Panel.Message) :=
  match buffer with
  | None | Some [] => Ok None
  | Some buffer =>
      match classify buffer direction with
      | Some t => parse_as t buffer
      | None => Ok None
      end
  end.

(** The bytes the classification tests are in the buffer: byte 1 when
    byte 0 is [0x72], and byte 4 when the direction is not [topanel] and
    byte 0 is [0x00]. *)
Definition tests_in_bounds (buffer : bytes) (direction : string) : Prop :=
  (byte_is buffer 0 (Z.eqb 0x72) = true → (2 ≤ length buffer)%nat) ∧
  (direction ≠ "topanel" → byte_is buffer 0 (Z.eqb 0x00) = true →
   (5 ≤ length buffer)%nat).

(** ** The password packing as the specification words it *)

Definition nibble_of_digit (d : Z) : Z := if d =? 0 then 0x0A else d.

(** Pairs of digits in processing order, least significant first: the
    first of a pair is the low nibble, the second the high nibble, and
    the byte index decreases from pair to pair. *)
Fixpoint pack_pairs (digits : list Z) (index : nat) (out : list Z) : list Z :=
  match digits with
  | first :: second :: digits =>
      pack_pairs digits (pred index)
        (<[index := Z.lor (nibble_of_digit first)
                          (Z.shiftl (nibble_of_digit second) 4)]> out)
  | _ => out
  end.

(** [digits] is written most significant digit first. *)
Definition password_packing (digits : list Z) : list Z :=
  pack_pairs (reverse digits) 1 [0; 0].

(** The digits of a 4-digit decimal password, after an [int] is
    normalised to its zero-padded string. *)
Definition password_digits (password : pyobj) : option (list Z) :=
  match codes (Panel.normalize password) with
  | Ok cs =>
      if bool_decide (length cs = 4%nat) && forallb is_decimal cs
      then Some ((λ c, c - 48) <$> cs) else None
  | Raise _ => None
  end.

Definition is_digit (d : Z) : Prop := 0 <= d <= 9.

(** ** Label loading: the pairs answered before a miss *)

Section labels_spec.
Context `{Externals} {W MessageSpec : Type}.
Context (self : PanelObj W MessageSpec) (spec : MessageSpec).
Context (field_length label_offset : nat) (template : Properties).

(** [loads s addresses s']: from the state [s] (the dict, the transport
    and the log) every pair of [addresses] got its reply and its entry
    was stored, which leaves the state [s']. *)
Inductive loads
  : dict Z Properties * W * list LogRecord → list (Z * Z) →
    dict Z Properties * W * list LogRecord → Prop :=
| loads_nil s : loads s [] s
| loads_cons data_dict w log index address addresses reply w1 label log1 s' :
    send_wait self spec
      {| args_address := address; args_length := field_length |}
      (Panel.reply_expected address) w = (Some reply, w1) →
    Panel.label_of reply field_length label_offset log = Ok (label, log1) →
    loads (dict_setitem index (Panel.properties_of template index label) data_dict,
           w1, log1) addresses s' →
    loads (data_dict, w, log) ((index, address) :: addresses) s'.

End labels_spec.

(** ** Instances to evaluate on

    The members of these instances are chosen for the examples; they are
    not taken from the repository. *)

Definition sum_checksum (data : bytes) : byte :=
  default x00
    (byte_of_Z (foldr (λ b acc, byte_to_Z b + acc) 0 data `mod` 256)).

(** Two decimal digits held in the two nibbles of a byte. *)
Definition bcd_decode (b : Z) : result Z :=
  if (b `div` 16 <? 10) && (b `mod` 16 <? 10)
  then Ok (10 * (b `div` 16) + b `mod` 16) else Raise ValueError.

Definition bcd_encode (v : Z) : result Z :=
  if (0 <=? v) && (v <? 100)
  then Ok (16 * (v `div` 10) + v `mod` 10) else Raise ValueError.

Definition sample_common : Common := {|
  calculate_checksum := sum_checksum;
  ProductIdEnum_members := [("DIGIPLEX_EVO_48", 4); ("DIGIPLEX_EVO_192", 5)];
  CommunicationSourceIDEnum_members := [("NonValid_Source", 0);
                                        ("Winload_Direct", 1)];
  HexInt_decode := bcd_decode;
  HexInt_encode := bcd_encode
|}.

Definition sample_externals : Externals := {|
  LIMITS := ∅;
  LABEL_ENCODING := "utf-8";
  sanitize_key s := s;
  bytes_decode _ b := Ok (byte_to_Z <$> b);
  decode_utf8_ignore b := byte_to_Z <$> b;
  title s := s
|}.

(** A panel with one category of three addresses, on a transport that
    answers the requests for addresses 1 and 3 and times out on 2. *)
Definition sample_reply (address : Z) : Reply := {|
  reply_command := 0x05;
  reply_address := address;
  reply_data := String.list_byte_of_string "Front door      "
|}.

Definition sample_panel : PanelObj () () := {|
  send_wait _ args _ w :=
    (if args_address args =? 2 then None
     else Some (sample_reply (args_address args)), w);
  get_message name :=
    if decide (name = "ReadEEPROM") then Ok ()
    else Raise (ResourceWarning "{} parser not found" [PyStr name]);
  mem_map_elements :=
    Some [("zone", {| addresses := [[1; 2; 3]]; label_offset := 0 |})]
|}.

(** The structured fields of one frame of each type. *)
Definition sample_InitiateCommunication :=
  Container(Container(Some 7, Some 2), ()).

Definition sample_InitiateCommunicationResponse :=
  Container(Container(Some 7, 3), Some 0xFF, 1, Container(2, 3, 4), 5,
            EnumIntegerString "DIGIPLEX_EVO_192",
            EnumIntegerString "CONTROLLER_APPLICATION",
            Container(7, 50, 0), [x01; x02; x03; x04], Container(1, 2),
            Container(1, 2, 3, 4, 5, 6), 7, 8, [x00; x00],
            String.list_byte_of_string "EVO192  ").

Definition sample_StartCommunication :=
  Container(Container(Some 0x5F), Some 0x20, (),
            Some (EnumIntegerString "Winload_Direct"),
            Container(Some 0, Some 0)).

Definition sample_StartCommunicationResponse :=
  Container(Container(Some 0, Container(false, true, false, true)),
            [x00; x00; x00], EnumIntegerString "DIGIPLEX_EVO_192",
            Container(7, 50, 0), 515, [x00; x00; x00; x00; x00],
            Container(1, 2, 3, 4, 5, Container(0, true, false), 6),
            replicate 14 x00).

Definition sample_CloseConnection := Container(Container(Some 0x70), Some 37, ()).

(** The 36 payload bytes of an initiate-communication frame followed by
    a checksum byte. *)
Definition sample_frame (checksum : byte) : bytes :=
  x72 :: replicate 35 x00 ++ [checksum].

(** Byte 0 is [0x01]: command nibble 0, status nibble 1; byte 4 is 5,
    and byte 36 is the checksum. *)
Definition sample_status_frame : bytes :=
  [x01; x00; x00; x00; x05] ++ replicate 31 x00 ++ [x06].

(** A start-communication response of the product 5 with its checksum,
    and what [StartCommunicationResponse] parses it to. *)
Definition sample_response_frame : bytes :=
  [x00; x00; x00; x00; x05] ++ replicate 31 x00 ++ [x05].

Definition sample_parsed_StartCommunicationResponse :=
  Container({| data := Some ([x00; x00; x00; x00; x05] ++ replicate 31 x00);
               value := Some
                 (Container(Container(Some 0,
                                      Container(false, false, false, false)),
                            [x00; x00; x00], EnumIntegerString "DIGIPLEX_EVO_192",
                            Container(0, 0, 0), 0, replicate 5 x00,
                            Container(0, 0, 0, 0, 0, Container(0, false, false), 0),
                            replicate 14 x00));
               offset1 := Some 0; offset2 := Some 36;
               raw_length := Some 36 |}, Some [x05]).

Definition sample_parser_map : gmap Z (Construct byte Z) := {[ 1 := Int8ub ]}.

(** * Further statements about the code *)

Definition succeeds {A} (m : result A) : Prop := ∃ a, m = Ok a.

(** ** Frames: what a parser returns, reads and accepts *)

(** What a frame parser returns on a buffer: the first 36 bytes as raw
    data, the offsets 0 and 36, the structured fields, and the checksum
    of those bytes, which is byte 36 of the buffer. *)
Definition parsed_raw {A}
    (X : Construct byte (RawCopyObj A * (option bytes * ())))
    (checksum : bytes → byte) : Prop :=
  ∀ message obj, parse X message = Ok obj →
    (36 < length message)%nat ∧
    message !! 36%nat = Some (checksum (take 36 message)) ∧
    data obj.1 = Some (take 36 message) ∧
    is_Some (value obj.1) ∧
    offset1 obj.1 = Some 0 ∧ offset2 obj.1 = Some 36 ∧
    raw_length obj.1 = Some 36 ∧
    obj.2.1 = Some [checksum (take 36 message)].

(** Building the object a parse returned writes the 37 bytes parsed. *)
Definition rebuilds {A}
    (X : Construct byte (RawCopyObj A * (option bytes * ()))) : Prop :=
  ∀ message obj, parse X message = Ok obj → build X obj = Ok (take 37 message).

(** A parse reads the first [_sizeof c] units only: on a stream that has
    them, the outcome is that of the parse of those units, and what is
    left is the stream after them. *)
Definition parse_prefix_law {U A} (c : Construct U A) : Prop :=
  ∀ ctx stream, (_sizeof c ≤ length stream)%nat →
    _parse c ctx stream =
    '(obj, _) ← _parse c ctx (take (_sizeof c) stream);
    Ok (obj, drop (_sizeof c) stream).

Class Prefix {U A} (c : Construct U A) : Prop :=
  parse_prefix : parse_prefix_law c.
Arguments parse_prefix {U A} c {_} ctx stream.

(** A parse that cannot fail on a stream that holds [_sizeof c] units. *)
Definition parse_total_law {U A} (c : Construct U A) : Prop :=
  ∀ ctx stream, (_sizeof c ≤ length stream)%nat → succeeds (_parse c ctx stream).

Class Total {U A} (c : Construct U A) : Prop :=
  parse_total : parse_total_law c.
Arguments parse_total {U A} c {_} ctx stream.

(** The buffer has a byte [k], and its value satisfies [P]. *)
Definition byte_in (message : bytes) (k : nat) (P : Z → Prop) : Prop :=
  ∃ b, message !! k = Some b ∧ P (byte_to_Z b).

(** A frame parser accepts exactly the buffers whose leading bytes
    satisfy [constants] and whose byte 36 is the checksum of the first
    36 bytes. *)
Definition accepts `{Common} {A} (X : Construct byte A)
    (constants : bytes → Prop) : Prop :=
  ∀ message, succeeds (parse X message) ↔
    constants message ∧
    message !! 36%nat = Some (calculate_checksum (take 36 message)).

(** The payload [CloseConnection] builds: the command, the length 37
    and 34 bytes of padding. *)
Definition CloseConnection_payload : bytes := x70 :: x25 :: replicate 34 x00.

(** The payload [StartCommunication] builds. *)
Definition StartCommunication_payload (source_id high low : byte) : bytes :=
  [x5f; x20] ++ replicate 31 x00 ++ [source_id; high; low].

(** The value an [Enum] parses an integer to. *)
Definition enum_of (members : list (string * Z)) (n : Z) : EnumValue :=
  match decmapping members n with
  | Some name => EnumIntegerString name
  | None => EnumInteger n
  end.

(** The frame a [Message] holds was parsed from [message] by the parser
    of its type, and the type is one of the direction's two. *)
Definition parsed_from `{Common} (message : bytes) (direction : string)
    (m : Panel.Message) : Prop :=
  match m with
  | Panel.IsInitiateCommunication c =>
      direction = "topanel" ∧ parse InitiateCommunication message = Ok c
  | Panel.IsStartCommunication c =>
      direction = "topanel" ∧ parse StartCommunication message = Ok c
  | Panel.IsInitiateCommunicationResponse c =>
      direction ≠ "topanel" ∧ parse InitiateCommunicationResponse message = Ok c
  | Panel.IsStartCommunicationResponse c =>
      direction ≠ "topanel" ∧ parse StartCommunicationResponse message = Ok c
  end.

(** ** Passwords *)

(** The four decimal digits of an [int] in [range(10000)]. *)
Definition decimal_digits (n : Z) : list Z :=
  [n `div` 1000; (n `div` 100) `mod` 10; (n `div` 10) `mod` 10; n `mod` 10].

(** The encoding of a password of four decimal digits. *)
Definition digits_encoding (digits : list Z) : list Z :=
  if decide (digits = [0; 0; 0; 0]) then [0; 0] else password_packing digits.

(** ** Labels *)

(** Every dict of [data] is empty. *)
Definition all_empty (data : dict string (dict Z Properties)) : Prop :=
  ∀ elem_type data_dict, dict_get elem_type data = Some data_dict → data_dict = [].

(** No category has an address to load. *)
Definition no_address `{Externals} (elements : dict string ElemDef) : Prop :=
  Forall (λ td, Panel.category_addresses td.1 td.2 = []) elements.

(** The bytes of a label as they reach the decoder. *)
Definition clean_label (field_length : nat) (label : bytes) : Prop :=
  (length label ≤ field_length)%nat ∧ (x00 ∉ label) ∧
  head label ≠ Some x20 ∧ last label ≠ Some x20.

(** ** Error messages *)

(** The codes [get_error_message] has a text for. *)
Definition known_error_code (n : Z) : Prop :=
  n ∈ [0; 1; 2; 5] ∨ 0x10 <= n <= 0x17 ∨ 0x19 <= n <= 0x1C.

(** [int(error_code)] and [str(error_code)] *)
Definition error_int (error_code : Panel.ErrorCode) : Z :=
  match error_code with
  | Panel.ErrorInt n => n
  | Panel.ErrorEnumIntegerString intvalue _ => intvalue
  end.

Definition error_str (error_code : Panel.ErrorCode) : string :=
  match error_code with
  | Panel.ErrorInt n => str n
  | Panel.ErrorEnumIntegerString _ name => name
  end.

(** ** Further instances to evaluate on

    As above, the members are chosen for the examples. *)

(** What [InitiateCommunication] parses [sample_frame x72] to. *)
Definition sample_parsed_InitiateCommunication :=
  Container({| data := Some (x72 :: replicate 35 x00);
               value := Some sample_InitiateCommunication;
               offset1 := Some 0; offset2 := Some 36;
               raw_length := Some 36 |}, Some [x72]).

(** [sample_frame x72] followed by two more bytes. *)
Definition sample_long_frame : bytes := sample_frame x72 ++ [xff; xff].

(** A close-connection frame whose length byte is [0x99]. *)
Definition sample_close_frame : bytes :=
  x70 :: x99 :: replicate 34 x00 ++ [x09].

(** A configuration whose [LABEL_ENCODING] names no codec. *)
Definition sample_externals_no_codec : Externals := {|
  LIMITS := ∅;
  LABEL_ENCODING := "utf-9";
  sanitize_key s := s;
  bytes_decode _ _ := Raise LookupError;
  decode_utf8_ignore b := byte_to_Z <$> b;
  title s := s
|}.

(** A panel of the base class: [get_message] finds no [ReadEEPROM]. *)
Definition sample_base_panel : PanelObj () () := {|
  send_wait _ args _ w := (Some (sample_reply (args_address args)), w);
  get_message name := Raise (ResourceWarning "{} parser not found" [PyStr name]);
  mem_map_elements :=
    Some [("zone", {| addresses := [[1; 2; 3]]; label_offset := 0 |})]
|}.

(** * Proofs *)

(** ** Bytes and streams *)

Lemma byte_to_Z_range (b : byte) : 0 <= byte_to_Z b < 256.
Proof.
  unfold byte_to_Z. pose proof (Byte.to_N_bounded b). lia.
Qed.

Lemma byte_of_to_Z (b : byte) : byte_of_Z (byte_to_Z b) = Some b.
Proof.
  unfold byte_of_Z, byte_to_Z.
  destruct (Z.leb_spec 0 (Z.of_N (Byte.to_N b))); [|lia].
  rewrite N2Z.id. apply Byte.of_to_N.
Qed.

Lemma byte_of_Z_Some (z : Z) :
  0 <= z < 256 → ∃ b, byte_of_Z z = Some b ∧ byte_to_Z b = z.
Proof.
  intros Hz. unfold byte_of_Z, byte_to_Z.
  destruct (Z.leb_spec 0 z); [|lia].
  destruct (Byte.of_N (Z.to_N z)) as [b|] eqn:E.
  - exists b. split; [done|]. apply Byte.to_of_N in E. lia.
  - apply Byte.of_N_None_iff in E. lia.
Qed.

Lemma byte_of_Z_inv (z : Z) (b : byte) : byte_of_Z z = Some b → byte_to_Z b = z.
Proof.
  unfold byte_of_Z, byte_to_Z. destruct (Z.leb_spec 0 z); [|done].
  intros E. apply Byte.to_of_N in E. lia.
Qed.

Lemma stream_read_app {U} (data rest : list U) :
  stream_read (data ++ rest) (length data) = Ok (data, rest).
Proof.
  unfold stream_read. rewrite decide_True by (rewrite length_app; lia).
  by rewrite take_app_length, drop_app_length.
Qed.

Lemma stream_read_take {U} (stream : list U) n :
  (n ≤ length stream)%nat → stream_read stream n = Ok (take n stream, drop n stream).
Proof. intros Hn. unfold stream_read. by rewrite decide_True. Qed.

Lemma stream_read_Ok {U} (stream data rest : list U) n :
  stream_read stream n = Ok (data, rest) →
  (n ≤ length stream)%nat ∧ data = take n stream ∧ rest = drop n stream.
Proof.
  unfold stream_read. case_decide; [|done]. intros [= <- <-]. done.
Qed.

Ltac result_inv :=
  repeat match goal with
  | H : Ok _ = Ok _ |- _ => injection H as H; try subst
  | H : Raise _ = Ok _ |- _ => discriminate H
  | H : (_, _) = (_, _) |- _ => injection H as H; try subst
  | H : mbind _ ?m = Ok _ |- _ =>
      let E := fresh "E" in
      first [destruct m as [[]|] eqn:E | destruct m eqn:E]; simpl in H
  | H : context [mbind _ (Ok _)] |- _ => simpl in H
  end.

Ltac read_inv :=
  repeat match goal with
  | H : stream_read _ _ = Ok _ |- _ => apply stream_read_Ok in H as (? & ? & ?); subst
  end.

Lemma Int8ub_build_parse : build_parse_law Int8ub (λ _, in_range 0 256).
Proof.
  intros ctx obj Hv. unfold in_range in Hv.
  destruct (byte_of_Z_Some obj) as (b & Hb & Hz); [lia|].
  exists [b]. simpl. rewrite Hb. repeat split. intros rest.
  by rewrite Hz.
Qed.

Lemma Int8ub_parse_sizeof : parse_sizeof_law Int8ub.
Proof.
  intros ctx stream obj rest. simpl. intros Hp.
  result_inv. read_inv. destruct (take 1 stream) as [|? [|]]; by result_inv.
Qed.

#[global] Instance Int8ub_lawful : Lawful Int8ub :=
  {| valid _ := in_range 0 256;
     build_parse := Int8ub_build_parse; parse_sizeof := Int8ub_parse_sizeof |}.

Lemma Int16ub_build_parse : build_parse_law Int16ub (λ _, in_range 0 65536).
Proof.
  intros ctx obj Hv. unfold in_range in Hv.
  destruct (byte_of_Z_Some (obj `div` 256)) as (hi & Hhi & Hzhi).
  { split; [apply Z.div_pos; lia|apply Z.div_lt_upper_bound; lia]. }
  destruct (byte_of_Z_Some (obj `mod` 256)) as (lo & Hlo & Hzlo).
  { apply Z.mod_pos_bound; lia. }
  exists [hi; lo]. simpl. rewrite Hhi, Hlo. repeat split. intros rest.
  rewrite Hzhi, Hzlo. do 2 f_equal. symmetry. apply Z.div_mod. lia.
Qed.

Lemma Int16ub_parse_sizeof : parse_sizeof_law Int16ub.
Proof.
  intros ctx stream obj rest. simpl. intros Hp.
  result_inv. read_inv. destruct (take 2 stream) as [|? [|? [|]]]; by result_inv.
Qed.

#[global] Instance Int16ub_lawful : Lawful Int16ub :=
  {| valid _ := in_range 0 65536;
     build_parse := Int16ub_build_parse; parse_sizeof := Int16ub_parse_sizeof |}.

Lemma Bytes_build_parse size :
  build_parse_law (Bytes size) (λ _ obj, bool_decide (length obj = size)).
Proof.
  intros ctx obj Hv. apply bool_decide_eq_true in Hv.
  exists obj. simpl. rewrite decide_True by done. repeat split; [done|].
  intros rest. subst size. apply stream_read_app.
Qed.

Lemma Bytes_parse_sizeof size : parse_sizeof_law (Bytes size).
Proof.
  intros ctx stream obj rest. simpl. intros Hp. by read_inv.
Qed.

#[global] Instance Bytes_lawful size : Lawful (Bytes size) :=
  {| valid _ obj := bool_decide (length obj = size);
     build_parse := Bytes_build_parse size;
     parse_sizeof := Bytes_parse_sizeof size |}.

Lemma Padding_build_parse size : build_parse_law (Padding size) (λ _ _, true).
Proof.
  intros ctx [] _. exists (replicate size x00). simpl.
  rewrite length_replicate. repeat split. intros rest.
  pose proof (stream_read_app (replicate size x00) rest) as Hr.
  rewrite length_replicate in Hr. by rewrite Hr.
Qed.

Lemma Padding_parse_sizeof size : parse_sizeof_law (Padding size).
Proof.
  intros ctx stream obj rest. simpl. intros Hp. result_inv. by read_inv.
Qed.

#[global] Instance Padding_lawful size : Lawful (Padding size) :=
  {| valid _ _ := true;
     build_parse := Padding_build_parse size;
     parse_sizeof := Padding_parse_sizeof size |}.

Lemma Flag_build_parse : build_parse_law Flag (λ _ _, true).
Proof. intros ctx obj _. exists [obj]. simpl. done. Qed.

Lemma Flag_parse_sizeof : parse_sizeof_law Flag.
Proof.
  intros ctx stream obj rest. simpl. intros Hp.
  result_inv. read_inv. destruct (take 1 stream) as [|? [|]]; by result_inv.
Qed.

#[global] Instance Flag_lawful : Lawful Flag :=
  {| valid _ _ := true;
     build_parse := Flag_build_parse; parse_sizeof := Flag_parse_sizeof |}.

Lemma length_integer2bits number width :
  length (integer2bits number width) = width.
Proof.
  revert number. induction width as [|width IH]; intros number; simpl; [done|].
  rewrite length_app, IH. simpl. lia.
Qed.

Lemma bits2integer_snoc data b :
  bits2integer (data ++ [b]) = 2 * bits2integer data + Z.b2z b.
Proof.
  unfold bits2integer. rewrite foldl_app. simpl.
  set (n := foldl _ 0 data).
  rewrite Z.shiftl_mul_pow2 by lia.
  replace (n * 2 ^ 1) with (2 * n) by lia.
  symmetry. apply Z.add_nocarry_lor.
  destruct b; simpl; [|apply Z.land_0_r].
  change 1 with (Z.ones 1). rewrite Z.land_ones by lia.
  change (2 ^ 1) with 2. rewrite Z.mul_comm. apply Z.mod_mul. lia.
Qed.

Lemma bits2integer_integer2bits number width :
  0 <= number < 2 ^ Z.of_nat width →
  bits2integer (integer2bits number width) = number.
Proof.
  revert number. induction width as [|width IH]; intros number Hn.
  - simpl in *. unfold bits2integer. simpl. lia.
  - simpl. rewrite bits2integer_snoc, Z.shiftr_div_pow2 by lia.
    change (2 ^ 1) with 2.
    rewrite Nat2Z.inj_succ, Z.pow_succ_r in Hn by lia.
    rewrite IH.
    + rewrite <- Z.bit0_odd, Z.bit0_mod. symmetry. apply Z.div_mod. lia.
    + split; [apply Z.div_pos; lia|apply Z.div_lt_upper_bound; lia].
Qed.

Lemma BitsInteger_build_parse size :
  build_parse_law (BitsInteger size) (λ _, in_range 0 (2 ^ Z.of_nat size)).
Proof.
  intros ctx obj Hv. unfold in_range in Hv.
  exists (integer2bits obj size). simpl. rewrite Hv.
  rewrite length_integer2bits. repeat split. intros rest.
  pose proof (stream_read_app (integer2bits obj size) rest) as Hr.
  rewrite length_integer2bits in Hr. rewrite Hr. simpl.
  rewrite bits2integer_integer2bits; [done|lia].
Qed.

Lemma BitsInteger_parse_sizeof size : parse_sizeof_law (BitsInteger size).
Proof.
  intros ctx stream obj rest. simpl. intros Hp. result_inv. by read_inv.
Qed.

#[global] Instance BitsInteger_lawful size : Lawful (BitsInteger size) :=
  {| valid _ := in_range 0 (2 ^ Z.of_nat size);
     build_parse := BitsInteger_build_parse size;
     parse_sizeof := BitsInteger_parse_sizeof size |}.

#[global] Instance Nibble_lawful : Lawful Nibble := BitsInteger_lawful 4.

(** Bits and bytes. *)

#[local] Arguments Byte.of_bits : simpl never.
#[local] Arguments Byte.to_bits : simpl never.
#[local] Arguments Nat.div : simpl never.
#[local] Arguments Nat.modulo : simpl never.

Lemma bits2bytes_bytes2bits (data : bytes) :
  bits2bytes (bytes2bits data) = Ok data.
Proof.
  induction data as [|b data IH]; [done|].
  unfold bytes2bits in *. rewrite bind_cons. unfold byte2bits at 1.
  pose proof (Byte.of_bits_to_bits b) as Hb.
  destruct (Byte.to_bits b) as (b0 & b1 & b2 & b3 & b4 & b5 & b6 & b7).
  simpl. rewrite IH. simpl. by rewrite Hb.
Qed.

Lemma bytes2bits_bits2bytes (bits : list bool) (data : bytes) :
  bits2bytes bits = Ok data →
  bytes2bits data = bits ∧ length bits = (8 * length data)%nat.
Proof.
  revert bits. induction data as [|b data IH]; intros bits Hb.
  - destruct bits as [|? [|? [|? [|? [|? [|? [|? [|? bits]]]]]]]];
      simpl in Hb; try done.
    destruct (bits2bytes bits); done.
  - destruct bits as [|b7 [|b6 [|b5 [|b4 [|b3 [|b2 [|b1 [|b0 bits]]]]]]]];
      simpl in Hb; try done.
    destruct (bits2bytes bits) as [data'|] eqn:E; [|done].
    simpl in Hb. injection Hb as <- <-.
    destruct (IH bits E) as [IH1 IH2].
    unfold bytes2bits in *. rewrite bind_cons. unfold byte2bits at 1.
    rewrite Byte.to_bits_of_bits.
    simpl. rewrite IH1. split; [done|]. rewrite IH2. lia.
Qed.

Lemma bits2bytes_Ok (bits : list bool) :
  (length bits `mod` 8 = 0)%nat → ∃ data, bits2bytes bits = Ok data.
Proof.
  intros Hl. remember (length bits `div` 8)%nat as k eqn:Hk.
  revert bits Hl Hk. induction k as [|k IH]; intros bits Hl Hk.
  - assert (length bits = 0%nat) as Hz.
    { pose proof (Nat.div_mod_eq (length bits) 8). lia. }
    destruct bits; [|done]. by exists [].
  - assert (length bits = (8 + 8 * k)%nat) as Hz.
    { pose proof (Nat.div_mod_eq (length bits) 8). lia. }
    destruct bits as [|b7 [|b6 [|b5 [|b4 [|b3 [|b2 [|b1 [|b0 bits]]]]]]]];
      simpl in Hz; try lia.
    destruct (IH bits) as [data Hd].
    + simpl in Hz. replace (length bits) with (k * 8)%nat by lia.
      apply Nat.Div0.mod_mul.
    + simpl in Hz. replace (length bits) with (k * 8)%nat by lia.
      by rewrite Nat.div_mul.
    + eexists. simpl. rewrite Hd. simpl. done.
Qed.

Section lawful.
Context {U : Type}.

Lemma Bitwise_build_parse {A} (subcon : Construct bool A) `{!Lawful subcon} :
  build_parse_law (Bitwise subcon)
    (λ ctx obj, valid subcon ctx obj
                && bool_decide (_sizeof subcon `mod` 8 = 0)%nat).
Proof.
  intros ctx obj [Hv Hs%bool_decide_eq_true]%andb_true_iff.
  destruct (build_parse subcon ctx obj Hv) as (bits & Hb & Hl & Hp).
  destruct (bits2bytes_Ok bits) as [data Hd]; [by rewrite Hl|].
  destruct (bytes2bits_bits2bytes _ _ Hd) as [Hbits Hlen].
  assert (length data = (_sizeof subcon `div` 8)%nat) as Hld.
  { rewrite <- Hl, Hlen, Nat.mul_comm. by rewrite Nat.div_mul. }
  exists data. simpl. rewrite Hb. simpl. rewrite Hd. simpl.
  rewrite decide_True by done. repeat split; [done|].
  intros rest. rewrite <- Hld, stream_read_app. simpl.
  rewrite Hbits. specialize (Hp []). rewrite app_nil_r in Hp.
  by rewrite Hp.
Qed.

Lemma Bitwise_parse_sizeof {A} (subcon : Construct bool A) :
  parse_sizeof_law (Bitwise subcon).
Proof.
  intros ctx stream obj rest. simpl. intros Hp. result_inv. by read_inv.
Qed.

#[global] Instance Bitwise_lawful {A} (subcon : Construct bool A)
    `{!Lawful subcon} : Lawful (Bitwise subcon) :=
  {| valid ctx obj := valid subcon ctx obj
                      && bool_decide (_sizeof subcon `mod` 8 = 0)%nat;
     build_parse := Bitwise_build_parse subcon;
     parse_sizeof := Bitwise_parse_sizeof subcon |}.

Lemma Struct_nil_build_parse : build_parse_law (@Struct_nil U) (λ _ _, true).
Proof. intros ctx [] _. by exists []. Qed.

Lemma Struct_nil_parse_sizeof : parse_sizeof_law (@Struct_nil U).
Proof. intros ctx stream obj rest. simpl. intros [= <- <-]. split; [lia|done]. Qed.

#[global] Instance Struct_nil_lawful : Lawful (@Struct_nil U) :=
  {| valid _ _ := true;
     build_parse := Struct_nil_build_parse;
     parse_sizeof := Struct_nil_parse_sizeof |}.

Lemma Struct_cons_build_parse {A B} `{InContext A} name
    (subcon : Construct U A) (rest : Construct U B)
    `{!Lawful subcon, !Lawful rest} :
  build_parse_law (Struct_cons (Rename name subcon) rest)
    (λ ctx obj, valid subcon ctx obj.1
                && valid rest (in_context name obj.1 ctx) obj.2).
Proof.
  intros ctx [subobj obj] [Hv1 Hv2]%andb_true_iff. simpl in *.
  destruct (build_parse subcon ctx subobj Hv1) as (data1 & Hb1 & Hl1 & Hp1).
  destruct (build_parse rest _ obj Hv2) as (data2 & Hb2 & Hl2 & Hp2).
  exists (data1 ++ data2). rewrite Hb1. simpl. rewrite Hb2. simpl.
  repeat split; [rewrite length_app; lia|].
  intros stream. rewrite <- app_assoc, Hp1. simpl. by rewrite Hp2.
Qed.

Lemma Struct_cons_parse_sizeof {A B} `{InContext A} name
    (subcon : Construct U A) (rest : Construct U B)
    `{!Lawful subcon, !Lawful rest} :
  parse_sizeof_law (Struct_cons (Rename name subcon) rest).
Proof.
  intros ctx stream obj stream'. simpl. intros Hp. result_inv.
  match goal with
  | H1 : _parse subcon _ _ = _, H2 : _parse rest _ _ = _ |- _ =>
      apply (parse_sizeof subcon) in H1 as [Hl1 ->];
      apply (parse_sizeof rest) in H2 as [Hl2 ->]
  end.
  rewrite length_drop in Hl2. rewrite drop_drop. split; [lia|done].
Qed.

#[global] Instance Struct_cons_lawful {A B} `{InContext A} name
    (subcon : Construct U A) (rest : Construct U B)
    `{!Lawful subcon, !Lawful rest}
  : Lawful (Struct_cons (Rename name subcon) rest) :=
  {| valid ctx obj := valid subcon ctx obj.1
                      && valid rest (in_context name obj.1 ctx) obj.2;
     build_parse := Struct_cons_build_parse name subcon rest;
     parse_sizeof := Struct_cons_parse_sizeof name subcon rest |}.

End lawful.

Section lawful_adapters.
Context {U A : Type} (subcon : Construct U A) `{!Lawful subcon}.

Lemma Const_build_parse `{EqDecision A} (value : A) :
  build_parse_law (Const value subcon)
    (λ ctx obj, bool_decide (obj = Some value) && valid subcon ctx value).
Proof.
  intros ctx obj [->%bool_decide_eq_true Hv]%andb_true_iff.
  destruct (build_parse subcon ctx value Hv) as (data & Hb & Hl & Hp).
  exists data. simpl. rewrite decide_True by auto. rewrite Hb. simpl.
  repeat split; [done|]. intros rest. rewrite Hp. simpl.
  by rewrite decide_True.
Qed.

Lemma Const_parse_sizeof `{EqDecision A} (value : A) :
  parse_sizeof_law (Const value subcon).
Proof.
  intros ctx stream obj rest. simpl. intros Hp. result_inv.
  case_decide; result_inv. by eapply (parse_sizeof subcon).
Qed.

#[global] Instance Const_lawful `{EqDecision A} (value : A)
  : Lawful (Const value subcon) :=
  {| valid ctx obj := bool_decide (obj = Some value) && valid subcon ctx value;
     build_parse := Const_build_parse value;
     parse_sizeof := Const_parse_sizeof value |}.

Lemma Default_build_parse (value : A) :
  build_parse_law (Default subcon value)
    (λ ctx obj, match obj with
                | Some obj => valid subcon ctx obj
                | None => false
                end).
Proof.
  intros ctx [obj|] Hv; [|done].
  destruct (build_parse subcon ctx obj Hv) as (data & Hb & Hl & Hp).
  exists data. simpl. rewrite Hb. simpl.
  repeat split; [done|]. intros rest. by rewrite Hp.
Qed.

Lemma Default_parse_sizeof (value : A) : parse_sizeof_law (Default subcon value).
Proof.
  intros ctx stream obj rest. simpl. intros Hp. result_inv.
  by eapply (parse_sizeof subcon).
Qed.

#[global] Instance Default_lawful (value : A) : Lawful (Default subcon value) :=
  {| valid ctx obj := match obj with
                      | Some obj => valid subcon ctx obj
                      | None => false
                      end;
     build_parse := Default_build_parse value;
     parse_sizeof := Default_parse_sizeof value |}.

Lemma Rebuild_build_parse `{EqDecision A} (func : Context → result A) :
  build_parse_law (Rebuild subcon func)
    (λ ctx obj, match func ctx with
                | Ok v => bool_decide (obj = Some v) && valid subcon ctx v
                | Raise _ => false
                end).
Proof.
  intros ctx obj Hv. destruct (func ctx) as [v|] eqn:Hf; [|done].
  apply andb_true_iff in Hv as [->%bool_decide_eq_true Hv].
  destruct (build_parse subcon ctx v Hv) as (data & Hb & Hl & Hp).
  exists data. simpl. rewrite Hf. simpl. rewrite Hb. simpl.
  repeat split; [done|]. intros rest. by rewrite Hp.
Qed.

Lemma Rebuild_parse_sizeof (func : Context → result A) :
  parse_sizeof_law (Rebuild subcon func).
Proof.
  intros ctx stream obj rest. simpl. intros Hp. result_inv.
  by eapply (parse_sizeof subcon).
Qed.

#[global] Instance Rebuild_lawful `{EqDecision A} (func : Context → result A)
  : Lawful (Rebuild subcon func) :=
  {| valid ctx obj := match func ctx with
                      | Ok v => bool_decide (obj = Some v) && valid subcon ctx v
                      | Raise _ => false
                      end;
     build_parse := Rebuild_build_parse func;
     parse_sizeof := Rebuild_parse_sizeof func |}.

Lemma ExprAdapter_build_parse {B} `{EqDecision B}
    (decoder : A → result B) (encoder : B → result A) :
  build_parse_law (ExprAdapter subcon decoder encoder)
    (λ ctx obj, match encoder obj with
                | Ok obj2 => valid subcon ctx obj2
                             && bool_decide (decoder obj2 = Ok obj)
                | Raise _ => false
                end).
Proof.
  intros ctx obj Hv. destruct (encoder obj) as [obj2|] eqn:He; [|done].
  apply andb_true_iff in Hv as [Hv Hd%bool_decide_eq_true].
  destruct (build_parse subcon ctx obj2 Hv) as (data & Hb & Hl & Hp).
  exists data. simpl. rewrite He. simpl. rewrite Hb. simpl.
  repeat split; [done|]. intros rest. rewrite Hp. simpl. by rewrite Hd.
Qed.

Lemma ExprAdapter_parse_sizeof {B}
    (decoder : A → result B) (encoder : B → result A) :
  parse_sizeof_law (ExprAdapter subcon decoder encoder).
Proof.
  intros ctx stream obj rest. simpl. intros Hp. result_inv.
  by eapply (parse_sizeof subcon).
Qed.

#[global] Instance ExprAdapter_lawful {B} `{EqDecision B}
    (decoder : A → result B) (encoder : B → result A)
  : Lawful (ExprAdapter subcon decoder encoder) :=
  {| valid ctx obj := match encoder obj with
                      | Ok obj2 => valid subcon ctx obj2
                                   && bool_decide (decoder obj2 = Ok obj)
                      | Raise _ => false
                      end;
     build_parse := ExprAdapter_build_parse decoder encoder;
     parse_sizeof := ExprAdapter_parse_sizeof decoder encoder |}.

End lawful_adapters.

Section lawful_enum.
Context {U : Type} (subcon : Construct U Z) `{!Lawful subcon}.

Lemma Enum_build_parse mapping :
  build_parse_law (Enum subcon mapping) (Enum_valid subcon mapping).
Proof.
  intros ctx [name|n] Hv; simpl in Hv.
  - destruct (encmapping mapping name) as [n|] eqn:He; [|done].
    apply andb_true_iff in Hv as [Hd%bool_decide_eq_true Hv].
    destruct (build_parse subcon ctx n Hv) as (data & Hb & Hl & Hp).
    exists data. simpl. rewrite He. simpl. rewrite Hb. simpl.
    repeat split; [done|]. intros rest. rewrite Hp. simpl. by rewrite Hd.
  - apply andb_true_iff in Hv as [Hd%bool_decide_eq_true Hv].
    destruct (build_parse subcon ctx n Hv) as (data & Hb & Hl & Hp).
    exists data. simpl. rewrite Hb. simpl.
    repeat split; [done|]. intros rest. rewrite Hp. simpl. by rewrite Hd.
Qed.

Lemma Enum_parse_sizeof mapping : parse_sizeof_law (Enum subcon mapping).
Proof.
  intros ctx stream obj rest. simpl. intros Hp. result_inv.
  by eapply (parse_sizeof subcon).
Qed.

#[global] Instance Enum_lawful mapping : Lawful (Enum subcon mapping) :=
  {| valid := Enum_valid subcon mapping;
     build_parse := Enum_build_parse mapping;
     parse_sizeof := Enum_parse_sizeof mapping |}.

End lawful_enum.

Section frames_lawful.
Context `{Common}.

#[global] Instance ProductIdEnum_lawful : Lawful ProductIdEnum := _.
#[global] Instance CommunicationSourceIDEnum_lawful
  : Lawful CommunicationSourceIDEnum := _.
#[global] Instance HexInt_lawful : Lawful HexInt := _.

#[global] Instance InitiateCommunication_fields_lawful
  : Lawful InitiateCommunication_fields := _.
#[global] Instance InitiateCommunicationResponse_fields_lawful
  : Lawful InitiateCommunicationResponse_fields := _.
#[global] Instance StartCommunication_fields_lawful
  : Lawful StartCommunication_fields := _.
#[global] Instance StartCommunicationResponse_fields_lawful
  : Lawful StartCommunicationResponse_fields := _.
#[global] Instance CloseConnection_fields_lawful
  : Lawful CloseConnection_fields := _.
End frames_lawful.

Section frame.
Context {A : Type} (fields_con : Construct byte A) `{!Lawful fields_con}.
Context (hash : bytes → byte).

Let X := Struct("fields" / RawCopy fields_con,
                "checksum" / Checksum (Bytes 1) (λ data, [hash data])
                                      this_fields_data).

Lemma frame_build_parse (fields : A) :
  valid fields_con (root X) fields = true →
  ∃ raw, length raw = _sizeof fields_con ∧
    encode X fields = Ok (raw ++ [hash raw]) ∧
    parse X (raw ++ [hash raw]) =
      Ok (Container({| data := Some raw; value := Some fields;
                       offset1 := Some 0;
                       offset2 := Some (Z.of_nat (length raw));
                       raw_length := Some (Z.of_nat (length raw)) |},
                    Some [hash raw])).
Proof.
  intros Hv.
  destruct (build_parse fields_con (root X) fields Hv) as (raw & Hb & Hl & Hp).
  exists raw. split; [done|]. split.
  - unfold encode, build. simpl. rewrite Hb. simpl. done.
  - unfold parse. simpl. rewrite Hp. simpl.
    rewrite length_app. simpl.
    replace (Z.to_nat (0 + Z.of_nat (length raw + 1 - 1) - 0)) with (length raw) by lia.
    rewrite stream_read_app. simpl.
    rewrite decide_False by (intros Hne; by apply Hne).
    simpl. repeat f_equal; lia.
Qed.

Lemma frame_parse_checksum (message : bytes) :
  message !! _sizeof fields_con ≠ Some (hash (take (_sizeof fields_con) message)) →
  raises (parse X message).
Proof.
  intros Hck. unfold parse. simpl.
  destruct (_parse fields_con (root X) message) as [[obj stream]|e] eqn:Hp;
    [|by eexists].
  apply (parse_sizeof fields_con) in Hp as [Hl ->]. simpl.
  rewrite length_drop.
  replace (Z.to_nat (0 + Z.of_nat (length message - (length message - _sizeof fields_con)) - 0))
    with (_sizeof fields_con) by lia.
  rewrite stream_read_take by done. simpl.
  destruct (stream_read (drop (_sizeof fields_con) message) 1)
    as [[hash1 stream]|e] eqn:Hr; [|by eexists].
  apply stream_read_Ok in Hr as (Hl1 & -> & ->). simpl.
  rewrite decide_True; [by eexists|].
  intros Heq. apply Hck.
  rewrite <- (take_drop (_sizeof fields_con) message) at 1.
  rewrite lookup_app_r by (rewrite length_take; lia).
  rewrite length_take, Nat.min_l, Nat.sub_diag by lia.
  destruct (drop (_sizeof fields_con) message) as [|b ?]; [done|].
  simpl in Heq. by injection Heq as ->.
Qed.

End frame.

Lemma frame_round_trips {A} (fields_con : Construct byte A)
    `{!Lawful fields_con} (hash : bytes → byte) :
  _sizeof fields_con = 36%nat →
  round_trips (Struct("fields" / RawCopy fields_con,
                      "checksum" / Checksum (Bytes 1) (λ data, [hash data])
                                            this_fields_data))
              fields_con hash.
Proof.
  intros Hs fields Hv.
  destruct (frame_build_parse fields_con hash fields Hv) as (raw & Hl & He & Hp).
  rewrite Hs in Hl.
  exists (raw ++ [hash raw]). split; [done|]. split.
  { rewrite length_app. simpl. lia. }
  split.
  - unfold decode. by rewrite Hp.
  - rewrite lookup_app_r by lia. rewrite Hl. simpl.
    by rewrite <- Hl, take_app_length.
Qed.

(** ** The password encoder *)

Lemma divmod10 q d : 0 <= d < 10 → (10 * q + d) `mod` 10 = d ∧ (10 * q + d) `div` 10 = q.
Proof. intros. Z.div_mod_to_equations. lia. Qed.

Lemma digit_cases d : is_digit d →
  d = 0 ∨ d = 1 ∨ d = 2 ∨ d = 3 ∨ d = 4 ∨ d = 5 ∨ d = 6 ∨ d = 7 ∨ d = 8 ∨ d = 9.
Proof. unfold is_digit. lia. Qed.

Lemma pack_byte lo hi : is_digit lo → is_digit hi →
  let b := Z.lor (nibble_of_digit lo) (Z.shiftl (nibble_of_digit hi) 4) in
  Z.land (Z.lor (Z.shiftl (nibble_of_digit hi) 4) (nibble_of_digit lo)) 0xff = b
  ∧ 0 <= b < 256 ∧ Z.land b 0xF = nibble_of_digit lo
  ∧ Z.shiftr b 4 = nibble_of_digit hi.
Proof.
  intros Hlo%digit_cases Hhi%digit_cases.
  destruct Hlo as [->|[->|[->|[->|[->|[->|[->|[->|[->| ->]]]]]]]]];
  destruct Hhi as [->|[->|[->|[->|[->|[->|[->|[->|[->| ->]]]]]]]]];
  vm_compute; repeat split; congruence.
Qed.

Lemma getitem_0 {A} (a b : A) : getitem [a; b] 0 = Ok a.
Proof. reflexivity. Qed.
Lemma getitem_1 {A} (a b : A) : getitem [a; b] 1 = Ok b.
Proof. reflexivity. Qed.
Lemma setitem_0 {A} (a b x : A) : setitem [a; b] 0 x = Ok [x; b].
Proof. reflexivity. Qed.
Lemma setitem_1 {A} (a b x : A) : setitem [a; b] 1 x = Ok [a; x].
Proof. reflexivity. Qed.

Lemma encode_password_loop_4 d3 d2 d1 d0 :
  is_digit d3 → is_digit d2 → is_digit d1 → is_digit d0 →
  Panel.encode_password_loop 4 (10 * (10 * (10 * d3 + d2) + d1) + d0) 1 [0; 0] =
  Ok (password_packing [d3; d2; d1; d0]).
Proof.
  intros H3 H2 H1 H0.
  destruct (pack_byte d0 d1 H0 H1) as (E0 & _).
  destruct (pack_byte d2 d3 H2 H3) as (E1 & _).
  unfold is_digit in *.
  cbn [Panel.encode_password_loop].
  destruct (divmod10 (10 * (10 * d3 + d2) + d1) d0) as [-> ->]; [lia|].
  destruct (divmod10 (10 * d3 + d2) d1) as [-> ->]; [lia|].
  destruct (divmod10 d3 d2) as [-> ->]; [lia|].
  rewrite (Z.mod_small d3 10) by lia.
  fold (nibble_of_digit d0) (nibble_of_digit d1) (nibble_of_digit d2)
       (nibble_of_digit d3).
  change (Z.of_nat 4 `mod` 2 =? 0) with true.
  change (Z.of_nat 3 `mod` 2 =? 0) with false.
  change (Z.of_nat 2 `mod` 2 =? 0) with true.
  change (Z.of_nat 1 `mod` 2 =? 0) with false.
  rewrite setitem_1. cbn [mbind result_bind].
  rewrite getitem_1. cbn [mbind result_bind].
  rewrite setitem_1. cbn [mbind result_bind].
  change (1 - 1) with 0.
  rewrite setitem_0. cbn [mbind result_bind].
  rewrite getitem_0. cbn [mbind result_bind].
  rewrite setitem_0. cbn [mbind result_bind].
  by rewrite E0, E1.
Qed.

Lemma forallb_impl {A} (f g : A → bool) (l : list A) :
  (∀ x, f x = true → g x = true) → forallb f l = true → forallb g l = true.
Proof.
  intros Hfg. induction l as [|x l IH]; simpl; [done|].
  intros [Hx Hl]%andb_true_iff. rewrite (Hfg x Hx). simpl. auto.
Qed.

Lemma unicode_decimal_ascii c :
  is_decimal c = true → unicode_decimal c = Some (c - 48).
Proof.
  unfold is_decimal. intros Hc.
  assert (c = 48 ∨ c = 49 ∨ c = 50 ∨ c = 51 ∨ c = 52 ∨ c = 53 ∨ c = 54
          ∨ c = 55 ∨ c = 56 ∨ c = 57) as Hcases by lia.
  destruct Hcases as [->|[->|[->|[->|[->|[->|[->|[->|[->| ->]]]]]]]]];
    reflexivity.
Qed.

Lemma digit_value_ascii (o : pyobj) c :
  is_decimal c = true → digit_value o c = Some (c - 48).
Proof.
  intros Hc. destruct o; simpl; rewrite ?Hc; [done| |done].
  by apply unicode_decimal_ascii.
Qed.

Lemma mapM_digit_value (o : pyobj) (cs : list Z) :
  forallb is_decimal cs = true →
  mapM (digit_value o) cs = Some ((λ c, c - 48) <$> cs).
Proof.
  induction cs as [|c cs IH]; [done|]. simpl.
  intros [Hc Hcs]%andb_true_iff.
  by rewrite (digit_value_ascii o c Hc), (IH Hcs).
Qed.

Lemma foldl_digits (cs : list Z) (acc : Z) :
  foldl (λ acc d, 10 * acc + d) acc ((λ c, c - 48) <$> cs)
  = foldl (λ acc c, 10 * acc + (c - 48)) acc cs.
Proof. revert acc. induction cs as [|c cs IH]; intros acc; simpl; auto. Qed.

Lemma isdigit_decimal (o : pyobj) (cs : list Z) :
  codes o = Ok cs → cs ≠ [] → forallb is_decimal cs = true →
  isdigit o = Ok true ∧ int o = Ok (decimal_value cs).
Proof.
  intros Hc Hne Hd.
  assert (int o = Ok (decimal_value cs)) as Hint.
  { unfold int. destruct o as [n|s|b]; [done|..];
      rewrite Hc; cbn [mbind result_bind];
      rewrite (mapM_digit_value _ cs Hd);
      (destruct cs as [|c cs]; [done|]);
      unfold decimal_value; rewrite <- foldl_digits; done. }
  split; [|done].
  destruct o as [n|s|b]; simpl in Hc; [done| |].
  - injection Hc as <-. unfold isdigit.
    rewrite bool_decide_eq_false_2 by done. simpl. f_equal.
    eapply forallb_impl; [|exact Hd].
    intros c Hc. unfold unicode_isdigit.
    by rewrite (unicode_decimal_ascii c Hc).
  - injection Hc as <-. unfold isdigit. simpl.
    rewrite bool_decide_eq_false_2 by done. by rewrite Hd.
Qed.

Lemma is_decimal_digit c : is_decimal c = true → is_digit (c - 48).
Proof. unfold is_decimal, is_digit. lia. Qed.

Lemma password_packing_spec d3 d2 d1 d0 :
  password_packing [d3; d2; d1; d0] =
  [Z.lor (nibble_of_digit d2) (Z.shiftl (nibble_of_digit d3) 4);
   Z.lor (nibble_of_digit d0) (Z.shiftl (nibble_of_digit d1) 4)].
Proof. reflexivity. Qed.

Lemma nibble_of_digit_nonzero d : is_digit d → nibble_of_digit d ≠ 0.
Proof. unfold nibble_of_digit, is_digit. destruct (Z.eqb_spec d 0); lia. Qed.

#[local] Arguments Panel.encode_password_loop : simpl never.

(** C3 (amended).  For every 4-digit decimal password other than the
    no-password value [0000], [encode_password] returns two bytes that
    pack the digits as the specification words it: least significant
    digit first, [0x0A] for the digit 0, the first digit of a pair in the
    low nibble and the second in the high nibble, the byte index
    decreasing; no nibble of the result is zero. *)
Theorem encode_password_packs (password : pyobj) (digits : list Z) :
  password_digits password = Some digits →
  digits ≠ [0; 0; 0; 0] →
  ∃ out, Panel.encode_password (Some password) = Ok out ∧
         length out = 2%nat ∧
         byte_to_Z <$> out = password_packing digits ∧
         Forall (λ b, Z.land b 0xF ≠ 0 ∧ Z.shiftr b 4 ≠ 0) (byte_to_Z <$> out).
Proof.
  unfold password_digits. intros Hd Hnz.
  destruct (codes (Panel.normalize password)) as [cs|] eqn:Hc; [|done].
  destruct (bool_decide (length cs = 4%nat)) eqn:Hl; [|done].
  destruct (forallb is_decimal cs) eqn:Hdec; [|done].
  simpl in Hd. injection Hd as <-.
  apply bool_decide_eq_true in Hl.
  destruct cs as [|c3 [|c2 [|c1 [|c0 [|]]]]]; try done.
  pose proof Hdec as Hdec'. simpl in Hdec'.
  apply andb_true_iff in Hdec' as [H3%is_decimal_digit Hdec'].
  apply andb_true_iff in Hdec' as [H2%is_decimal_digit Hdec'].
  apply andb_true_iff in Hdec' as [H1%is_decimal_digit Hdec'].
  apply andb_true_iff in Hdec' as [H0%is_decimal_digit _].
  destruct (isdigit_decimal _ _ Hc) as [Hisd Hint]; [done|done|].
  destruct (pack_byte (c0 - 48) (c1 - 48) H0 H1) as (_ & Hr0 & Hlo0 & Hhi0).
  destruct (pack_byte (c2 - 48) (c3 - 48) H2 H3) as (_ & Hr1 & Hlo1 & Hhi1).
  destruct (byte_of_Z_Some _ Hr0) as (b0 & Hb0 & Hz0).
  destruct (byte_of_Z_Some _ Hr1) as (b1 & Hb1 & Hz1).
  exists [b1; b0]. unfold Panel.encode_password.
  assert (bool_decide (password ∈ Panel.no_password) = false) as ->.
  { apply bool_decide_eq_false_2. unfold Panel.no_password.
    rewrite !elem_of_cons, elem_of_nil.
    intros [->|[->|[->|[]]]]; vm_compute in Hc; injection Hc as <- <- <- <-;
      by apply Hnz. }
  unfold len. rewrite Hc. cbn [mbind result_bind length].
  rewrite bool_decide_eq_false_2 by (intros Hne; by apply Hne).
  rewrite Hisd. cbn [mbind result_bind negb]. rewrite Hint.
  cbn [mbind result_bind decimal_value foldl].
  replace (10 * (10 * (10 * (10 * 0 + (c3 - 48)) + (c2 - 48)) + (c1 - 48)) + (c0 - 48))
    with (10 * (10 * (10 * (c3 - 48) + (c2 - 48)) + (c1 - 48)) + (c0 - 48)) by lia.
  change (Z.to_nat (Z.min 4 (Z.of_nat 4))) with 4%nat.
  change (Z.min 4 (Z.of_nat 4) `div` 2 - 1) with 1.
  rewrite encode_password_loop_4 by done.
  rewrite password_packing_spec. simpl. unfold to_bytes. simpl.
  rewrite Hb0, Hb1. simpl. rewrite Hz0, Hz1.
  split; [done|]. split; [done|]. split; [done|].
  repeat constructor; rewrite ?Hlo0, ?Hhi0, ?Hlo1, ?Hhi1;
    by apply nibble_of_digit_nonzero.
Qed.

Lemma no_password_codes (password : pyobj) :
  password ∈ Panel.no_password →
  codes (Panel.normalize password) = Ok [48; 48; 48; 48].
Proof.
  unfold Panel.no_password. rewrite !elem_of_cons, elem_of_nil.
  by intros [->|[->|[->|[]]]].
Qed.




(** C6.  [encode_password] maps [None], the integer 0, the string
    ["0000"] and the bytes [b"0000"] to the two zero bytes. *)
Example encode_password_no_password :
  Panel.encode_password None = Ok [x00; x00] ∧
  Panel.encode_password (Some (PyInt 0)) = Ok [x00; x00] ∧
  Panel.encode_password (Some (PyStr "0000")) = Ok [x00; x00] ∧
  Panel.encode_password (Some (PyBytes [x30; x30; x30; x30])) = Ok [x00; x00].
Proof. repeat split. Qed.

(** The password [0000] is four decimal digits, yet its encoding is two
    zero bytes, not the packing [0xAA 0xAA] of its digits. *)
Lemma encode_password_0000_not_packed :
  password_digits (PyStr "0000") = Some [0; 0; 0; 0] ∧
  Panel.encode_password (Some (PyStr "0000")) = Ok [x00; x00] ∧
  password_packing [0; 0; 0; 0] = [0xAA; 0xAA] ∧
  ¬ (∃ out, Panel.encode_password (Some (PyStr "0000")) = Ok out ∧
            byte_to_Z <$> out = password_packing [0; 0; 0; 0]).
Proof.
  repeat split. intros (out & Ho & Hp). vm_compute in Ho. injection Ho as <-.
  vm_compute in Hp. done.
Qed.

Lemma encode_password_packs_witness :
  ∃ out, Panel.encode_password (Some (PyStr "1023")) = Ok out ∧
         length out = 2%nat ∧
         byte_to_Z <$> out = [0x1A; 0x23] ∧
         Forall (λ b, Z.land b 0xF ≠ 0 ∧ Z.shiftr b 4 ≠ 0) (byte_to_Z <$> out).
Proof.
  apply (encode_password_packs (PyStr "1023") [1; 0; 2; 3]).
  - reflexivity.
  - discriminate.
Defined.



(** ** The frames *)

(** C1.  For each of the five handshake frames and for every valid
    combination of its structured fields, encoding gives a frame of 37
    bytes whose decoding returns the same fields, and whose last byte is
    the checksum of its 36 payload bytes (so the frame passes the
    validation of the checksum). *)
Theorem frames_round_trip `{Common} :
  round_trips InitiateCommunication InitiateCommunication_fields
    calculate_checksum ∧
  round_trips InitiateCommunicationResponse InitiateCommunicationResponse_fields
    calculate_checksum ∧
  round_trips StartCommunication StartCommunication_fields
    calculate_checksum ∧
  round_trips StartCommunicationResponse StartCommunicationResponse_fields
    calculate_checksum ∧
  round_trips CloseConnection CloseConnection_fields calculate_checksum.
Proof. repeat split; by apply frame_round_trips. Qed.

Section dispatch.
Context `{Common}.

Lemma byte_at_nat (message : bytes) (k : nat) :
  Panel.byte_at message (Z.of_nat k) =
  match message !! k with
  | Some b => Ok (byte_to_Z b)
  | None => Raise IndexError
  end.
Proof.
  unfold Panel.byte_at, getitem, py_index.
  destruct (Z.ltb_spec (Z.of_nat k) 0); [lia|].
  destruct (Z.leb_spec 0 (Z.of_nat k)); [|lia].
  destruct (Z.ltb_spec (Z.of_nat k) (Z.of_nat (length message))); simpl.
  - rewrite Nat2Z.id. destruct (lookup_lt_is_Some_2 message k) as [b Hb]; [lia|].
    by rewrite Hb.
  - by rewrite (lookup_ge_None_2 message k) by lia.
Qed.

Lemma byte_at_0 (message : bytes) :
  Panel.byte_at message 0 =
  match message !! 0%nat with
  | Some b => Ok (byte_to_Z b)
  | None => Raise IndexError
  end.
Proof. exact (byte_at_nat message 0). Qed.

Lemma byte_at_1 (message : bytes) :
  Panel.byte_at message 1 =
  match message !! 1%nat with
  | Some b => Ok (byte_to_Z b)
  | None => Raise IndexError
  end.
Proof. exact (byte_at_nat message 1). Qed.

Lemma byte_at_4 (message : bytes) :
  Panel.byte_at message 4 =
  match message !! 4%nat with
  | Some b => Ok (byte_to_Z b)
  | None => Raise IndexError
  end.
Proof. exact (byte_at_nat message 4). Qed.

Lemma byte_is_Some (message : bytes) k P :
  byte_is message k P = true →
  ∃ b, message !! k = Some b ∧ P (byte_to_Z b) = true.
Proof.
  unfold byte_is. destruct (message !! k) as [b|]; [|done]. by exists b.
Qed.

Lemma parse_message_classify (message : option bytes) (direction : string) :
  (∀ buffer, message = Some buffer → tests_in_bounds buffer direction) →
  Panel.parse_message message direction = classify_and_parse message direction.
Proof.
  intros Hin. destruct message as [message|]; [|done].
  destruct (Hin message eq_refl) as [Hin1 Hin4].
  destruct message as [|b0 message]; [done|].
  unfold Panel.parse_message, classify_and_parse, classify.
  rewrite decide_False by done.
  rewrite !byte_at_0, !byte_at_1, !byte_at_4.
  unfold byte_is in *. cbn [lookup list_lookup] in *.
  cbn [mbind result_bind].
  rewrite (Z.eqb_sym 114 (byte_to_Z b0)) in Hin1.
  rewrite (Z.eqb_sym 0 (byte_to_Z b0)) in Hin4.
  destruct (decide (direction = "topanel")) as [->|Hdir].
  - rewrite (Z.eqb_sym 114 (byte_to_Z b0)), (Z.eqb_sym 95 (byte_to_Z b0)).
    destruct (byte_to_Z b0 =? 114) eqn:E72; cbn [mbind result_bind andb].
    + specialize (Hin1 eq_refl).
      destruct message as [|b1 message]; [simpl in Hin1; lia|].
      cbn [lookup list_lookup mbind result_bind].
      rewrite (Z.eqb_sym 0 (byte_to_Z b1)).
      destruct (byte_to_Z b1 =? 0); [done|].
      apply Z.eqb_eq in E72. rewrite E72. done.
    + destruct (byte_to_Z b0 =? 95); done.
  - rewrite (Z.eqb_sym 114 (byte_to_Z b0)), (Z.eqb_sym 0 (byte_to_Z b0)).
    destruct (byte_to_Z b0 =? 114) eqn:E72; cbn [mbind result_bind andb].
    + specialize (Hin1 eq_refl).
      destruct message as [|b1 message]; [simpl in Hin1; lia|].
      cbn [lookup list_lookup mbind result_bind].
      rewrite (Z.eqb_sym 255 (byte_to_Z b1)).
      destruct (byte_to_Z b1 =? 255); [done|].
      apply Z.eqb_eq in E72. rewrite E72. done.
    + destruct (byte_to_Z b0 =? 0) eqn:E0; cbn [mbind result_bind andb]; [|done].
      destruct message as [|b1 [|b2 [|b3 [|b4 message]]]];
        try (specialize (Hin4 Hdir eq_refl); simpl in Hin4; lia).
      cbn [lookup list_lookup mbind result_bind].
      destruct (0 <? byte_to_Z b4); done.
Qed.
(** C2 (amended).  [parse_message] classifies as the specification words
    it (per direction and leading bytes, [None] for a buffer that is
    [None] or empty and for one that matches no frame), provided the
    bytes the classification tests are in the buffer: byte 1 when byte 0
    is [0x72], and byte 4 when the direction is not [topanel] and byte 0
    is [0x00]. *)
Theorem parse_message_classifies (message : option bytes) (direction : string) :
  (∀ buffer, message = Some buffer → tests_in_bounds buffer direction) →
  Panel.parse_message message direction = classify_and_parse message direction.
Proof. apply parse_message_classify. Qed.

End dispatch.

Section dispatch_claims.
Context `{Common}.

(** C10.  [parse_message] reads byte 1 whenever byte 0 is [0x72], and
    byte 4 whenever the direction is not [topanel] and byte 0 is [0x00],
    without looking at the length first: on a buffer that is not empty
    and too short for the byte read, the call raises [IndexError]. *)
Theorem parse_message_IndexError (message : bytes) (direction : string) :
  (byte_is message 0 (Z.eqb 0x72) = true ∧ (length message < 2)%nat) ∨
  (direction ≠ "topanel" ∧ byte_is message 0 (Z.eqb 0x00) = true ∧
   (length message < 5)%nat) →
  Panel.parse_message (Some message) direction = Raise IndexError.
Proof.
  intros Hshort. destruct message as [|b0 message].
  { by destruct Hshort as [[? _]|(_ & ? & _)]. }
  unfold Panel.parse_message. rewrite decide_False by done.
  rewrite !byte_at_0, !byte_at_1, !byte_at_4.
  unfold byte_is in Hshort. cbn [lookup list_lookup] in *.
  cbn [mbind result_bind].
  rewrite (Z.eqb_sym 114 (byte_to_Z b0)), (Z.eqb_sym 0 (byte_to_Z b0)) in Hshort.
  destruct Hshort as [[E72 Hl]|(Hdir & E0 & Hl)].
  - rewrite E72. destruct message; [|simpl in Hl; lia].
    by destruct (decide (direction = "topanel")).
  - rewrite decide_False by done. rewrite E0.
    apply Z.eqb_eq in E0. rewrite E0. cbn [Z.eqb mbind result_bind].
    destruct message as [|b1 [|b2 [|b3 [|b4 message]]]];
      try done. simpl in Hl. lia.
Qed.

(** C9 (amended).  For a direction other than [topanel], every buffer
    whose byte 0 is [0x00] (command nibble and the four status flags all
    zero) and whose byte 4 is greater than 0 is parsed as a
    [StartCommunicationResponse]; a buffer whose byte 0 has the command
    nibble 0 and a status flag set yields [None], and no buffer whose
    byte 0 is not [0x00] is returned as a [StartCommunicationResponse]. *)
Theorem parse_message_StartCommunicationResponse (message : bytes)
    (direction : string) :
  direction ≠ "topanel" →
  (byte_is message 0 (Z.eqb 0x00) = true →
   byte_is message 4 (Z.ltb 0) = true →
   Panel.parse_message (Some message) direction =
   Some ∘ Panel.IsStartCommunicationResponse
     <$> parse StartCommunicationResponse message) ∧
  (byte_is message 0 (λ b, (0 <? b) && (b <? 16)) = true →
   Panel.parse_message (Some message) direction = Ok None) ∧
  (byte_is message 0 (Z.eqb 0x00) = false →
   ∀ c, Panel.parse_message (Some message) direction
        ≠ Ok (Some (Panel.IsStartCommunicationResponse c))).
Proof.
  intros Hdir. split; [|split].
  - intros E0 E4.
    rewrite parse_message_classify.
    + destruct message as [|b0 message]; [done|].
      unfold classify_and_parse, classify. rewrite decide_False by done.
      rewrite E0, E4.
      unfold byte_is in *. cbn [lookup list_lookup] in *.
      apply Z.eqb_eq in E0. by rewrite <- E0.
    + intros ? [= <-]. split.
      * unfold byte_is in *. destruct (message !! 0%nat) as [b|]; [|done].
        apply Z.eqb_eq in E0. rewrite <- E0. done.
      * intros _ _. apply byte_is_Some in E4 as (b & Hb & _).
        apply lookup_lt_Some in Hb. lia.
  - intros E0. apply byte_is_Some in E0 as (b0 & Hb0 & Hb).
    destruct message as [|b0' message]; [done|]. injection Hb0 as ->.
    unfold Panel.parse_message. rewrite decide_False by done.
    rewrite decide_False by done. rewrite !byte_at_0.
    cbn [lookup list_lookup mbind result_bind].
    destruct (Z.eqb_spec (byte_to_Z b0) 114) as [E|_]; [lia|].
    cbn [mbind result_bind].
    destruct (Z.eqb_spec (byte_to_Z b0) 0) as [E|_]; [lia|]. done.
  - intros E0 c.
    destruct message as [|b0 message]; [done|].
    unfold byte_is in E0. cbn [lookup list_lookup] in E0.
    rewrite Z.eqb_sym in E0.
    unfold Panel.parse_message. rewrite decide_False by done.
    rewrite decide_False by done. rewrite !byte_at_0.
    cbn [lookup list_lookup mbind result_bind]. rewrite E0.
    destruct (byte_to_Z b0 =? 114); cbn [mbind result_bind]; [|done].
    destruct (Panel.byte_at (b0 :: message) 1) as [m1|]; [|done].
    cbn [mbind result_bind]. destruct (m1 =? 255); [|done].
    by destruct (parse InitiateCommunicationResponse (b0 :: message)).
Qed.

Lemma classify_in_bounds (message : bytes) (direction : string) t :
  classify message direction = Some t → tests_in_bounds message direction.
Proof.
  unfold classify, tests_in_bounds. intros Hc. split.
  - intros E72. rewrite E72 in Hc.
    assert (byte_is message 0 (Z.eqb 0x5F) = false) as E5F.
    { unfold byte_is in *. destruct (message !! 0%nat); [|done].
      apply Z.eqb_eq in E72. by rewrite <- E72. }
    assert (byte_is message 0 (Z.eqb 0x00) = false) as E00.
    { unfold byte_is in *. destruct (message !! 0%nat); [|done].
      apply Z.eqb_eq in E72. by rewrite <- E72. }
    rewrite E5F, E00 in Hc. simpl in Hc.
    destruct (decide (direction = "topanel")).
    + destruct (byte_is message 1 (Z.eqb 0)) eqn:E1; [|done].
      apply byte_is_Some in E1 as (b & Hb & _).
      apply lookup_lt_Some in Hb. lia.
    + destruct (byte_is message 1 (Z.eqb 255)) eqn:E1; [|done].
      apply byte_is_Some in E1 as (b & Hb & _).
      apply lookup_lt_Some in Hb. lia.
  - intros Hdir E0. rewrite decide_False in Hc by done. rewrite E0 in Hc.
    assert (byte_is message 0 (Z.eqb 0x72) = false) as E72.
    { unfold byte_is in *. destruct (message !! 0%nat); [|done].
      apply Z.eqb_eq in E0. by rewrite <- E0. }
    rewrite E72 in Hc. simpl in Hc.
    destruct (byte_is message 4 (Z.ltb 0)) eqn:E4; [|done].
    apply byte_is_Some in E4 as (b & Hb & _).
    apply lookup_lt_Some in Hb. lia.
Qed.

Lemma raises_fmap {A B} (f : A → B) (m : result A) : raises m → raises (f <$> m).
Proof. intros [e ->]. by exists e. Qed.

(** C4.  A frame whose byte 36 is not the checksum of its first 36
    bytes is rejected by each of the five frame parsers with an
    exception.  Through [parse_message], a buffer with such a checksum
    raises when its leading bytes match a frame type, which differs from
    the [None] returned when they match none. *)
Theorem wrong_checksum_rejected (message : bytes) :
  message !! 36%nat ≠ Some (calculate_checksum (take 36 message)) →
  raises (parse InitiateCommunication message) ∧
  raises (parse InitiateCommunicationResponse message) ∧
  raises (parse StartCommunication message) ∧
  raises (parse StartCommunicationResponse message) ∧
  raises (parse CloseConnection message) ∧
  ∀ direction,
    (classify message direction ≠ None →
     raises (Panel.parse_message (Some message) direction) ∧
     Panel.parse_message (Some message) direction ≠ Ok None) ∧
    (classify message direction = None →
     tests_in_bounds message direction →
     Panel.parse_message (Some message) direction = Ok None).
Proof.
  intros Hck.
  assert (raises (parse InitiateCommunication message)) as H1
    by (by apply (frame_parse_checksum InitiateCommunication_fields)).
  assert (raises (parse InitiateCommunicationResponse message)) as H2
    by (by apply (frame_parse_checksum InitiateCommunicationResponse_fields)).
  assert (raises (parse StartCommunication message)) as H3
    by (by apply (frame_parse_checksum StartCommunication_fields)).
  assert (raises (parse StartCommunicationResponse message)) as H4
    by (by apply (frame_parse_checksum StartCommunicationResponse_fields)).
  assert (raises (parse CloseConnection message)) as H5
    by (by apply (frame_parse_checksum CloseConnection_fields)).
  do 5 (split; [done|]).
  intros direction. split; last first.
  { intros Hnone Hin.
    rewrite parse_message_classify by (by intros ? [= <-]).
    unfold classify_and_parse. rewrite Hnone. by destruct message. }
  intros Hc.
  destruct (classify message direction) as [t|] eqn:Ht; [|done].
  assert (raises (Panel.parse_message (Some message) direction)) as Hr.
  { rewrite parse_message_classify
      by (intros ? [= <-]; by eapply classify_in_bounds).
    destruct message as [|b0 message].
    { unfold classify, byte_is in Ht. simpl in Ht. by case_decide. }
    unfold classify_and_parse. rewrite Ht.
    destruct t; by apply raises_fmap. }
  split; [done|]. destruct Hr as [e ->]. done.
Qed.
End dispatch_claims.

(** ** Label loading *)

Section dict.
Context {K V : Type} `{EqDecision K}.

Lemma dict_get_setitem (k k' : K) (v : V) (d : dict K V) :
  dict_get k' (dict_setitem k v d) =
  if decide (k = k') then Some v else dict_get k' d.
Proof.
  induction d as [|[k0 v0] d IH]; simpl.
  - done.
  - destruct (decide (k0 = k)) as [->|Hne]; simpl.
    + by destruct (decide (k = k')).
    + rewrite IH. destruct (decide (k0 = k')) as [->|]; [|done].
      by rewrite decide_False by done.
Qed.

Lemma dict_get_setitem_eq (k : K) (v : V) (d : dict K V) :
  dict_get k (dict_setitem k v d) = Some v.
Proof. rewrite dict_get_setitem. by rewrite decide_True. Qed.

Lemma dict_get_setitem_ne (k k' : K) (v : V) (d : dict K V) :
  k ≠ k' → dict_get k' (dict_setitem k v d) = dict_get k' d.
Proof. intros. rewrite dict_get_setitem. by rewrite decide_False. Qed.

End dict.

Section labels.
Context `{Externals} {W MessageSpec : Type}.
Context (self : PanelObj W MessageSpec) (spec : MessageSpec).
Context (Hspec : get_message self "ReadEEPROM" = Ok spec).

Lemma _load_labels_loads field_length label_offset template s pre s1 post :
  loads self spec field_length label_offset template s pre s1 →
  Panel._load_labels self s.1.1 (pre ++ post) field_length label_offset
    (Some template) s.1.2 s.2 =
  Panel._load_labels self s1.1.1 post field_length label_offset
    (Some template) s1.1.2 s1.2.
Proof.
  induction 1 as [s|d w0 log0 index address addresses reply w' label log' s'
                    Hsend Hlabel Hl IH]; [done|].
  simpl in *. by rewrite Hspec, Hsend, Hlabel.
Qed.

Lemma loads_stored field_length label_offset template s pre s1 :
  loads self spec field_length label_offset template s pre s1 →
  (∀ i, i ∈ pre.*1 → is_Some (dict_get i s1.1.1)) ∧
  (∀ j, j ∉ pre.*1 → dict_get j s1.1.1 = dict_get j s.1.1).
Proof.
  induction 1 as [s|d w0 log0 index address addresses reply w' label log' s' Hsend Hlabel Hl [IH1 IH2]];
    simpl in *.
  - split; [|done]. intros i Hi. by apply elem_of_nil in Hi.
  - split.
    + intros i Hi. apply elem_of_cons in Hi.
      destruct (decide (i ∈ addresses.*1)) as [Hin|Hnin]; [by apply IH1|].
      destruct Hi as [->|?]; [|done].
      rewrite IH2 by done. rewrite dict_get_setitem_eq. by eexists.
    + intros j Hj. apply not_elem_of_cons in Hj as [Hne Hj].
      rewrite IH2 by done. by rewrite dict_get_setitem_ne.
Qed.

Lemma load_labels_loop_keeps elements :
  ∀ data w log data' w' log',
    Panel.load_labels_loop self elements data w log = (Ok data', w', log') →
    ∀ k, k ∉ elements.*1 → dict_get k data' = dict_get k data.
Proof.
  induction elements as [|[elem_type elem_def] elements IH];
    intros data w log data' w' log' Hrun k Hk.
  - simpl in Hrun. by injection Hrun as -> _ _.
  - simpl in Hrun, Hk. apply not_elem_of_cons in Hk as [Hne Hk].
    destruct (Panel._load_labels _ _ _ _ _ _ _ _) as [[[r d] w1] log1].
    destruct r; [|done].
    destruct (Panel.join_labels d); [|done].
    rewrite (IH _ _ _ _ _ _ Hrun k Hk).
    by rewrite dict_get_setitem_ne.
Qed.

Lemma load_labels_loop_cons elem_type elem_def elements data w log :
  Panel.load_labels_loop self ((elem_type, elem_def) :: elements) data w log =
  let '(r, data_dict, w, log) :=
    Panel._load_labels self (default [] (dict_get elem_type data))
      (Panel.category_addresses elem_type elem_def) 16 (label_offset elem_def)
      None w log in
  match r with
  | Raise e => (Raise e, w, log)
  | Ok _ =>
      match Panel.join_labels data_dict with
      | Raise e => (Raise e, w, log)
      | Ok labels =>
          Panel.load_labels_loop self elements
            (dict_setitem elem_type data_dict data) w
            (log ++ [Log INFO "{}: {}"
                       [PyStr (title elem_type); PyStr labels] None])
      end
  end.
Proof. reflexivity. Qed.

(** C5.  When the transport has answered the pairs [pre] of a category
    and returns no reply for the next pair, the loading of the category
    stops without raising: the entries of [pre] are in the dict, the
    indices outside [pre] (the missed one and those after it) are as
    they were before, an error is logged, and [load_labels] goes on with
    the remaining categories, keeping this category's entries and the
    dicts of the other categories in its result. *)
Theorem load_labels_miss elem_type elem_def elements data w log
    pre index address post data_dict1 w1 log1 w2 :
  let data_dict := default [] (dict_get elem_type data) in
  let error := Log ERROR "Could not fully load labels" [] None in
  Panel.category_addresses elem_type elem_def = pre ++ (index, address) :: post →
  loads self spec 16 (label_offset elem_def) ∅
    (data_dict, w, log) pre (data_dict1, w1, log1) →
  send_wait self spec {| args_address := address; args_length := 16 |}
    (Panel.reply_expected address) w1 = (None, w2) →
  Panel._load_labels self data_dict (pre ++ (index, address) :: post) 16
    (label_offset elem_def) None w log = (Ok (), data_dict1, w2, log1 ++ [error]) ∧
  (∀ i, i ∈ pre.*1 → is_Some (dict_get i data_dict1)) ∧
  (∀ j, j ∉ pre.*1 → dict_get j data_dict1 = dict_get j data_dict) ∧
  Panel.load_labels_loop self ((elem_type, elem_def) :: elements) data w log =
    match Panel.join_labels data_dict1 with
    | Ok labels =>
        Panel.load_labels_loop self elements
          (dict_setitem elem_type data_dict1 data) w2
          (log1 ++ [error; Log INFO "{}: {}"
                             [PyStr (title elem_type); PyStr labels] None])
    | Raise e => (Raise e, w2, log1 ++ [error])
    end ∧
  (∀ data' w' log',
     Panel.load_labels_loop self ((elem_type, elem_def) :: elements) data w log
       = (Ok data', w', log') →
     dict_get elem_type data' = Some data_dict1 ∨ elem_type ∈ elements.*1) ∧
  (∀ data' w' log',
     Panel.load_labels_loop self ((elem_type, elem_def) :: elements) data w log
       = (Ok data', w', log') →
     ∀ k, k ≠ elem_type → k ∉ elements.*1 → dict_get k data' = dict_get k data).
Proof.
  intros data_dict error Haddr Hloads Hmiss. subst data_dict.
  assert (Panel._load_labels self (default [] (dict_get elem_type data))
            (pre ++ (index, address) :: post)
            16 (label_offset elem_def) None w log =
          (Ok (), data_dict1, w2, log1 ++ [error])) as Hrun.
  { change None with (@None Properties).
    transitivity (Panel._load_labels self (default [] (dict_get elem_type data))
                    (pre ++ (index, address) :: post) 16 (label_offset elem_def)
                    (Some ∅) w log).
    { by destruct pre as [|[]]. }
    pose proof (_load_labels_loads _ _ _ _ _ _ ((index, address) :: post) Hloads)
      as Hpre.
    simpl in Hpre. rewrite Hpre. simpl. by rewrite Hspec, Hmiss. }
  destruct (loads_stored _ _ _ _ _ _ Hloads) as [Hin Hout]. simpl in Hin, Hout.
  assert (Panel.load_labels_loop self ((elem_type, elem_def) :: elements) data w log =
    match Panel.join_labels data_dict1 with
    | Ok labels =>
        Panel.load_labels_loop self elements
          (dict_setitem elem_type data_dict1 data) w2
          (log1 ++ [error; Log INFO "{}: {}"
                             [PyStr (title elem_type); PyStr labels] None])
    | Raise e => (Raise e, w2, log1 ++ [error])
    end) as Hstep.
  { rewrite load_labels_loop_cons, Haddr, Hrun.
    destruct (Panel.join_labels data_dict1); [|done].
    by rewrite <- app_assoc. }
  do 4 (split; [done|]). split.
  - intros data' w' log' Hok. rewrite Hstep in Hok.
    destruct (Panel.join_labels data_dict1); [|done].
    destruct (decide (elem_type ∈ elements.*1)) as [|Hnin]; [by right|left].
    rewrite (load_labels_loop_keeps _ _ _ _ _ _ _ Hok _ Hnin).
    apply dict_get_setitem_eq.
  - intros data' w' log' Hok k Hne Hk.
    apply (load_labels_loop_keeps _ _ _ _ _ _ _ Hok).
    apply not_elem_of_cons. done.
Qed.

End labels.

(** ** Status dispatch *)

(** C8.  [handle_status] returns [None] and logs an error when the
    address of the message has no parser, returns [None] and logs the
    exception when the parser raises, returns the parsed object when the
    parser succeeds, and never raises. *)
Theorem handle_status_outcomes {A} (message : StatusMessage)
    (parser_map : gmap Z (Construct byte A)) (log : list LogRecord) :
  (parser_map !! status_address message = None →
   Panel.handle_status message parser_map log =
   (Ok None,
    log ++ [Log ERROR
      "Parser for memory address ({}) is not implemented. Please review your STATUS_REQUESTS setting. Skipping."
      [PyInt (status_address message)] None])) ∧
  (∀ parser e,
     parser_map !! status_address message = Some parser →
     parse parser (status_data message) = Raise e →
     Panel.handle_status message parser_map log =
     (Ok None,
      log ++ [Log ERROR "Unable to parse RAM Status Block ({})"
                [PyInt (status_address message)] (Some e)])) ∧
  (∀ parser obj,
     parser_map !! status_address message = Some parser →
     parse parser (status_data message) = Ok obj →
     Panel.handle_status message parser_map log = (Ok (Some obj), log)) ∧
  ¬ raises (Panel.handle_status message parser_map log).1.
Proof.
  unfold Panel.handle_status. repeat split.
  - by intros ->.
  - by intros parser e -> ->.
  - by intros parser obj -> ->.
  - intros [e He]. destruct (parser_map !! status_address message) as [parser|];
      [|done].
    by destruct (parse parser (status_data message)).
Qed.

(** ** Evaluation on the instances *)

Section evaluation.

#[local] Existing Instance sample_common.

Lemma frames_round_trip_witness :
  (∃ message,
     encode InitiateCommunication
       sample_InitiateCommunication = Ok message ∧
     length message = 37%nat ∧
     decode InitiateCommunication message = Ok sample_InitiateCommunication ∧
     message !! 36%nat = Some (sum_checksum (take 36 message))) ∧
  (∃ message,
     encode InitiateCommunicationResponse
       sample_InitiateCommunicationResponse = Ok message ∧
     length message = 37%nat ∧
     decode InitiateCommunicationResponse message
       = Ok sample_InitiateCommunicationResponse ∧
     message !! 36%nat = Some (sum_checksum (take 36 message))) ∧
  (∃ message,
     encode StartCommunication
       sample_StartCommunication = Ok message ∧
     length message = 37%nat ∧
     decode StartCommunication message = Ok sample_StartCommunication ∧
     message !! 36%nat = Some (sum_checksum (take 36 message))) ∧
  (∃ message,
     encode StartCommunicationResponse
       sample_StartCommunicationResponse = Ok message ∧
     length message = 37%nat ∧
     decode StartCommunicationResponse message
       = Ok sample_StartCommunicationResponse ∧
     message !! 36%nat = Some (sum_checksum (take 36 message))) ∧
  (∃ message,
     encode CloseConnection
       sample_CloseConnection = Ok message ∧
     length message = 37%nat ∧
     decode CloseConnection message = Ok sample_CloseConnection ∧
     message !! 36%nat = Some (sum_checksum (take 36 message))).
Proof.
  destruct (frames_round_trip) as (H1 & H2 & H3 & H4 & H5).
  split; [apply H1; reflexivity|].
  split; [apply H2; reflexivity|].
  split; [apply H3; reflexivity|].
  split; [apply H4; reflexivity|].
  apply H5; reflexivity.
Defined.

(** On the one-byte buffer [0x72] the specification's classification
    gives [None]; the code raises [IndexError]. *)
Lemma parse_message_short_buffer :
  classify_and_parse (Some [x72]) "topanel" = Ok None ∧
  Panel.parse_message (Some [x72]) "topanel"
    = Raise IndexError ∧
  Panel.parse_message (Some [x72]) "topanel"
    ≠ classify_and_parse (Some [x72]) "topanel".
Proof. repeat split. discriminate. Qed.

Lemma parse_message_classifies_witness :
  Panel.parse_message (Some (sample_frame x72)) "topanel"
  = classify_and_parse (Some (sample_frame x72)) "topanel".
Proof.
  apply (parse_message_classifies).
  intros buffer [= <-]. split.
  - intros _. simpl. lia.
  - intros Hdir. by destruct Hdir.
Defined.

Lemma wrong_checksum_rejected_witness :
  raises (parse InitiateCommunication (sample_frame x00)) ∧
  raises (Panel.parse_message
            (Some (sample_frame x00)) "topanel") ∧
  Panel.parse_message (Some (sample_frame x00)) "topanel"
    ≠ Ok None.
Proof.
  destruct (wrong_checksum_rejected (sample_frame x00))
    as (H1 & _ & _ & _ & _ & Hm).
  - vm_compute. discriminate.
  - split; [exact H1|]. apply (Hm "topanel"). vm_compute. discriminate.
Defined.

(** A frame from the panel whose byte 0 has a zero high nibble and a
    status flag set, whose byte 4 is 5 and whose checksum is right, is a
    frame that [StartCommunicationResponse] parses; [parse_message] does
    not parse it: the result is [None]. *)
Lemma parse_message_status_nibble :
  Z.shiftr (byte_to_Z x01) 4 = 0 ∧
  byte_is sample_status_frame 4 (Z.ltb 0) = true ∧
  (∃ c, parse StartCommunicationResponse sample_status_frame = Ok c) ∧
  Panel.parse_message (Some sample_status_frame) "frompanel"
    = Ok None ∧
  Panel.parse_message (Some sample_status_frame) "frompanel"
    ≠ (Some ∘ Panel.IsStartCommunicationResponse
         <$> parse StartCommunicationResponse
               sample_status_frame).
Proof.
  split_and!; [reflexivity|reflexivity| |reflexivity|].
  - eexists. vm_compute. reflexivity.
  - vm_compute. discriminate.
Qed.

Lemma parse_message_StartCommunicationResponse_witness :
  Panel.parse_message (Some sample_response_frame) "frompanel"
    = Ok (Some (Panel.IsStartCommunicationResponse
                  sample_parsed_StartCommunicationResponse)) ∧
  Panel.parse_message (Some sample_status_frame) "frompanel" = Ok None ∧
  ∀ c, Panel.parse_message (Some sample_status_frame) "frompanel"
       ≠ Ok (Some (Panel.IsStartCommunicationResponse c)).
Proof.
  destruct (parse_message_StartCommunicationResponse
              sample_response_frame "frompanel") as (Hparsed & _ & _);
    [discriminate|].
  destruct (parse_message_StartCommunicationResponse
              sample_status_frame "frompanel") as (_ & Hnone & Hnever);
    [discriminate|].
  split; [|split].
  - rewrite Hparsed by reflexivity. vm_compute. reflexivity.
  - apply Hnone. reflexivity.
  - apply Hnever. reflexivity.
Defined.

Lemma parse_message_IndexError_witness :
  Panel.parse_message (Some [x72]) "topanel"
    = Raise IndexError ∧
  Panel.parse_message (Some [x72]) "frompanel"
    = Raise IndexError ∧
  Panel.parse_message (Some [x00; x00; x00; x05]) "frompanel"
    = Raise IndexError.
Proof.
  split; [|split].
  - apply (parse_message_IndexError).
    left. split; [reflexivity|simpl; lia].
  - apply (parse_message_IndexError).
    left. split; [reflexivity|simpl; lia].
  - apply (parse_message_IndexError).
    right. split; [discriminate|]. split; [reflexivity|simpl; lia].
Defined.

Lemma handle_status_outcomes_witness :
  Panel.handle_status {| status_address := 2; status_data := [x05] |}
    sample_parser_map [] =
  (Ok None,
   [Log ERROR
      "Parser for memory address ({}) is not implemented. Please review your STATUS_REQUESTS setting. Skipping."
      [PyInt 2] None]) ∧
  Panel.handle_status {| status_address := 1; status_data := [] |}
    sample_parser_map [] =
  (Ok None,
   [Log ERROR "Unable to parse RAM Status Block ({})" [PyInt 1]
      (Some StreamError)]) ∧
  Panel.handle_status {| status_address := 1; status_data := [x05] |}
    sample_parser_map [] = (Ok (Some 5), []).
Proof.
  split; [|split].
  - destruct (handle_status_outcomes
                {| status_address := 2; status_data := [x05] |}
                sample_parser_map []) as (Habsent & _).
    apply Habsent. reflexivity.
  - destruct (handle_status_outcomes
                {| status_address := 1; status_data := [] |}
                sample_parser_map []) as (_ & Hraise & _).
    apply (Hraise Int8ub StreamError); reflexivity.
  - destruct (handle_status_outcomes
                {| status_address := 1; status_data := [x05] |}
                sample_parser_map []) as (_ & _ & Hparsed & _).
    apply (Hparsed Int8ub 5); reflexivity.
Defined.

#[local] Existing Instance sample_externals.

Lemma load_labels_miss_witness :
  let log := [Log INFO "Updating Labels from Panel" [] None] in
  let error := Log ERROR "Could not fully load labels" [] None in
  let zone := [(1, Panel.properties_of ∅ 1 "Front door")] in
  Panel._load_labels sample_panel [] [(1, 1); (2, 2); (3, 3)] 16 0 None () log
    = (Ok (), zone, (), log ++ [error]) ∧
  is_Some (dict_get 1 zone) ∧
  dict_get 2 zone = None ∧
  dict_get 3 zone = None ∧
  Panel.load_labels sample_panel () [] =
    (Ok [("zone", zone)], (),
     log ++ [error;
             Log INFO "{}: {}" [PyStr "zone"; PyStr "Front door"] None]).
Proof.
  intros log error zone.
  destruct (load_labels_miss sample_panel () eq_refl "zone"
              {| addresses := [[1; 2; 3]]; label_offset := 0 |} [] [] () log
              [(1, 1)] 2 2 [(3, 3)] zone () log ())
    as (Hrun & Hin & Hout & Hstep & _).
  - reflexivity.
  - eapply loads_cons; [reflexivity|reflexivity|apply loads_nil].
  - reflexivity.
  - split; [exact Hrun|]. split; [apply Hin; by apply list_elem_of_singleton|].
    split; [apply (Hout 2); by intros [=]%list_elem_of_singleton|].
    split; [apply (Hout 3); by intros [=]%list_elem_of_singleton|].
    exact Hstep.
Defined.

End evaluation.

(** * Further properties of the code *)

(** ** Frames: what a parse returns *)

Section frame_parsed.
Context {A : Type} (fields_con : Construct byte A) `{!Lawful fields_con}.
Context (hash : bytes → byte).

Let X := Struct("fields" / RawCopy fields_con,
                "checksum" / Checksum (Bytes 1) (λ data, [hash data])
                                      this_fields_data).

Lemma frame_parse_inv (message : bytes) obj :
  parse X message = Ok obj →
  let n := _sizeof fields_con in
  ∃ fields,
    _parse fields_con (root X) message = Ok (fields, drop n message) ∧
    (n < length message)%nat ∧
    message !! n = Some (hash (take n message)) ∧
    obj = Container({| data := Some (take n message); value := Some fields;
                       offset1 := Some 0; offset2 := Some (Z.of_nat n);
                       raw_length := Some (Z.of_nat n) |},
                    Some [hash (take n message)]).
Proof.
  unfold parse. simpl. intros Hp.
  destruct (_parse fields_con (root X) message) as [[fields stream]|e] eqn:Hf;
    [|done].
  pose proof Hf as Hf'.
  apply (parse_sizeof fields_con) in Hf' as [Hl ->]. simpl in Hp.
  rewrite length_drop in Hp.
  replace (Z.to_nat (0 + Z.of_nat (length message - (length message - _sizeof fields_con)) - 0))
    with (_sizeof fields_con) in Hp by lia.
  rewrite stream_read_take in Hp by done. simpl in Hp.
  destruct (stream_read (drop (_sizeof fields_con) message) 1)
    as [[hash1 stream]|e] eqn:Hr; [|done].
  apply stream_read_Ok in Hr as (Hl1 & -> & ->). simpl in Hp.
  rewrite length_drop in Hl1.
  case_decide as Hne; [done|]. simpl in Hp. injection Hp as <-.
  exists fields. split; [done|]. split; [lia|].
  assert (message !! _sizeof fields_con
          = Some (hash (take (_sizeof fields_con) message))) as Hck.
  { rewrite <- (take_drop (_sizeof fields_con) message) at 1.
    rewrite lookup_app_r by (rewrite length_take; lia).
    rewrite length_take, Nat.min_l, Nat.sub_diag by lia.
    destruct (drop (_sizeof fields_con) message) as [|b ?]; [done|].
    simpl in Hne. by injection Hne as ->. }
  split; [done|]. rewrite Hne.
  repeat f_equal; lia.
Qed.

Lemma frame_rebuild (message : bytes) obj :
  parse X message = Ok obj →
  build X obj = Ok (take (S (_sizeof fields_con)) message).
Proof.
  intros Hp. apply frame_parse_inv in Hp as (fields & _ & Hl & Hck & ->).
  unfold build. simpl.
  rewrite (take_S_r _ _ _ Hck). done.
Qed.

Lemma frame_parse_intro (message : bytes) fields :
  let n := _sizeof fields_con in
  _parse fields_con (root X) message = Ok (fields, drop n message) →
  (n < length message)%nat →
  message !! n = Some (hash (take n message)) →
  parse X message =
    Ok (Container({| data := Some (take n message); value := Some fields;
                     offset1 := Some 0; offset2 := Some (Z.of_nat n);
                     raw_length := Some (Z.of_nat n) |},
                  Some [hash (take n message)])).
Proof.
  intros n Hf Hl Hck. unfold parse. simpl. fold n. rewrite Hf. simpl.
  rewrite length_drop.
  replace (Z.to_nat (0 + Z.of_nat (length message - (length message - n)) - 0))
    with n by lia.
  rewrite stream_read_take by lia. simpl.
  rewrite stream_read_take by (rewrite length_drop; lia). simpl.
  assert (take 1 (drop n message) = [hash (take n message)]) as Hne.
  { rewrite <- (take_drop n message) in Hck at 1.
    rewrite lookup_app_r in Hck by (rewrite length_take; lia).
    rewrite length_take, Nat.min_l, Nat.sub_diag in Hck by lia.
    destruct (drop n message) as [|b ?]; [done|].
    simpl in Hck. by injection Hck as ->. }
  rewrite decide_False by (intros Hx; by apply Hx). simpl.
  rewrite Hne. repeat f_equal; lia.
Qed.

End frame_parsed.

Section frames_parsed.
Context `{Common}.

Lemma stream_read_cons {U} (b : U) (stream : list U) :
  stream_read (b :: stream) 1 = Ok ([b], stream).
Proof.
  unfold stream_read. rewrite decide_True by (simpl; lia).
  simpl. by rewrite take_0, drop_0.
Qed.

Lemma command_7_2_parse ctx (b : byte) (stream : bytes) :
  _parse (BitStruct("command" / Const 7 Nibble, "reserved0" / Const 2 Nibble))
    ctx (b :: stream) =
  if decide (b = x72) then Ok (Container(Some 7, Some 2), stream)
  else Raise ConstError.
Proof.
  cbn -[stream_read]. rewrite stream_read_cons.
  destruct b; vm_compute; reflexivity.
Qed.

#[local] Arguments Bitwise : simpl never.
#[local] Arguments Padding : simpl never.

Lemma Padding_parse ctx size (stream : bytes) :
  _parse (Padding size) ctx stream =
  if decide (size ≤ length stream)%nat then Ok ((), drop size stream)
  else Raise StreamError.
Proof. unfold Padding, stream_read. simpl. by case_decide. Qed.

Lemma InitiateCommunication_fields_parse ctx (b : byte) (stream : bytes) :
  _parse InitiateCommunication_fields ctx (b :: stream) =
  if decide (b = x72) then
    if decide (35 ≤ length stream)%nat
    then Ok (Container(Container(Some 7, Some 2), ()), drop 35 stream)
    else Raise StreamError
  else Raise ConstError.
Proof.
  unfold InitiateCommunication_fields.
  cbn [_parse Struct_cons Struct_nil rn_subcon rn_name].
  rewrite command_7_2_parse. case_decide; [|done].
  cbn [mbind result_bind]. rewrite Padding_parse. by case_decide.
Qed.
End frames_parsed.

Lemma frame_parsed_raw {A} (fields_con : Construct byte A)
    `{!Lawful fields_con} (hash : bytes → byte) :
  _sizeof fields_con = 36%nat →
  parsed_raw (Struct("fields" / RawCopy fields_con,
                     "checksum" / Checksum (Bytes 1) (λ data, [hash data])
                                           this_fields_data)) hash.
Proof.
  intros Hs message obj Hp.
  apply (frame_parse_inv fields_con hash) in Hp as (fields & _ & Hl & Hck & ->).
  rewrite Hs in *. simpl. repeat split; done.
Qed.

Lemma frame_rebuilds {A} (fields_con : Construct byte A)
    `{!Lawful fields_con} (hash : bytes → byte) :
  _sizeof fields_con = 36%nat →
  rebuilds (Struct("fields" / RawCopy fields_con,
                   "checksum" / Checksum (Bytes 1) (λ data, [hash data])
                                         this_fields_data)).
Proof.
  intros Hs message obj Hp.
  apply (frame_rebuild fields_con hash) in Hp. by rewrite Hs in Hp.
Qed.

Section frame_extras.
Context `{Common}.

(** X1.  Whatever buffer one of the five frame parsers accepts has at
    least 37 bytes; the parsed object holds the first 36 bytes as raw
    data with the offsets 0 and 36, the structured fields, and the
    checksum, which is byte 36 of the buffer and the checksum of the
    raw data. *)
Theorem parsed_frames_raw :
  parsed_raw InitiateCommunication calculate_checksum ∧
  parsed_raw InitiateCommunicationResponse calculate_checksum ∧
  parsed_raw StartCommunication calculate_checksum ∧
  parsed_raw StartCommunicationResponse calculate_checksum ∧
  parsed_raw CloseConnection calculate_checksum.
Proof.
  split; [by apply (frame_parsed_raw InitiateCommunication_fields)|].
  split; [by apply (frame_parsed_raw InitiateCommunicationResponse_fields)|].
  split; [by apply (frame_parsed_raw StartCommunication_fields)|].
  split; [by apply (frame_parsed_raw StartCommunicationResponse_fields)|].
  by apply (frame_parsed_raw CloseConnection_fields).
Qed.

(** X2.  Building the object that a frame parser returned writes the
    first 37 bytes of the buffer it was parsed from, reserved and
    padding bytes included: the [RawCopy] keeps the bytes read, and
    building prefers them to the structured fields. *)
Theorem parsed_frames_rebuild :
  rebuilds InitiateCommunication ∧
  rebuilds InitiateCommunicationResponse ∧
  rebuilds StartCommunication ∧
  rebuilds StartCommunicationResponse ∧
  rebuilds CloseConnection.
Proof.
  split; [by apply (frame_rebuilds InitiateCommunication_fields)|].
  split; [by apply (frame_rebuilds InitiateCommunicationResponse_fields)|].
  split; [by apply (frame_rebuilds StartCommunication_fields)|].
  split; [by apply (frame_rebuilds StartCommunicationResponse_fields)|].
  by apply (frame_rebuilds CloseConnection_fields).
Qed.

(** X3.  Every buffer [InitiateCommunication] accepts decodes to the
    same fields, the two constants of the command byte: the 35 reserved
    bytes are skipped and nothing of them is returned. *)
Theorem InitiateCommunication_decode (message : bytes) fields :
  decode InitiateCommunication message = Ok fields →
  fields = Container(Container(Some 7, Some 2), ()).
Proof.
  unfold decode, InitiateCommunication. intros Hd.
  destruct (parse _ message) as [obj|] eqn:Hp; [|done].
  apply (frame_parse_inv InitiateCommunication_fields calculate_checksum)
    in Hp as (fields' & Hf & Hl & _ & ->).
  simpl in Hd. injection Hd as <-.
  destruct message as [|b message]; [simpl in Hl; lia|].
  rewrite InitiateCommunication_fields_parse in Hf.
  repeat case_decide; by simplify_eq.
Qed.
End frame_extras.

Section close.
Context `{Common}.

(** X4.  Building a [CloseConnection] writes the length 37 whatever
    length the caller gives or leaves out: the frame is the command
    [0x70], the byte [0x25], 34 zero bytes and the checksum.  A command
    other than [0x70] is a [ConstError]. *)
Theorem CloseConnection_length_rebuilt (command length : option Z) :
  encode CloseConnection (Container(Container(command), length, ())) =
  if decide (command = None ∨ command = Some 0x70)
  then Ok (CloseConnection_payload ++ [calculate_checksum CloseConnection_payload])
  else Raise ConstError.
Proof.
  case_decide as Hc.
  - destruct Hc as [->| ->]; vm_compute; reflexivity.
  - destruct command as [z|]; [|by destruct Hc; left].
    unfold encode, build. cbn.
    rewrite decide_False; [done|]. intros [?|?]; [done|]. apply Hc. by right.
Qed.
End close.

Section fields_parsed.
Context `{Common}.

#[local] Arguments Padding : simpl never.

Lemma Int8ub_parse ctx (b : byte) (stream : bytes) :
  _parse Int8ub ctx (b :: stream) = Ok (byte_to_Z b, stream).
Proof. cbn -[stream_read]. by rewrite stream_read_cons. Qed.

Lemma Int8ub_parse_nil ctx : _parse Int8ub ctx [] = Raise StreamError.
Proof. done. Qed.

Lemma Const_Int8ub_parse ctx value (b : byte) (stream : bytes) :
  _parse (Const value Int8ub) ctx (b :: stream) =
  if decide (byte_to_Z b = value) then Ok (Some (byte_to_Z b), stream)
  else Raise ConstError.
Proof.
  cbn [_parse Const]. rewrite Int8ub_parse. cbn [mbind result_bind]. done.
Qed.

Lemma CloseConnection_fields_parse ctx (b0 b1 : byte) (stream : bytes) :
  _parse CloseConnection_fields ctx (b0 :: b1 :: stream) =
  if decide (byte_to_Z b0 = 0x70) then
    if decide (34 ≤ length stream)%nat
    then Ok (Container(Container(Some (byte_to_Z b0)), Some (byte_to_Z b1), ()),
             drop 34 stream)
    else Raise StreamError
  else Raise ConstError.
Proof.
  unfold CloseConnection_fields.
  cbn [_parse Struct_cons Struct_nil rn_subcon rn_name Rebuild].
  rewrite Const_Int8ub_parse. case_decide; [|done].
  cbn [mbind result_bind]. rewrite Int8ub_parse.
  cbn [mbind result_bind]. rewrite Padding_parse. by case_decide.
Qed.
End fields_parsed.

Lemma byte_to_Z_inj (b b' : byte) : byte_to_Z b = byte_to_Z b' → b = b'.
Proof.
  intros Hb. apply (f_equal byte_of_Z) in Hb.
  rewrite !byte_of_to_Z in Hb. by injection Hb.
Qed.

Section close_parse.
Context `{Common}.

(** X5.  Parsing a [CloseConnection] does not check the length byte:
    the [length] returned is byte 1 of the buffer, whatever it holds. *)
Theorem CloseConnection_decode (message : bytes) fields :
  decode CloseConnection message = Ok fields →
  ∃ b1, message !! 1%nat = Some b1 ∧
        fields = Container(Container(Some 0x70), Some (byte_to_Z b1), ()).
Proof.
  unfold decode, CloseConnection. intros Hd.
  destruct (parse _ message) as [obj|] eqn:Hp; [|done].
  apply (frame_parse_inv CloseConnection_fields calculate_checksum)
    in Hp as (fields' & Hf & Hl & _ & ->).
  simpl in Hd. injection Hd as <-.
  destruct message as [|b0 [|b1 message]]; [simpl in Hl; lia..|].
  rewrite CloseConnection_fields_parse in Hf.
  exists b1. split; [done|].
  repeat case_decide; simplify_eq. congruence.
Qed.
End close_parse.

(** ** Frames: the bytes a parse reads *)

(** A parse reads the first [_sizeof c] units only: on a stream that has
    them, the outcome is that of the parse of those units, and what is
    left is the stream after them. *)

Lemma stream_read_prefix {U} (stream : list U) n :
  (n ≤ length stream)%nat →
  stream_read (take n stream) n = Ok (take n stream, []).
Proof.
  intros Hn. unfold stream_read.
  rewrite decide_True by (rewrite length_take; lia).
  rewrite take_take, Nat.min_id. rewrite drop_ge by (rewrite length_take; lia).
  done.
Qed.

Ltac prefix_read :=
  intros ctx stream Hn; simpl in *;
  rewrite ?stream_read_take, ?stream_read_prefix by done; simpl.

#[global] Instance Int8ub_prefix : Prefix Int8ub.
Proof. prefix_read. by destruct (take 1 stream) as [|? [|]]. Qed.

#[global] Instance Int16ub_prefix : Prefix Int16ub.
Proof. prefix_read. by destruct (take 2 stream) as [|? [|? [|]]]. Qed.

#[global] Instance Bytes_prefix size : Prefix (Bytes size).
Proof. by prefix_read. Qed.

#[global] Instance Padding_prefix size : Prefix (Padding size).
Proof. by prefix_read. Qed.

#[global] Instance Bitwise_prefix {A} (subcon : Construct bool A)
  : Prefix (Bitwise subcon).
Proof.
  prefix_read.
  by destruct (_parse subcon ctx _) as [[]|].
Qed.

#[global] Instance Struct_nil_prefix {U} : Prefix (@Struct_nil U).
Proof. intros ctx stream _. simpl. by rewrite drop_0. Qed.

#[global] Instance Struct_cons_prefix {U A B} `{InContext A} name
    (subcon : Construct U A) (rest : Construct U B)
    `{!Prefix subcon, !Prefix rest}
  : Prefix (Struct_cons (Rename name subcon) rest).
Proof.
  intros ctx stream Hn. simpl in *.
  rewrite (parse_prefix subcon ctx stream) by lia.
  rewrite (parse_prefix subcon ctx (take (_sizeof subcon + _sizeof rest) stream))
    by (rewrite length_take; lia).
  rewrite take_take, Nat.min_l by lia.
  destruct (_parse subcon ctx (take (_sizeof subcon) stream)) as [[subobj ?]|];
    [|done].
  simpl.
  rewrite (parse_prefix rest _ (drop _ stream)) by (rewrite length_drop; lia).
  rewrite (parse_prefix rest _ (drop _ (take (_sizeof subcon + _sizeof rest) stream)))
    by (rewrite length_drop, length_take; lia).
  rewrite <- take_drop_commute, take_take, Nat.min_id, drop_drop.
  by destruct (_parse rest _ _) as [[]|].
Qed.

Section prefix_adapters.
Context {U A : Type} (subcon : Construct U A) `{!Prefix subcon}.

Ltac prefix_adapter :=
  intros ctx stream Hn; simpl in *;
  rewrite (parse_prefix subcon ctx stream) by done;
  destruct (_parse subcon ctx (take (_sizeof subcon) stream)) as [[obj ?]|];
  [|done]; simpl.

#[global] Instance Const_prefix `{EqDecision A} (value : A)
  : Prefix (Const value subcon).
Proof. prefix_adapter. by case_decide. Qed.

#[global] Instance Default_prefix (value : A) : Prefix (Default subcon value).
Proof. by prefix_adapter. Qed.

#[global] Instance Rebuild_prefix (func : Context → result A)
  : Prefix (Rebuild subcon func).
Proof. by prefix_adapter. Qed.

#[global] Instance ExprAdapter_prefix {B}
    (decoder : A → result B) (encoder : B → result A)
  : Prefix (ExprAdapter subcon decoder encoder).
Proof. prefix_adapter. by destruct (decoder obj). Qed.

End prefix_adapters.

#[global] Instance Enum_prefix {U} (subcon : Construct U Z) `{!Prefix subcon}
    mapping : Prefix (Enum subcon mapping).
Proof.
  intros ctx stream Hn; simpl in *.
  rewrite (parse_prefix subcon ctx stream) by done.
  by destruct (_parse subcon ctx (take (_sizeof subcon) stream)) as [[obj ?]|].
Qed.

#[global] Instance RawCopy_at_prefix {A} tell (subcon : Construct byte A)
    `{!Prefix subcon} : Prefix (RawCopy_at tell subcon).
Proof.
  intros ctx stream Hn; simpl in *.
  rewrite (parse_prefix subcon ctx stream) by done.
  rewrite (parse_prefix subcon ctx (take _ stream))
    by (rewrite length_take; lia).
  rewrite take_take, Nat.min_id.
  destruct (_parse subcon ctx (take (_sizeof subcon) stream)) as [[obj ?]|];
    [|done].
  simpl. rewrite !length_drop, !length_take.
  replace (Z.to_nat (tell + Z.of_nat (length stream - (length stream - _sizeof subcon)) - tell))
    with (_sizeof subcon) by lia.
  replace (Z.to_nat (tell + Z.of_nat (_sizeof subcon `min` length stream
             - (_sizeof subcon `min` length stream - _sizeof subcon)) - tell))
    with (_sizeof subcon) by lia.
  rewrite stream_read_take, stream_read_prefix by done. simpl.
  rewrite Nat.min_l by done. do 3 f_equal; f_equal; lia.
Qed.

#[global] Instance Checksum_prefix (checksumfield : Construct byte bytes)
    `{!Prefix checksumfield} hashfunc bytesfunc
  : Prefix (Checksum checksumfield hashfunc bytesfunc).
Proof.
  intros ctx stream Hn; simpl in *.
  rewrite (parse_prefix checksumfield ctx stream) by done.
  destruct (_parse checksumfield ctx (take (_sizeof checksumfield) stream))
    as [[obj ?]|]; [|done].
  simpl. destruct (bytesfunc ctx); [|done]. simpl. by case_decide.
Qed.

Section frames_prefix.
Context `{Common}.

#[global] Instance InitiateCommunication_prefix
  : Prefix InitiateCommunication := _.
#[global] Instance InitiateCommunicationResponse_prefix
  : Prefix InitiateCommunicationResponse := _.
#[global] Instance StartCommunication_prefix
  : Prefix StartCommunication := _.
#[global] Instance StartCommunicationResponse_prefix
  : Prefix StartCommunicationResponse := _.
#[global] Instance CloseConnection_prefix
  : Prefix CloseConnection := _.
End frames_prefix.

Lemma parse_take {A} (X : Construct byte A) `{!Prefix X} (message : bytes) :
  (_sizeof X ≤ length message)%nat →
  parse X message = parse X (take (_sizeof X) message).
Proof.
  intros Hn. unfold parse. rewrite (parse_prefix X _ message) by done.
  by destruct (_parse X (root X) (take (_sizeof X) message)) as [[]|].
Qed.

Section trailing.
Context `{Common}.

Lemma byte_at_take (message : bytes) (k : Z) (n : nat) :
  0 <= k < Z.of_nat n →
  Panel.byte_at (take n message) k = Panel.byte_at message k.
Proof.
  intros Hk. rewrite <- (Z2Nat.id k) by lia.
  rewrite !byte_at_nat, lookup_take_lt by lia. done.
Qed.

(** X7.  The frame parsers and [parse_message] read the first 37 bytes
    of a buffer only: a longer buffer gives the outcome, result or
    exception, of its first 37 bytes. *)
Theorem frames_ignore_trailing_bytes (message : bytes) :
  (37 ≤ length message)%nat →
  parse InitiateCommunication message
    = parse InitiateCommunication (take 37 message) ∧
  parse InitiateCommunicationResponse message
    = parse InitiateCommunicationResponse (take 37 message) ∧
  parse StartCommunication message
    = parse StartCommunication (take 37 message) ∧
  parse StartCommunicationResponse message
    = parse StartCommunicationResponse (take 37 message) ∧
  parse CloseConnection message
    = parse CloseConnection (take 37 message) ∧
  ∀ direction,
    Panel.parse_message (Some message) direction
    = Panel.parse_message (Some (take 37 message)) direction.
Proof.
  intros Hn.
  pose proof (parse_take InitiateCommunication message Hn) as H1.
  pose proof (parse_take InitiateCommunicationResponse message Hn) as H2.
  pose proof (parse_take StartCommunication message Hn) as H3.
  pose proof (parse_take StartCommunicationResponse message Hn) as H4.
  pose proof (parse_take CloseConnection message Hn) as H5.
  change (_sizeof _) with 37%nat in *.
  do 5 (split; [done|]).
  intros direction. unfold Panel.parse_message.
  rewrite length_take, Nat.min_l by done.
  destruct (decide (length message = 0%nat)); [lia|].
  destruct (decide (37%nat = 0%nat)); [lia|].
  rewrite (byte_at_take message 0 37), (byte_at_take message 1 37),
    (byte_at_take message 4 37) by lia.
  by rewrite <- H1, <- H2, <- H3, <- H4.
Qed.
End trailing.

(** ** Frames: the buffers a parse accepts *)

(** A parse that cannot fail on a stream that holds [_sizeof c] units. *)

Ltac total_read :=
  intros ctx stream Hn; simpl in *;
  rewrite ?stream_read_take by done; simpl.

Lemma take_1_length {U} (stream : list U) :
  (1 ≤ length stream)%nat → ∃ b, take 1 stream = [b].
Proof. destruct stream as [|b ?]; simpl; [lia|]. rewrite take_0. by exists b. Qed.

#[global] Instance Int8ub_total : Total Int8ub.
Proof.
  total_read. destruct (take_1_length stream Hn) as [b ->]. by eexists.
Qed.

#[global] Instance Int16ub_total : Total Int16ub.
Proof.
  total_read. destruct stream as [|hi [|lo ?]]; simpl in *; [lia..|].
  by eexists.
Qed.

#[global] Instance Bytes_total size : Total (Bytes size).
Proof. total_read. by eexists. Qed.

#[global] Instance Padding_total size : Total (Padding size).
Proof. total_read. by eexists. Qed.

#[global] Instance Flag_total : Total Flag.
Proof.
  total_read. destruct (take_1_length stream Hn) as [b ->]. by eexists.
Qed.

#[global] Instance BitsInteger_total size : Total (BitsInteger size).
Proof. total_read. by eexists. Qed.

#[global] Instance Struct_nil_total {U} : Total (@Struct_nil U).
Proof. intros ctx stream _. by eexists. Qed.

#[global] Instance Struct_cons_total {U A B} `{InContext A} name
    (subcon : Construct U A) (rest : Construct U B)
    `{!Lawful subcon, !Total subcon, !Total rest}
  : Total (Struct_cons (Rename name subcon) rest).
Proof.
  intros ctx stream Hn. simpl in *.
  destruct (parse_total subcon ctx stream) as [[subobj stream'] Hp]; [lia|].
  rewrite Hp. simpl.
  apply (parse_sizeof subcon) in Hp as [_ ->].
  destruct (parse_total rest (in_context name subobj ctx)
              (drop (_sizeof subcon) stream)) as [[obj stream'] Hp];
    [rewrite length_drop; lia|].
  rewrite Hp. by eexists.
Qed.

Lemma length_bytes2bits (data : bytes) :
  length (bytes2bits data) = (8 * length data)%nat.
Proof.
  unfold bytes2bits. induction data as [|b data IH]; [done|].
  cbn [mbind list_bind]. rewrite length_app, IH.
  unfold byte2bits. destruct (Byte.to_bits b) as (?&?&?&?&?&?&?&?). simpl. lia.
Qed.

#[global] Instance Bitwise_total {A} (subcon : Construct bool A)
    `{!Total subcon} `{!TCEq (_sizeof subcon `mod` 8)%nat 0%nat}
  : Total (Bitwise subcon).
Proof.
  rename TCEq0 into Hs. apply TCEq_eq in Hs.
  intros ctx stream Hn. unfold Bitwise in *. cbn [_parse _sizeof] in *.
  rewrite stream_read_take by done. cbn [mbind result_bind].
  destruct (parse_total subcon ctx
              (bytes2bits (take (_sizeof subcon `div` 8) stream)))
    as [[obj ?] Hp].
  { rewrite length_bytes2bits, length_take, Nat.min_l by done.
    pose proof (Nat.div_mod_eq (_sizeof subcon) 8). lia. }
  rewrite Hp. by eexists.
Qed.

Section total_adapters.
Context {U A : Type} (subcon : Construct U A) `{!Total subcon}.

Ltac total_adapter :=
  intros ctx stream Hn; simpl in *;
  destruct (parse_total subcon ctx stream Hn) as [[obj ?] ->]; simpl.

#[global] Instance Default_total (value : A) : Total (Default subcon value).
Proof. total_adapter. by eexists. Qed.

#[global] Instance Rebuild_total (func : Context → result A)
  : Total (Rebuild subcon func).
Proof. total_adapter. by eexists. Qed.

End total_adapters.

#[global] Instance Enum_total {U} (subcon : Construct U Z) `{!Total subcon}
    mapping : Total (Enum subcon mapping).
Proof.
  intros ctx stream Hn; simpl in *.
  destruct (parse_total subcon ctx stream Hn) as [[obj ?] ->]. by eexists.
Qed.

Lemma total_succeeds {U A} (c : Construct U A) `{!Lawful c, !Total c}
    ctx stream :
  succeeds (_parse c ctx stream) ↔ (_sizeof c ≤ length stream)%nat.
Proof.
  split; [|apply parse_total; done].
  intros [[obj rest] Hp]. by apply (parse_sizeof c) in Hp as [? _].
Qed.

Section frame_succeeds.
Context {A : Type} (fields_con : Construct byte A) `{!Lawful fields_con}.
Context (hash : bytes → byte).

Let X := Struct("fields" / RawCopy fields_con,
                "checksum" / Checksum (Bytes 1) (λ data, [hash data])
                                      this_fields_data).

Lemma frame_succeeds (message : bytes) :
  let n := _sizeof fields_con in
  succeeds (parse X message) ↔
  succeeds (_parse fields_con (root X) message) ∧
  message !! n = Some (hash (take n message)).
Proof.
  intros n. split.
  - intros [obj Hp].
    apply (frame_parse_inv fields_con hash) in Hp as (fields & Hf & _ & Hck & _).
    split; [by eexists|done].
  - intros [[[fields rest] Hf] Hck].
    pose proof Hf as Hf'. apply (parse_sizeof fields_con) in Hf' as [_ ->].
    eexists. apply (frame_parse_intro fields_con hash); [exact Hf| |exact Hck].
    by apply lookup_lt_Some in Hck.
Qed.
End frame_succeeds.

Lemma Struct_cons_succeeds {U A B} `{InContext A} name
    (subcon : Construct U A) (rest : Construct U B) `{!Lawful subcon}
    ctx stream :
  succeeds (_parse (Struct_cons (Rename name subcon) rest) ctx stream) ↔
  ∃ subobj,
    _parse subcon ctx stream = Ok (subobj, drop (_sizeof subcon) stream) ∧
    succeeds (_parse rest (in_context name subobj ctx)
                (drop (_sizeof subcon) stream)).
Proof.
  simpl. split.
  - intros [[[subobj obj] stream'] Hp].
    destruct (_parse subcon ctx stream) as [[subobj' stream1]|] eqn:Hs; [|done].
    pose proof Hs as Hs'. apply (parse_sizeof subcon) in Hs' as [_ ->].
    simpl in Hp. exists subobj'. split; [done|].
    destruct (_parse rest _ _) as [[]|]; [by eexists|done].
  - intros (subobj & -> & [[obj stream'] Hp]). simpl. rewrite Hp. by eexists.
Qed.

Section struct_steps.
Context {U A B : Type} `{InContext A}.
Context (name : string) (subcon : Construct U A) (rest : Construct U B).

Lemma Struct_cons_step (P : Prop) `{!Decision P} e subobj ctx stream stream' :
  _parse subcon ctx stream
    = (if decide P then Ok (subobj, stream') else Raise e) →
  succeeds (_parse (Struct_cons (Rename name subcon) rest) ctx stream) ↔
  P ∧ succeeds (_parse rest (in_context name subobj ctx) stream').
Proof.
  intros Hp. simpl. rewrite Hp. case_decide; simpl.
  - split.
    + intros [[[? obj] ?] Hr]. split; [done|].
      destruct (_parse rest _ _) as [[]|]; [by eexists|done].
    + intros [_ [[obj ?] ->]]. by eexists.
  - split; [by intros [? ?]|by intros [? _]].
Qed.

Lemma Struct_cons_total_rest `{!Lawful subcon, !Lawful rest, !Total rest}
    ctx stream :
  (_sizeof subcon + _sizeof rest ≤ length stream)%nat →
  succeeds (_parse (Struct_cons (Rename name subcon) rest) ctx stream) ↔
  succeeds (_parse subcon ctx stream).
Proof.
  intros Hn. rewrite Struct_cons_succeeds by done. split.
  - intros (subobj & Hp & _). by eexists.
  - intros [[subobj stream'] Hp].
    pose proof Hp as Hp'. apply (parse_sizeof subcon) in Hp' as [_ ->].
    exists subobj. split; [done|].
    apply parse_total; [done|]. rewrite length_drop. lia.
Qed.

End struct_steps.

Lemma Struct_cons_total_succeeds {U A B} name
    (subcon : Construct U A) (rest : Construct U B)
    `{!Lawful subcon, !Total subcon} ctx stream :
  (_sizeof subcon ≤ length stream)%nat →
  succeeds (_parse (@Struct_cons U A B any_in_context (Rename name subcon) rest)
              ctx stream) ↔
  succeeds (_parse rest ctx (drop (_sizeof subcon) stream)).
Proof.
  intros Hn. rewrite Struct_cons_succeeds by done. split.
  - by intros (subobj & _ & Hr).
  - intros Hr.
    destruct (parse_total subcon ctx stream Hn) as [[subobj stream'] Hp].
    pose proof Hp as Hp'. apply (parse_sizeof subcon) in Hp' as [_ ->].
    by exists subobj.
Qed.

Section accept.
Context `{Common}.

Lemma command_7_parse ctx (b : byte) (stream : bytes) :
  _parse (BitStruct("command" / Const 7 Nibble, "message_center" / Nibble))
    ctx (b :: stream) =
  if decide (byte_to_Z b `div` 16 = 7)
  then Ok (Container(Some 7, byte_to_Z b `mod` 16), stream)
  else Raise ConstError.
Proof.
  cbn -[stream_read]. rewrite stream_read_cons.
  destruct b; vm_compute; reflexivity.
Qed.

Lemma command_0_parse ctx (b : byte) (stream : bytes) :
  _parse (BitStruct("command" / Const 0 Nibble,
                    "status" / Struct("reserved" / Flag,
                                      "alarm_reporting_pending" / Flag,
                                      "Winload_connected" / Flag,
                                      "NeWare_connected" / Flag)))
    ctx (b :: stream) =
  if decide (byte_to_Z b `div` 16 = 0)
  then Ok (Container(Some 0,
                     Container(Z.testbit (byte_to_Z b) 3,
                               Z.testbit (byte_to_Z b) 2,
                               Z.testbit (byte_to_Z b) 1,
                               Z.testbit (byte_to_Z b) 0)), stream)
  else Raise ConstError.
Proof.
  cbn -[stream_read]. rewrite stream_read_cons.
  destruct b; vm_compute; reflexivity.
Qed.

#[local] Arguments Bitwise : simpl never.
#[local] Arguments Padding : simpl never.

Lemma HexInt_parse ctx (b : byte) (stream : bytes) :
  _parse HexInt ctx (b :: stream) =
  obj ← HexInt_decode (byte_to_Z b); Ok (obj, stream).
Proof.
  unfold HexInt. cbn [_parse ExprAdapter]. rewrite Int8ub_parse. done.
Qed.

Lemma application_succeeds ctx (b9 b10 b11 : byte) (stream : bytes) :
  succeeds (_parse (Struct("version" / HexInt, "revision" / HexInt,
                           "build" / HexInt)) ctx (b9 :: b10 :: b11 :: stream)) ↔
  succeeds (HexInt_decode (byte_to_Z b9)) ∧
  succeeds (HexInt_decode (byte_to_Z b10)) ∧
  succeeds (HexInt_decode (byte_to_Z b11)).
Proof.
  cbn [_parse Struct_cons Struct_nil rn_subcon rn_name].
  rewrite !HexInt_parse.
  destruct (HexInt_decode (byte_to_Z b9)) as [v9|]; cbn [mbind result_bind].
  2: { split; [by intros [? ?]|by intros [[? ?] _]]. }
  rewrite !HexInt_parse.
  destruct (HexInt_decode (byte_to_Z b10)) as [v10|]; cbn [mbind result_bind].
  2: { split; [by intros [? ?]|by intros (_ & [? ?] & _)]. }
  rewrite !HexInt_parse.
  destruct (HexInt_decode (byte_to_Z b11)) as [v11|]; cbn [mbind result_bind].
  2: { split; [by intros [? ?]|by intros (_ & _ & [? ?])]. }
  split; [intros _; split_and!; by eexists|intros _; by eexists].
Qed.

Ltac side := first [solve [typeclasses eauto] | simpl; lia].

Lemma InitiateCommunicationResponse_fields_succeeds ctx (m : bytes) :
  (36 ≤ length m)%nat →
  succeeds (_parse InitiateCommunicationResponse_fields ctx m) ↔
  byte_in m 0 (λ b, b `div` 16 = 7) ∧ byte_in m 1 (λ b, b = 0xFF) ∧
  byte_in m 9 (λ b, succeeds (HexInt_decode b)) ∧
  byte_in m 10 (λ b, succeeds (HexInt_decode b)) ∧
  byte_in m 11 (λ b, succeeds (HexInt_decode b)).
Proof.
  intros Hn.
  destruct m as [|b0 [|b1 [|b2 [|b3 [|b4 [|b5 [|b6 [|b7 [|b8 [|b9 [|b10 [|b11 m]]]]]]]]]]]];
    simpl in Hn; try lia.
  unfold InitiateCommunicationResponse_fields.
  rewrite (Struct_cons_step _ _ _ _ _ _ _ _ _ (command_7_parse ctx b0 _)).
  rewrite (Struct_cons_step _ _ _ _ _ _ _ _ _ (Const_Int8ub_parse _ _ b1 _)).
  do 5 (rewrite Struct_cons_total_succeeds by side;
        cbn [drop _sizeof Int8ub Struct_cons Struct_nil ProductIdEnum Enum
             rn_subcon Nat.add]).
  rewrite Struct_cons_total_rest by side.
  rewrite application_succeeds.
  unfold byte_in. cbn [lookup list_lookup]. split.
  - intros (? & ? & ? & ? & ?). split_and!; by eexists.
  - by intros ((? & [= <-] & ?) & (? & [= <-] & ?) & (? & [= <-] & ?)
               & (? & [= <-] & ?) & (? & [= <-] & ?)).
Qed.

Lemma StartCommunicationResponse_fields_succeeds ctx (m : bytes) :
  (36 ≤ length m)%nat →
  succeeds (_parse StartCommunicationResponse_fields ctx m) ↔
  byte_in m 0 (λ b, b `div` 16 = 0).
Proof.
  intros Hn. destruct m as [|b0 m]; simpl in Hn; [lia|].
  unfold StartCommunicationResponse_fields.
  rewrite (Struct_cons_step _ _ _ _ _ _ _ _ _ (command_0_parse ctx b0 _)).
  rewrite total_succeeds by side.
  unfold byte_in. cbn [lookup list_lookup]. split.
  - intros [? _]. by eexists.
  - intros (? & [= <-] & ?). split; [done|]. simpl. lia.
Qed.

Lemma StartCommunication_fields_succeeds ctx (m : bytes) :
  (36 ≤ length m)%nat →
  succeeds (_parse StartCommunication_fields ctx m) ↔
  byte_in m 0 (λ b, b = 0x5F) ∧ byte_in m 1 (λ b, b = 0x20).
Proof.
  intros Hn. destruct m as [|b0 [|b1 m]]; simpl in Hn; [lia..|].
  unfold StartCommunication_fields.
  assert (∀ ctx stream,
    _parse (Struct("command" / Const 95 Int8ub)) ctx (b0 :: stream) =
    if decide (byte_to_Z b0 = 0x5F)
    then Ok (Container(Some (byte_to_Z b0)), stream) else Raise ConstError)
    as Hpo.
  { intros. cbn [_parse Struct_cons Struct_nil rn_subcon rn_name].
    rewrite Const_Int8ub_parse. by case_decide. }
  rewrite (Struct_cons_step _ _ _ _ _ _ _ _ _ (Hpo ctx _)).
  rewrite (Struct_cons_step _ _ _ _ _ _ _ _ _ (Const_Int8ub_parse _ _ b1 _)).
  rewrite total_succeeds by side.
  unfold byte_in. cbn [lookup list_lookup]. split.
  - intros (? & ? & _). split; by eexists.
  - intros [(? & [= <-] & ?) (? & [= <-] & ?)]. split_and!; [done..|].
    simpl. lia.
Qed.

Lemma InitiateCommunication_fields_succeeds ctx (m : bytes) :
  (36 ≤ length m)%nat →
  succeeds (_parse InitiateCommunication_fields ctx m) ↔
  byte_in m 0 (λ b, b = 0x72).
Proof.
  intros Hn. destruct m as [|b0 m]; simpl in Hn; [lia|].
  rewrite InitiateCommunication_fields_parse.
  unfold byte_in. cbn [lookup list_lookup]. split.
  - intros [? Hp]. case_decide; [subst|done]. by eexists.
  - intros (? & [= <-] & Hb). apply (byte_to_Z_inj _ x72) in Hb as ->.
    rewrite decide_True by done. rewrite decide_True by lia. by eexists.
Qed.

Lemma CloseConnection_fields_succeeds ctx (m : bytes) :
  (36 ≤ length m)%nat →
  succeeds (_parse CloseConnection_fields ctx m) ↔
  byte_in m 0 (λ b, b = 0x70).
Proof.
  intros Hn. destruct m as [|b0 [|b1 m]]; simpl in Hn; [lia..|].
  rewrite CloseConnection_fields_parse.
  unfold byte_in. cbn [lookup list_lookup]. split.
  - intros [? Hp]. case_decide; [|done]. by eexists.
  - intros (? & [= <-] & Hb).
    rewrite decide_True by done. rewrite decide_True by lia. by eexists.
Qed.
End accept.

Lemma frame_accepts `{Common} {A} (fields_con : Construct byte A)
    `{!Lawful fields_con} (constants : bytes → Prop) :
  _sizeof fields_con = 36%nat →
  (∀ ctx m, (36 ≤ length m)%nat →
     succeeds (_parse fields_con ctx m) ↔ constants m) →
  accepts (Struct("fields" / RawCopy fields_con,
                  "checksum" / Checksum (Bytes 1)
                                 (λ data, [calculate_checksum data])
                                 this_fields_data)) constants.
Proof.
  intros Hs Hf message.
  rewrite (frame_succeeds fields_con calculate_checksum). rewrite Hs.
  (split; intros [Hc Hck]; (split; [|done]);
    apply lookup_lt_Some in Hck; eapply Hf; solve [done | lia]).
Qed.

Section accepted.
Context `{Common}.

(** X8.  What each frame parser accepts.  A buffer is parsed without
    an exception exactly when byte 36 is the checksum of the first 36
    bytes and the constants of the frame are in place: byte 0 is [0x72]
    for [InitiateCommunication]; the high nibble of byte 0 is 7, byte 1
    is [0xFF] and the three [HexInt] bytes 9 to 11 decode for
    [InitiateCommunicationResponse]; bytes 0 and 1 are [0x5F] and
    [0x20] for [StartCommunication]; the high nibble of byte 0 is 0 for
    [StartCommunicationResponse]; byte 0 is [0x70] for
    [CloseConnection].  No other byte is checked. *)
Theorem frames_accept :
  accepts InitiateCommunication (λ m, byte_in m 0 (λ b, b = 0x72)) ∧
  accepts InitiateCommunicationResponse
    (λ m, byte_in m 0 (λ b, b `div` 16 = 7) ∧ byte_in m 1 (λ b, b = 0xFF) ∧
          byte_in m 9 (λ b, succeeds (HexInt_decode b)) ∧
          byte_in m 10 (λ b, succeeds (HexInt_decode b)) ∧
          byte_in m 11 (λ b, succeeds (HexInt_decode b))) ∧
  accepts StartCommunication
    (λ m, byte_in m 0 (λ b, b = 0x5F) ∧ byte_in m 1 (λ b, b = 0x20)) ∧
  accepts StartCommunicationResponse (λ m, byte_in m 0 (λ b, b `div` 16 = 0)) ∧
  accepts CloseConnection (λ m, byte_in m 0 (λ b, b = 0x70)).
Proof.
  unfold InitiateCommunication, InitiateCommunicationResponse,
    StartCommunication, StartCommunicationResponse, CloseConnection.
  split_and!.
  - apply (frame_accepts InitiateCommunication_fields); [done|].
    intros ctx m Hm. by apply InitiateCommunication_fields_succeeds.
  - apply (frame_accepts InitiateCommunicationResponse_fields); [done|].
    intros ctx m Hm. by apply InitiateCommunicationResponse_fields_succeeds.
  - apply (frame_accepts StartCommunication_fields); [done|].
    intros ctx m Hm. by apply StartCommunication_fields_succeeds.
  - apply (frame_accepts StartCommunicationResponse_fields); [done|].
    intros ctx m Hm. by apply StartCommunicationResponse_fields_succeeds.
  - apply (frame_accepts CloseConnection_fields); [done|].
    intros ctx m Hm. by apply CloseConnection_fields_succeeds.
Qed.
End accepted.

(** ** The dispatcher and the frames *)

Section dispatched.
Context `{Common}.

Lemma parse_message_parsed_from (message : bytes) direction m :
  Panel.parse_message (Some message) direction = Ok (Some m) →
  parsed_from message direction m.
Proof.
  unfold Panel.parse_message, mbind, result_bind, fmap, result_fmap.
  intros Hp.
  repeat (case_match; simplify_eq/=); done.
Qed.

(** X9.  A frame that [parse_message] returns was parsed from a buffer
    of at least 37 bytes whose byte 36 is the checksum of the first 36,
    by the parser of its type; the type is [InitiateCommunication] or
    [StartCommunication] for the direction [topanel] and one of the two
    responses for any other direction. *)
Theorem parse_message_verified (message : bytes) direction m :
  Panel.parse_message (Some message) direction = Ok (Some m) →
  (37 ≤ length message)%nat ∧
  message !! 36%nat = Some (calculate_checksum (take 36 message)) ∧
  parsed_from message direction m.
Proof.
  intros Hp%parse_message_parsed_from.
  assert (∃ A (X : Construct byte (RawCopyObj A * (option bytes * ()))) obj,
            parsed_raw X calculate_checksum ∧ parse X message = Ok obj)
    as (A & X & obj & Hraw & Hobj).
  { destruct m as [c|c|c|c]; destruct Hp as [_ Hp];
      eexists _, _, c; (split; [|exact Hp]).
    - by apply (frame_parsed_raw InitiateCommunication_fields).
    - by apply (frame_parsed_raw StartCommunication_fields).
    - by apply (frame_parsed_raw InitiateCommunicationResponse_fields).
    - by apply (frame_parsed_raw StartCommunicationResponse_fields). }
  destruct (Hraw message obj Hobj) as (Hl & Hck & _).
  split; [lia|]. done.
Qed.
End dispatched.

Section start.
Context `{Common}.

(** X6.  Building a [StartCommunication] from the keys a caller may
    give: the frame is the command [0x5F], the validation byte [0x20],
    31 zero bytes, the source id (1 when left out), the two bytes of the
    user id (0 when left out) and the checksum. *)
Theorem StartCommunication_encode (source_id high low : option byte) :
  let payload := StartCommunication_payload (default x01 source_id)
                   (default x00 high) (default x00 low) in
  encode StartCommunication
    (Container(Container(None), None, (),
               (EnumInteger ∘ byte_to_Z) <$> source_id,
               Container(byte_to_Z <$> high, byte_to_Z <$> low)))
  = Ok (payload ++ [calculate_checksum payload]).
Proof.
  destruct source_id as [s|], high as [h|], low as [l|];
    unfold encode, build; cbn; rewrite ?byte_of_to_Z; reflexivity.
Qed.
End start.

Lemma Struct_cons_parse_inv {U A B} `{InContext A} name
    (subcon : Construct U A) (rest : Construct U B) `{!Lawful subcon}
    ctx stream obj stream' :
  _parse (Struct_cons (Rename name subcon) rest) ctx stream = Ok (obj, stream') →
  _parse subcon ctx stream = Ok (obj.1, drop (_sizeof subcon) stream) ∧
  _parse rest (in_context name obj.1 ctx) (drop (_sizeof subcon) stream)
    = Ok (obj.2, stream').
Proof.
  simpl. intros Hp.
  destruct (_parse subcon ctx stream) as [[subobj stream1]|] eqn:Hs; [|done].
  pose proof Hs as Hs'. apply (parse_sizeof subcon) in Hs' as [_ ->].
  simpl in Hp.
  destruct (_parse rest _ _) as [[obj2 stream2]|] eqn:Hr; [|done].
  simpl in Hp. by injection Hp as <- <-.
Qed.

Section product_id.
Context `{Common}.

#[local] Arguments Bitwise : simpl never.

Lemma StartCommunicationResponse_product_id ctx (m : bytes) fields stream :
  _parse StartCommunicationResponse_fields ctx m = Ok (fields, stream) →
  ∃ b4, m !! 4%nat = Some b4 ∧
        fields.2.2.1 = enum_of ProductIdEnum_members (byte_to_Z b4).
Proof.
  unfold StartCommunicationResponse_fields. intros Hp.
  apply Struct_cons_parse_inv in Hp as [_ Hp]; [|apply _].
  apply Struct_cons_parse_inv in Hp as [_ Hp]; [|apply _].
  apply Struct_cons_parse_inv in Hp as [Hp _]; [|apply _].
  rewrite drop_drop in Hp.
  change (_sizeof (Bitwise _) + _sizeof (Bytes 3))%nat with 4%nat in Hp.
  pose proof (lookup_drop m 4 0) as Hl. rewrite Nat.add_0_r in Hl.
  unfold ProductIdEnum in Hp. cbn [_parse Enum] in Hp.
  destruct (drop 4 m) as [|b4 rest]; [by rewrite Int8ub_parse_nil in Hp|].
  rewrite Int8ub_parse in Hp. cbn [mbind result_bind] in Hp.
  exists b4. split; [done|]. by injection Hp as <-.
Qed.

Lemma parse_message_byte_4 (message : bytes) direction c :
  Panel.parse_message (Some message) direction
    = Ok (Some (Panel.IsStartCommunicationResponse c)) →
  ∃ b4, message !! 4%nat = Some b4 ∧ 0 < byte_to_Z b4.
Proof.
  unfold Panel.parse_message. rewrite byte_at_4.
  unfold mbind, result_bind, fmap, result_fmap. intros Hp.
  repeat (case_match; simplify_eq); eexists; (split; [done|]); lia.
Qed.

Lemma StartCommunicationResponse_parse_product_id (message : bytes) c :
  parse StartCommunicationResponse message = Ok c →
  ∃ b4 fields,
    message !! 4%nat = Some b4 ∧ value c.1 = Some fields ∧
    fields.2.2.1 = enum_of ProductIdEnum_members (byte_to_Z b4).
Proof.
  unfold StartCommunicationResponse. intros Hc.
  apply (frame_parse_inv StartCommunicationResponse_fields calculate_checksum)
    in Hc as (fields & Hf & _ & _ & ->).
  apply StartCommunicationResponse_product_id in Hf as (b4 & Hb4 & Hpid).
  by exists b4, fields.
Qed.

(** X10.  Whatever [parse_message] returns as a
    [StartCommunicationResponse] has its product id decoded from byte 4
    of the buffer, and that byte is not zero: byte 4, which the
    dispatcher requires to be positive, is the product id. *)
Theorem parse_message_product_id (message : bytes) direction c :
  Panel.parse_message (Some message) direction
    = Ok (Some (Panel.IsStartCommunicationResponse c)) →
  ∃ b4 fields,
    message !! 4%nat = Some b4 ∧ 0 < byte_to_Z b4 ∧
    value c.1 = Some fields ∧
    fields.2.2.1 = enum_of ProductIdEnum_members (byte_to_Z b4).
Proof.
  intros Hp. pose proof Hp as [_ Hc]%parse_message_parsed_from.
  apply parse_message_byte_4 in Hp as (b4 & Hb4 & Hpos).
  apply StartCommunicationResponse_parse_product_id
    in Hc as (b4' & fields & Hb4' & Hv & Hpid).
  exists b4, fields. split; [done|]. split; [done|]. split; [done|].
  congruence.
Qed.
End product_id.

(** ** Passwords: the encoding by digits *)

#[local] Arguments Panel.encode_password_loop : simpl never.

Lemma decimal_digits_inv (cs : list Z) :
  length cs = 4%nat → forallb is_decimal cs = true →
  ∃ d3 d2 d1 d0, cs = [d3 + 48; d2 + 48; d1 + 48; d0 + 48] ∧
    is_digit d3 ∧ is_digit d2 ∧ is_digit d1 ∧ is_digit d0.
Proof.
  intros Hl Hdec.
  destruct cs as [|c3 [|c2 [|c1 [|c0 [|]]]]]; try done.
  simpl in Hdec.
  apply andb_true_iff in Hdec as [H3%is_decimal_digit Hdec].
  apply andb_true_iff in Hdec as [H2%is_decimal_digit Hdec].
  apply andb_true_iff in Hdec as [H1%is_decimal_digit Hdec].
  apply andb_true_iff in Hdec as [H0%is_decimal_digit _].
  exists (c3 - 48), (c2 - 48), (c1 - 48), (c0 - 48).
  split; [|done]. repeat f_equal; lia.
Qed.

Lemma password_digits_inv (password : pyobj) (digits : list Z) :
  password_digits password = Some digits →
  ∃ d3 d2 d1 d0, digits = [d3; d2; d1; d0] ∧
    codes (Panel.normalize password) = Ok [d3 + 48; d2 + 48; d1 + 48; d0 + 48] ∧
    is_digit d3 ∧ is_digit d2 ∧ is_digit d1 ∧ is_digit d0.
Proof.
  unfold password_digits. intros Hd.
  destruct (codes (Panel.normalize password)) as [cs|] eqn:Hc; [|done].
  destruct (bool_decide (length cs = 4%nat)) eqn:Hl; [|done].
  destruct (forallb is_decimal cs) eqn:Hdec; [|done].
  simpl in Hd. injection Hd as <-. apply bool_decide_eq_true in Hl.
  destruct (decimal_digits_inv cs Hl Hdec) as (d3 & d2 & d1 & d0 & -> & Hd).
  exists d3, d2, d1, d0. split; [|done]. simpl. repeat f_equal; lia.
Qed.


Lemma of_lu_bound (d : Decimal.uint) :
  (DecimalPos.Unsigned.of_lu d < 10 ^ N.of_nat (Decimal.nb_digits d))%N.
Proof.
  induction d; cbn [DecimalPos.Unsigned.of_lu Decimal.nb_digits];
    rewrite ?Nat2N.inj_succ, ?N.pow_succ_r'; lia.
Qed.

Lemma length_string_of_uint (d : Decimal.uint) :
  String.length (NilEmpty.string_of_uint d) = Decimal.nb_digits d.
Proof. induction d; simpl; congruence. Qed.

Lemma str_pos_length (p : positive) :
  Z.pos p < 10 ^ Z.of_nat (String.length (str (Z.pos p))).
Proof.
  unfold str. cbn [Z.to_int NilZero.string_of_int].
  assert (NilZero.string_of_uint (Pos.to_uint p)
          = NilEmpty.string_of_uint (Pos.to_uint p))
    as ->.
  { unfold NilZero.string_of_uint.
    pose proof (DecimalPos.Unsigned.to_uint_nonnil p).
    by destruct (Pos.to_uint p). }
  rewrite length_string_of_uint.
  pose proof (DecimalPos.Unsigned.of_to p) as Hp.
  rewrite DecimalPos.Unsigned.of_uint_alt in Hp.
  pose proof (of_lu_bound (Decimal.rev (Pos.to_uint p))) as Hb.
  rewrite Hp, DecimalFacts.nb_digits_rev in Hb.
  apply N2Z.inj_lt in Hb. rewrite N2Z.inj_pow in Hb.
  by rewrite nat_N_Z in Hb.
Qed.

Lemma length_string_of_list_ascii (l : list ascii) :
  String.length (String.string_of_list_ascii l) = length l.
Proof. induction l; simpl; congruence. Qed.

Lemma length_string_app (s1 s2 : string) :
  String.length (s1 +:+ s2) = (String.length s1 + String.length s2)%nat.
Proof. induction s1 as [|c s1 IH]; simpl; [done|]. by rewrite IH. Qed.

Lemma length_zfill (width : nat) (s : string) :
  String.length (zfill width s) = (width `max` String.length s)%nat.
Proof.
  unfold zfill. destruct s as [|c rest].
  - rewrite length_string_of_list_ascii, length_replicate. simpl. lia.
  - case_bool_decide; cbn [String.length];
      rewrite length_string_app, length_string_of_list_ascii,
        length_replicate; cbn [String.length]; lia.
Qed.

Lemma length_codes_normalize_int (n : Z) (cs : list Z) :
  codes (Panel.normalize (PyInt n)) = Ok cs →
  length cs = (4 `max` String.length (str n))%nat.
Proof.
  simpl. intros [= <-]. unfold str_of.
  rewrite length_fmap, <- length_zfill.
  generalize (zfill 4 (str n)). intros s. induction s; simpl; congruence.
Qed.

Lemma password_digits_table :
  forallb (λ n, bool_decide (password_digits (PyInt n) = Some (decimal_digits n)))
          (seqZ 0 10000) = true.
Proof. vm_compute. reflexivity. Qed.

Lemma password_digits_int (n : Z) :
  0 <= n <= 9999 → password_digits (PyInt n) = Some (decimal_digits n).
Proof.
  intros Hn. pose proof password_digits_table as Ht.
  rewrite forallb_forall in Ht.
  eapply bool_decide_eq_true_1, Ht, list_elem_of_In, elem_of_seqZ. lia.
Qed.

Lemma str_neg_codes (p : positive) :
  ∃ cs, codes (Panel.normalize (PyInt (Z.neg p))) = Ok (45 :: cs).
Proof.
  cbn [Panel.normalize codes]. unfold str, zfill.
  cbn [Z.to_int NilZero.string_of_int].
  rewrite bool_decide_eq_true_2 by (by right). by eexists.
Qed.

Lemma password_digits_int_range (n : Z) (digits : list Z) :
  password_digits (PyInt n) = Some digits → 0 <= n <= 9999.
Proof.
  intros Hd.
  apply password_digits_inv in Hd as (d3 & d2 & d1 & d0 & _ & Hc & H3 & _).
  destruct n as [|p|p]; [lia| |].
  - apply length_codes_normalize_int in Hc. simpl in Hc.
    pose proof (str_pos_length p) as Hp.
    assert (Z.of_nat (String.length (str (Z.pos p))) <= 4) as Hl by lia.
    pose proof (Z.pow_le_mono_r 10 _ 4 ltac:(lia) Hl). lia.
  - destruct (str_neg_codes p) as [cs Hcs]. rewrite Hcs in Hc.
    unfold is_digit in H3. injection Hc as ? _. lia.
Qed.

Lemma no_password_digits (password : pyobj) :
  password_digits password = Some [0; 0; 0; 0] → password ∈ Panel.no_password.
Proof.
  intros Hd. unfold Panel.no_password.
  destruct password as [n|s|b].
  - pose proof (password_digits_int_range _ _ Hd) as Hn.
    rewrite password_digits_int in Hd by done.
    injection Hd as H3 H2 H1 H0.
    assert (n = 0) as -> by (Z.div_mod_to_equations; lia).
    rewrite !elem_of_cons; auto.
  - apply password_digits_inv in Hd as (? & ? & ? & ? & [= <- <- <- <-] & Hc & _).
    simpl in Hc. injection Hc as ->.
    rewrite !elem_of_cons. right. left. reflexivity.
  - apply password_digits_inv in Hd as (? & ? & ? & ? & [= <- <- <- <-] & Hc & _).
    simpl in Hc. injection Hc as Hc.
    destruct b as [|c3 [|c2 [|c1 [|c0 [|]]]]]; try done.
    injection Hc as H3 H2 H1 H0.
    rewrite (byte_to_Z_inj c3 x30), (byte_to_Z_inj c2 x30),
      (byte_to_Z_inj c1 x30), (byte_to_Z_inj c0 x30) by done.
    rewrite !elem_of_cons; auto.
Qed.

Lemma encode_password_digits (password : pyobj) (digits : list Z) :
  password_digits password = Some digits →
  ∃ out, Panel.encode_password (Some password) = Ok out ∧
         byte_to_Z <$> out = digits_encoding digits.
Proof.
  intros Hd. pose proof Hd as Hd'.
  apply password_digits_inv in Hd' as (d3 & d2 & d1 & d0 & -> & Hc & H3 & H2 & H1 & H0).
  unfold digits_encoding, Panel.encode_password.
  case_bool_decide as Hin.
  { apply no_password_codes in Hin. rewrite Hc in Hin.
    injection Hin as ? ? ? ?. exists [x00; x00]. split; [done|].
    rewrite decide_True; [done|]. repeat f_equal; lia. }
  rewrite decide_False
    by (intros [= -> -> -> ->]; by apply Hin, no_password_digits).
  destruct (isdigit_decimal _ _ Hc) as [Hisd Hint]; [done| |].
  { simpl. unfold is_decimal, is_digit in *.
    repeat (apply andb_true_iff; split); lia. }
  unfold len. rewrite Hc. cbn [mbind result_bind length].
  rewrite bool_decide_eq_false_2 by (intros Hne; by apply Hne).
  rewrite Hisd. cbn [mbind result_bind negb]. rewrite Hint.
  cbn [mbind result_bind decimal_value foldl].
  replace (10 * (10 * (10 * (10 * 0 + (d3 + 48 - 48)) + (d2 + 48 - 48))
                 + (d1 + 48 - 48)) + (d0 + 48 - 48))
    with (10 * (10 * (10 * d3 + d2) + d1) + d0) by lia.
  change (Z.to_nat (Z.min 4 (Z.of_nat 4))) with 4%nat.
  change (Z.min 4 (Z.of_nat 4) `div` 2 - 1) with 1.
  rewrite encode_password_loop_4 by done.
  destruct (pack_byte d0 d1 H0 H1) as (_ & Hr0 & _).
  destruct (pack_byte d2 d3 H2 H3) as (_ & Hr1 & _).
  destruct (byte_of_Z_Some _ Hr0) as (b0 & Hb0 & Hz0).
  destruct (byte_of_Z_Some _ Hr1) as (b1 & Hb1 & Hz1).
  rewrite password_packing_spec. cbn [mbind result_bind].
  unfold to_bytes. simpl. rewrite Hb0, Hb1. simpl.
  exists [b1; b0]. split; [done|]. simpl. by rewrite Hz0, Hz1.
Qed.

Lemma digit_value_range (o : pyobj) (c d : Z) :
  digit_value o c = Some d → is_digit d.
Proof.
  assert (unicode_decimal c = Some d → is_digit d) as Hu.
  { unfold unicode_decimal. intros Hd.
    apply fmap_Some in Hd as (zero & Hf & ->).
    apply find_some in Hf as [_ Hz]. unfold is_digit. lia. }
  destruct o; [|done|]; simpl; unfold is_decimal, is_digit;
    case_match; intros [= <-]; lia.
Qed.

Lemma int_Ok_digits (o : pyobj) (cs : list Z) (v : Z) :
  codes o = Ok cs → int o = Ok v →
  ∃ digits, mapM (digit_value o) cs = Some digits ∧
            v = foldl (λ acc d, 10 * acc + d) 0 digits.
Proof.
  intros Hc. unfold int. destruct o as [n|s|b]; [done|..];
    rewrite Hc; cbn [mbind result_bind];
    (destruct (mapM _ cs) as [[|d digits]|]; [done| |done]);
    intros [= <-]; eauto.
Qed.

(** What [encode_password] returns for a password that passes the
    checks is the packing of four digits: the values that [int] gives
    the characters. *)
Lemma encode_password_Ok_inv (password : pyobj) (out : bytes) :
  Panel.encode_password (Some password) = Ok out →
  out = [x00; x00] ∨
  ∃ d3 d2 d1 d0, is_digit d3 ∧ is_digit d2 ∧ is_digit d1 ∧ is_digit d0 ∧
    mapM (digit_value (Panel.normalize password))
      <$> codes (Panel.normalize password) = Ok (Some [d3; d2; d1; d0]) ∧
    byte_to_Z <$> out = password_packing [d3; d2; d1; d0].
Proof.
  unfold Panel.encode_password.
  case_bool_decide as Hin; [intros [= <-]; by left|].
  unfold len.
  destruct (codes (Panel.normalize password)) as [cs|] eqn:Hc; [|done].
  cbn [mbind result_bind]. case_bool_decide as Hl; [done|].
  assert (length cs = 4%nat) as Hl4 by lia.
  destruct (isdigit (Panel.normalize password)) as [[]|]; [|done..].
  cbn [mbind result_bind negb].
  destruct (int (Panel.normalize password)) as [v|] eqn:Hint; [|done].
  destruct (int_Ok_digits _ _ _ Hc Hint) as (digits & Hm & ->).
  pose proof (length_mapM _ _ _ Hm) as Hlen.
  assert (Forall is_digit digits) as Hd.
  { apply mapM_Some in Hm. eapply Forall2_Forall_r; [exact Hm|].
    apply Forall_true. intros d c. apply digit_value_range. }
  destruct digits as [|d3 [|d2 [|d1 [|d0 [|]]]]]; simpl in Hlen; try lia.
  apply Forall_cons in Hd as [H3 Hd]. apply Forall_cons in Hd as [H2 Hd].
  apply Forall_cons in Hd as [H1 Hd]. apply Forall_cons in Hd as [H0 _].
  cbn [mbind result_bind foldl]. rewrite Hl4.
  replace (10 * (10 * (10 * (10 * 0 + d3) + d2) + d1) + d0)
    with (10 * (10 * (10 * d3 + d2) + d1) + d0) by lia.
  change (Z.to_nat (Z.min 4 (Z.of_nat 4))) with 4%nat.
  change (Z.min 4 (Z.of_nat 4) `div` 2 - 1) with 1.
  rewrite encode_password_loop_4 by done.
  destruct (pack_byte d0 d1 H0 H1) as (_ & Hr0 & _).
  destruct (pack_byte d2 d3 H2 H3) as (_ & Hr1 & _).
  destruct (byte_of_Z_Some _ Hr0) as (b0 & Hb0 & Hz0).
  destruct (byte_of_Z_Some _ Hr1) as (b1 & Hb1 & Hz1).
  rewrite password_packing_spec. cbn [mbind result_bind].
  unfold to_bytes. simpl. rewrite Hb0, Hb1. simpl.
  intros [= <-]. right. exists d3, d2, d1, d0.
  split_and!; [done..| |].
  - simpl. by rewrite Hm.
  - simpl. by rewrite Hz0, Hz1.
Qed.

Lemma nibble_of_digit_range d : is_digit d → 1 <= nibble_of_digit d <= 10.
Proof. unfold nibble_of_digit, is_digit. destruct (Z.eqb_spec d 0); lia. Qed.

Lemma nibble_of_digit_inj d d' :
  is_digit d → is_digit d' → nibble_of_digit d = nibble_of_digit d' → d = d'.
Proof.
  unfold nibble_of_digit, is_digit.
  destruct (Z.eqb_spec d 0), (Z.eqb_spec d' 0); lia.
Qed.

Lemma digits_encoding_inj (digits digits' : list Z) :
  length digits = 4%nat → Forall is_digit digits →
  length digits' = 4%nat → Forall is_digit digits' →
  digits_encoding digits = digits_encoding digits' → digits = digits'.
Proof.
  intros Hl Hd Hl' Hd'.
  destruct digits as [|d3 [|d2 [|d1 [|d0 [|]]]]]; try done.
  destruct digits' as [|e3 [|e2 [|e1 [|e0 [|]]]]]; try done.
  apply Forall_cons in Hd as [H3 Hd]. apply Forall_cons in Hd as [H2 Hd].
  apply Forall_cons in Hd as [H1 Hd]. apply Forall_cons in Hd as [H0 _].
  apply Forall_cons in Hd' as [G3 Hd']. apply Forall_cons in Hd' as [G2 Hd'].
  apply Forall_cons in Hd' as [G1 Hd']. apply Forall_cons in Hd' as [G0 _].
  destruct (pack_byte d0 d1 H0 H1) as (_ & _ & Hlo0 & Hhi0).
  destruct (pack_byte d2 d3 H2 H3) as (_ & _ & Hlo1 & Hhi1).
  destruct (pack_byte e0 e1 G0 G1) as (_ & _ & Glo0 & Ghi0).
  destruct (pack_byte e2 e3 G2 G3) as (_ & _ & Glo1 & Ghi1).
  pose proof (nibble_of_digit_range d0 H0).
  pose proof (nibble_of_digit_range e0 G0).
  unfold digits_encoding. rewrite !password_packing_spec.
  repeat case_decide; [congruence|..].
  - intros [= _ E]. rewrite <- E, Z.land_0_l in Glo0. lia.
  - intros [= _ E]. rewrite E, Z.land_0_l in Hlo0. lia.
  - intros [= E1 E0].
    rewrite E0 in Hlo0, Hhi0. rewrite E1 in Hlo1, Hhi1.
    f_equal; [|f_equal; [|f_equal; [|f_equal]]];
      apply nibble_of_digit_inj; congruence.
Qed.

Lemma password_digits_digits (password : pyobj) (digits : list Z) :
  password_digits password = Some digits →
  length digits = 4%nat ∧ Forall is_digit digits.
Proof.
  intros (d3 & d2 & d1 & d0 & -> & _ & ? & ? & ? & ?)%password_digits_inv.
  split; [done|]. by repeat apply Forall_cons_2.
Qed.

Lemma fmap_byte_to_Z_inj (out out' : bytes) :
  byte_to_Z <$> out = byte_to_Z <$> out' → out = out'.
Proof.
  revert out'. induction out as [|b out IH]; intros [|b' out']; try done.
  intros [= Hb Ho]. f_equal; [by apply byte_to_Z_inj|by apply IH].
Qed.

(** X11.  Two passwords of four decimal digits, each an [int], a [str]
    or [bytes], are encoded alike exactly when their digits are the
    same: the encoding depends on the digits only and tells any two
    passwords apart. *)
Theorem encode_password_same_digits (password password' : pyobj)
    (digits digits' : list Z) :
  password_digits password = Some digits →
  password_digits password' = Some digits' →
  Panel.encode_password (Some password) = Panel.encode_password (Some password')
  ↔ digits = digits'.
Proof.
  intros Hd Hd'.
  destruct (encode_password_digits _ _ Hd) as (out & -> & Ho).
  destruct (encode_password_digits _ _ Hd') as (out' & -> & Ho').
  destruct (password_digits_digits _ _ Hd) as [Hl Hf].
  destruct (password_digits_digits _ _ Hd') as [Hl' Hf'].
  split.
  - intros [= <-]. apply digits_encoding_inj; [done..|]. congruence.
  - intros <-. f_equal. apply fmap_byte_to_Z_inj. congruence.
Qed.

(** X12.  Whatever [encode_password] returns is two bytes: the two zero
    bytes, or four nibbles between 1 and 10. *)
Theorem encode_password_output (password : option pyobj) (out : bytes) :
  Panel.encode_password password = Ok out →
  length out = 2%nat ∧
  (out = [x00; x00] ∨
   Forall (λ b, 1 <= Z.land b 0xF <= 10 ∧ 1 <= Z.shiftr b 4 <= 10)
          (byte_to_Z <$> out)).
Proof.
  destruct password as [password|]; [|intros [= <-]; auto].
  intros [->|(d3 & d2 & d1 & d0 & H3 & H2 & H1 & H0 & _ & Ho)]%encode_password_Ok_inv;
    [auto|].
  rewrite password_packing_spec in Ho. split.
  { apply (f_equal length) in Ho. by rewrite length_fmap in Ho. }
  right. rewrite Ho.
  destruct (pack_byte d0 d1 H0 H1) as (_ & _ & Hlo0 & Hhi0).
  destruct (pack_byte d2 d3 H2 H3) as (_ & _ & Hlo1 & Hhi1).
  repeat constructor; rewrite ?Hlo0, ?Hhi0, ?Hlo1, ?Hhi1;
    by apply nibble_of_digit_range.
Qed.



(** ** Labels: what is stored, and when loading stops *)

Section labels_more.
Context `{Externals} {W MessageSpec : Type}.
Context (self : PanelObj W MessageSpec).


Lemma _load_labels_template data_dict addresses field_length label_offset
    template w log :
  Panel._load_labels self data_dict addresses field_length label_offset
    template w log =
  Panel._load_labels self data_dict addresses field_length label_offset
    (Some (default ∅ template)) w log.
Proof. by destruct addresses as [|[]]. Qed.


Section with_parser.
Context (spec : MessageSpec).
Context (Hspec : get_message self "ReadEEPROM" = Ok spec).

(** X15.  When every request is answered and decoded, [_load_labels]
    returns normally in the state the answers lead to, with nothing
    logged but the warnings of the decoding; every index of the list
    has an entry and no other entry is touched. *)
Theorem _load_labels_complete field_length label_offset template
    data_dict w log addresses data_dict1 w1 log1 :
  loads self spec field_length label_offset (default ∅ template)
    (data_dict, w, log) addresses (data_dict1, w1, log1) →
  Panel._load_labels self data_dict addresses field_length label_offset
    template w log = (Ok (), data_dict1, w1, log1) ∧
  (∀ index, index ∈ addresses.*1 → is_Some (dict_get index data_dict1)) ∧
  (∀ index, index ∉ addresses.*1 →
     dict_get index data_dict1 = dict_get index data_dict).
Proof.
  intros Hloads. split.
  - rewrite _load_labels_template.
    pose proof (_load_labels_loads self spec Hspec _ _ _ _ _ _ [] Hloads) as Hrun.
    rewrite app_nil_r in Hrun. exact Hrun.
  - exact (loads_stored self spec _ _ _ _ _ _ Hloads).
Qed.

(** X16.  An exception of the decoding of a label leaves
    [_load_labels]: the entries stored before stay in the dict, nothing
    is logged and no further request is sent.  It is never the
    [UnicodeDecodeError] that the fallback handles, and it is what
    [bytes.decode] raised for the encoding of the configuration. *)
Theorem _load_labels_decode_error field_length label_offset template
    data_dict w log pre index address post data_dict1 w1 log1 reply w2 e :
  loads self spec field_length label_offset (default ∅ template)
    (data_dict, w, log) pre (data_dict1, w1, log1) →
  send_wait self spec {| args_address := address; args_length := field_length |}
    (Panel.reply_expected address) w1 = (Some reply, w2) →
  Panel.label_of reply field_length label_offset log1 = Raise e →
  Panel._load_labels self data_dict (pre ++ (index, address) :: post)
    field_length label_offset template w log = (Raise e, data_dict1, w2, log1) ∧
  e ≠ UnicodeDecodeError ∧
  ∃ label, bytes_decode LABEL_ENCODING label = Raise e.
Proof.
  intros Hloads Hsend Hlabel. split.
  - rewrite _load_labels_template.
    pose proof (_load_labels_loads self spec Hspec _ _ _ _ _ _
                  ((index, address) :: post) Hloads) as Hrun.
    simpl in Hrun. rewrite Hrun. simpl. by rewrite Hspec, Hsend, Hlabel.
  - unfold Panel.label_of in Hlabel.
    destruct (bytes_decode LABEL_ENCODING _) as [?|e'] eqn:Hd; [done|].
    destruct e'; try done; injection Hlabel as <-; (split; [done|by eexists]).
Qed.
End with_parser.

Lemma _load_labels_no_parser e data_dict addresses field_length label_offset
    template w log :
  get_message self "ReadEEPROM" = Raise e →
  Panel._load_labels self data_dict addresses field_length label_offset
    template w log =
  (if decide (addresses = []) then Ok () else Raise e, data_dict, w, log).
Proof.
  intros He. destruct addresses as [|[index address] addresses]; [done|].
  simpl. by rewrite He.
Qed.

Lemma join_labels_nil : Panel.join_labels [] = Ok ("" : unicode).
Proof. done. Qed.

Lemma load_labels_loop_no_parser e elements :
  get_message self "ReadEEPROM" = Raise e →
  ∀ data w log, all_empty data →
    ∃ r log', Panel.load_labels_loop self elements data w log = (r, w, log') ∧
      (no_address elements → ∃ data', r = Ok data' ∧ all_empty data') ∧
      (¬ no_address elements → r = Raise e).
Proof.
  intros He. unfold no_address.
  induction elements as [|[elem_type elem_def] elements IH];
    intros data w log Hdata.
  { exists (Ok data), log. split; [done|]. split; [by eauto|].
    intros Hn. by destruct Hn. }
  rewrite load_labels_loop_cons, (_load_labels_no_parser e) by done.
  assert (default [] (dict_get elem_type data) = []) as ->.
  { destruct (dict_get elem_type data) as [d|] eqn:Hd; [|done].
    exact (Hdata _ _ Hd). }
  case_decide as Haddr.
  - rewrite join_labels_nil.
    destruct (IH (dict_setitem elem_type [] data) w
                (log ++ [Log INFO "{}: {}" [PyStr (title elem_type); PyStr ""] None]))
      as (r & log' & Hrun & Hok & Herr).
    { intros t d. rewrite dict_get_setitem. case_decide; [by intros [= <-]|].
      apply Hdata. }
    exists r, log'. split; [done|]. split.
    + intros Hall. apply Hok. by apply Forall_cons in Hall as [_ ?].
    + intros Hnot. apply Herr. intros Hall. apply Hnot.
      by apply Forall_cons.
  - exists (Raise e), log. split; [done|]. split; [|done].
    intros Hall. by apply Forall_cons in Hall as [? _].
Qed.

(** X17.  Without a parser for [ReadEEPROM] ([get_message] raises, as
    that of the base class does) no label is loaded and nothing is
    sent: [load_labels] raises the exception of [get_message] as soon
    as a category has an address, and returns empty dicts when none
    has. *)
Theorem load_labels_no_parser e elements w log :
  get_message self "ReadEEPROM" = Raise e →
  mem_map_elements self = Some elements →
  ∃ r log', Panel.load_labels self w log = (r, w, log') ∧
    (no_address elements → ∃ data, r = Ok data ∧ all_empty data) ∧
    (¬ no_address elements → r = Raise e).
Proof.
  intros He Hel. unfold Panel.load_labels. rewrite Hel.
  by apply load_labels_loop_no_parser.
Qed.

Lemma load_labels_loop_keys elements :
  ∀ data w log data' w' log',
    Panel.load_labels_loop self elements data w log = (Ok data', w', log') →
    ∀ k, is_Some (dict_get k data') ↔
         is_Some (dict_get k data) ∨ k ∈ elements.*1.
Proof.
  induction elements as [|[elem_type elem_def] elements IH];
    intros data w log data' w' log' Hrun k.
  { simpl in Hrun. injection Hrun as -> _ _. rewrite elem_of_nil. tauto. }
  rewrite load_labels_loop_cons in Hrun.
  destruct (Panel._load_labels _ _ _ _ _ _ _ _) as [[[r d] w1] log1].
  destruct r; [|done].
  destruct (Panel.join_labels d); [|done].
  rewrite (IH _ _ _ _ _ _ Hrun k), dict_get_setitem. simpl.
  rewrite elem_of_cons. case_decide as Heq.
  - subst k. split; [auto|]. intros _. left. by eexists.
  - split; [tauto|]. intros [?|[?|?]]; [tauto|congruence|tauto].
Qed.

(** X18.  The result of [load_labels] has an entry for every category
    of [mem_map['elements']], loaded in full or not, and for nothing
    else. *)
Theorem load_labels_keys w log data w' log' :
  Panel.load_labels self w log = (Ok data, w', log') →
  ∃ elements, mem_map_elements self = Some elements ∧
    ∀ elem_type, is_Some (dict_get elem_type data) ↔ elem_type ∈ elements.*1.
Proof.
  unfold Panel.load_labels.
  destruct (mem_map_elements self) as [elements|]; [|done].
  intros Hrun. exists elements. split; [done|]. intros k.
  rewrite (load_labels_loop_keys _ _ _ _ _ _ _ Hrun k). simpl.
  split; [by intros [[? ?]|?]|auto].
Qed.
End labels_more.

Section category.
Context `{Externals}.

Lemma elem_of_enumerate_from {A} (start : Z) (l : list A) (i : Z) (a : A) :
  (i, a) ∈ Panel.enumerate_from start l ↔
  ∃ k : nat, i = start + Z.of_nat k ∧ l !! k = Some a.
Proof.
  unfold Panel.enumerate_from. rewrite elem_of_lookup_imap. split.
  - intros (k & a' & [= -> ->] & Hk). by exists k.
  - intros (k & -> & Hk). by exists k, a.
Qed.

Lemma enumerate_from_fst {A} (start : Z) (l : list A) :
  (Panel.enumerate_from start l).*1 = (λ k, start + Z.of_nat k) <$> seq 0 (length l).
Proof.
  unfold Panel.enumerate_from. revert start.
  induction l as [|a l IH]; intros start; [done|].
  cbn [imap fmap list_fmap length seq]. f_equal.
  rewrite <- fmap_S_seq, <- list_fmap_compose.
  change (list_fmap _ _ fst ?l) with (l.*1).
  erewrite imap_ext; [rewrite (IH (start + 1))|].
  - apply list_fmap_ext. intros _ k _. simpl. lia.
  - intros k a' _. simpl. f_equal. lia.
Qed.

Lemma NoDup_enumerate_from {A} (start : Z) (l : list A) :
  NoDup (Panel.enumerate_from start l).*1.
Proof.
  rewrite enumerate_from_fst. apply NoDup_fmap_2; [|apply NoDup_seq].
  intros k k' Hk. lia.
Qed.

(** X19.  The pairs [load_labels] loads for a category are the
    addresses of [elem_def['addresses']], flattened, each with its
    1-based position; [cfg.LIMITS] takes pairs away without renumbering
    those that stay, and no index occurs twice. *)
Theorem category_addresses_spec (elem_type : string) (elem_def : ElemDef) :
  (∀ index address,
     (index, address) ∈ Panel.category_addresses elem_type elem_def ↔
     (∃ k : nat, index = 1 + Z.of_nat k ∧
                 concat (addresses elem_def) !! k = Some address) ∧
     (∀ limits, LIMITS !! elem_type = Some limits → index ∈ limits)) ∧
  NoDup (Panel.category_addresses elem_type elem_def).*1.
Proof.
  unfold Panel.category_addresses. split.
  - intros index address.
    destruct (LIMITS !! elem_type) as [limits|].
    + rewrite list_elem_of_filter, elem_of_enumerate_from. simpl. split.
      * intros [Hl Hk]. split; [done|]. by intros ? [= <-].
      * intros [Hk Hl]. split; [by apply Hl|done].
    + rewrite elem_of_enumerate_from. split; [|by intros [? _]].
      intros Hk. split; [done|]. by intros ? [=].
  - destruct (LIMITS !! elem_type) as [limits|].
    + apply NoDup_fmap_fst.
      * intros i a a' [_ Ha]%list_elem_of_filter [_ Ha']%list_elem_of_filter.
        apply elem_of_enumerate_from in Ha as (k & -> & Hk).
        apply elem_of_enumerate_from in Ha' as (k' & Hkk & Hk').
        assert (k' = k) as -> by lia. congruence.
      * apply NoDup_filter.
        eapply NoDup_fmap_1, NoDup_enumerate_from.
    + apply NoDup_enumerate_from.
Qed.
End category.

Section label_bytes.
Context `{Externals}.

Lemma lstrip_suffix (b : bytes) : ∃ pad, b = pad ++ Panel.lstrip b.
Proof.
  induction b as [|c b [pad IH]]; [by exists []|].
  simpl. destruct (Panel.is_pad c).
  - exists (c :: pad). simpl. by f_equal.
  - by exists [].
Qed.

Lemma lstrip_head (b : bytes) c :
  head (Panel.lstrip b) = Some c → Panel.is_pad c = false.
Proof.
  induction b as [|c' b IH]; [done|].
  simpl. destruct (Panel.is_pad c') eqn:Hp; [done|]. by intros [= <-].
Qed.

Lemma strip_spec (b : bytes) :
  (∃ pad1 pad2, b = pad1 ++ (Panel.strip b ++ pad2)) ∧
  (∀ c, head (Panel.strip b) = Some c → Panel.is_pad c = false) ∧
  (∀ c, last (Panel.strip b) = Some c → Panel.is_pad c = false).
Proof.
  unfold Panel.strip.
  destruct (lstrip_suffix b) as [pad1 Hb].
  destruct (lstrip_suffix (reverse (Panel.lstrip b))) as [pad2 Hr].
  apply (f_equal reverse) in Hr. rewrite reverse_involutive, reverse_app in Hr.
  split; [|split].
  - exists pad1, (reverse pad2). by rewrite <- Hr.
  - intros c Hc.
    destruct (reverse (Panel.lstrip (reverse (Panel.lstrip b)))) as [|c' s] eqn:Hs;
      [done|].
    injection Hc as ->. apply (lstrip_head b). by rewrite Hr.
  - intros c Hc. rewrite last_reverse in Hc. by apply lstrip_head in Hc.
Qed.

(** X20.  The bytes of a label that reach the decoder are at most
    [field_length] bytes, hold no NUL and neither start nor end with a
    space.  The label is their text in [cfg.LABEL_ENCODING]; on
    [UnicodeDecodeError] it is their UTF-8 text and one warning is
    logged; any other exception of the decoding is raised. *)
Theorem label_of_clean (reply : Reply) (field_length label_offset : nat)
    (log : list LogRecord) :
  ∃ label, clean_label field_length label ∧
    match bytes_decode LABEL_ENCODING label with
    | Ok text => Panel.label_of reply field_length label_offset log = Ok (text, log)
    | Raise UnicodeDecodeError =>
        ∃ warning, log_level warning = WARNING ∧
          Panel.label_of reply field_length label_offset log
            = Ok (decode_utf8_ignore label, log ++ [warning])
    | Raise e => Panel.label_of reply field_length label_offset log = Raise e
    end.
Proof.
  unfold Panel.label_of.
  set (window := take field_length (drop label_offset (reply_data reply))).
  set (f := λ c : byte, if bool_decide (c = x00) then x20 else c).
  destruct (strip_spec window) as ((pad1 & pad2 & Hw) & Hhead & Hlast).
  exists (f <$> Panel.strip window). split.
  - split_and!.
    + rewrite length_fmap.
      assert (length window ≤ field_length)%nat as Hl
        by (unfold window; rewrite length_take; lia).
      rewrite Hw, !length_app in Hl. lia.
    + intros (c & Hc & _)%list_elem_of_fmap. unfold f in Hc.
      case_bool_decide; congruence.
    + destruct (Panel.strip window) as [|c s]; [done|]. simpl.
      specialize (Hhead c eq_refl). unfold f, Panel.is_pad in *.
      intros [= Hc]. repeat case_bool_decide; by subst.
    + rewrite fmap_last.
      destruct (last (Panel.strip window)) as [c|]; [|done]. simpl.
      specialize (Hlast c eq_refl). unfold f, Panel.is_pad in *.
      intros [= Hc]. repeat case_bool_decide; by subst.
  - destruct (bytes_decode LABEL_ENCODING _) as [text|e]; [done|].
    destruct e; try done. eexists. split; [|reflexivity]. done.
Qed.
End label_bytes.

(** ** Error messages *)

Lemma known_error_code_cases n :
  known_error_code n ↔ n ∈ [0; 1; 2; 5; 16; 17; 18; 19; 20; 21; 22; 23;
                            25; 26; 27; 28].
Proof.
  unfold known_error_code. rewrite !elem_of_cons, !elem_of_nil. lia.
Qed.

(** X21.  [get_error_message] has a text for the codes 0, 1, 2, 5,
    0x10 to 0x17 and 0x19 to 0x1C: for them the text depends on the
    integer only (the name of an [EnumIntegerString] is not used) and
    differs from code to code; any other code is echoed as
    [str(error_code)]. *)
Theorem get_error_message_codes (error_code : Panel.ErrorCode) :
  (known_error_code (error_int error_code) →
   Panel.get_error_message error_code
     = Panel.get_error_message (Panel.ErrorInt (error_int error_code)) ∧
   ∀ n, known_error_code n →
     Panel.get_error_message (Panel.ErrorInt n)
       = Panel.get_error_message error_code →
     n = error_int error_code) ∧
  (¬ known_error_code (error_int error_code) →
   Panel.get_error_message error_code = error_str error_code).
Proof.
  split.
  - intros Hk. split.
    + apply known_error_code_cases in Hk.
      rewrite !elem_of_cons, elem_of_nil in Hk.
      destruct error_code as [n|n name]; [done|]. simpl in Hk.
      destruct Hk as [->|[->|[->|[->|[->|[->|[->|[->|[->|[->|[->|[->|[->|[->|[->|[->|[]]]]]]]]]]]]]]]]];
        reflexivity.
    + intros n Hn%known_error_code_cases He.
      apply known_error_code_cases in Hk.
      rewrite !elem_of_cons, elem_of_nil in Hn, Hk.
      destruct error_code as [m|m name]; simpl in *;
      destruct Hk as [->|[->|[->|[->|[->|[->|[->|[->|[->|[->|[->|[->|[->|[->|[->|[->|[]]]]]]]]]]]]]]]]];
      destruct Hn as [->|[->|[->|[->|[->|[->|[->|[->|[->|[->|[->|[->|[->|[->|[->|[->|[]]]]]]]]]]]]]]]]];
      first [reflexivity | discriminate He].
  - intros Hk. unfold Panel.get_error_message.
    assert (∀ k, known_error_code k → (error_int error_code =? k) = false) as Hne.
    { intros k Hkk. apply Z.eqb_neq. by intros <-. }
    destruct error_code as [n|n name]; simpl in *;
      rewrite !Hne; try done;
      apply known_error_code_cases; rewrite !elem_of_cons; auto 20.
Qed.

(** ** Evaluation of the further properties *)

Section evaluation_frames.

#[local] Existing Instance sample_common.

Lemma parsed_frames_raw_witness :
  (36 < length sample_long_frame)%nat ∧
  sample_long_frame !! 36%nat = Some (sum_checksum (take 36 sample_long_frame)) ∧
  data sample_parsed_InitiateCommunication.1 = Some (take 36 sample_long_frame) ∧
  is_Some (value sample_parsed_InitiateCommunication.1) ∧
  offset1 sample_parsed_InitiateCommunication.1 = Some 0 ∧
  offset2 sample_parsed_InitiateCommunication.1 = Some 36 ∧
  raw_length sample_parsed_InitiateCommunication.1 = Some 36 ∧
  sample_parsed_InitiateCommunication.2.1
    = Some [sum_checksum (take 36 sample_long_frame)].
Proof.
  apply (proj1 (@parsed_frames_raw sample_common) sample_long_frame
           sample_parsed_InitiateCommunication).
  vm_compute. reflexivity.
Defined.

Lemma parsed_frames_rebuild_witness :
  build InitiateCommunication sample_parsed_InitiateCommunication
  = Ok (take 37 sample_long_frame).
Proof.
  apply (proj1 (@parsed_frames_rebuild sample_common) sample_long_frame
           sample_parsed_InitiateCommunication).
  vm_compute. reflexivity.
Defined.

Lemma InitiateCommunication_decode_witness :
  sample_InitiateCommunication = Container(Container(Some 7, Some 2), ()).
Proof.
  apply (@InitiateCommunication_decode sample_common sample_long_frame).
  vm_compute. reflexivity.
Defined.

Lemma CloseConnection_decode_witness :
  ∃ b1, sample_close_frame !! 1%nat = Some b1 ∧
        Container(Container(Some 0x70), Some 0x99, ())
        = Container(Container(Some 0x70), Some (byte_to_Z b1), ()).
Proof.
  apply (@CloseConnection_decode sample_common sample_close_frame).
  vm_compute. reflexivity.
Defined.

Lemma frames_ignore_trailing_bytes_witness :
  parse InitiateCommunication sample_long_frame
    = parse InitiateCommunication (take 37 sample_long_frame) ∧
  parse InitiateCommunicationResponse sample_long_frame
    = parse InitiateCommunicationResponse (take 37 sample_long_frame) ∧
  parse StartCommunication sample_long_frame
    = parse StartCommunication (take 37 sample_long_frame) ∧
  parse StartCommunicationResponse sample_long_frame
    = parse StartCommunicationResponse (take 37 sample_long_frame) ∧
  parse CloseConnection sample_long_frame
    = parse CloseConnection (take 37 sample_long_frame) ∧
  ∀ direction,
    Panel.parse_message (Some sample_long_frame) direction
    = Panel.parse_message (Some (take 37 sample_long_frame)) direction.
Proof.
  apply (@frames_ignore_trailing_bytes sample_common sample_long_frame).
  simpl. lia.
Defined.

Lemma parse_message_verified_witness :
  (37 ≤ length sample_long_frame)%nat ∧
  sample_long_frame !! 36%nat
    = Some (sum_checksum (take 36 sample_long_frame)) ∧
  parsed_from sample_long_frame "topanel"
    (Panel.IsInitiateCommunication sample_parsed_InitiateCommunication).
Proof.
  apply (@parse_message_verified sample_common sample_long_frame "topanel").
  vm_compute. reflexivity.
Defined.

Lemma parse_message_product_id_witness :
  ∃ b4 fields,
    sample_response_frame !! 4%nat = Some b4 ∧ 0 < byte_to_Z b4 ∧
    value sample_parsed_StartCommunicationResponse.1 = Some fields ∧
    fields.2.2.1 = enum_of ProductIdEnum_members (byte_to_Z b4).
Proof.
  apply (@parse_message_product_id sample_common sample_response_frame "frompanel").
  vm_compute. reflexivity.
Defined.

End evaluation_frames.

Lemma encode_password_same_digits_witness :
  Panel.encode_password (Some (PyInt 12))
    = Panel.encode_password (Some (PyStr "0012"))
  ↔ [0; 0; 1; 2] = [0; 0; 1; 2].
Proof.
  apply (encode_password_same_digits (PyInt 12) (PyStr "0012")); reflexivity.
Defined.

Lemma encode_password_output_witness :
  length [x1a; x23] = 2%nat ∧
  ([x1a; x23] = [x00; x00] ∨
   Forall (λ b, 1 <= Z.land b 0xF <= 10 ∧ 1 <= Z.shiftr b 4 <= 10)
          (byte_to_Z <$> [x1a; x23])).
Proof.
  apply (encode_password_output (Some (PyStr "1023"))). reflexivity.
Defined.

Section evaluation_labels.

#[local] Existing Instance sample_externals.


Lemma _load_labels_complete_witness :
  let zone := [(1, Panel.properties_of ∅ 1 "Front door");
               (2, Panel.properties_of ∅ 2 "Front door")] in
  Panel._load_labels sample_panel [] [(1, 1); (2, 3)] 16 0 None () []
    = (Ok (), zone, (), []) ∧
  (∀ index, index ∈ [(1, 1); (2, 3)].*1 → is_Some (dict_get index zone)) ∧
  (∀ index, index ∉ [(1, 1); (2, 3)].*1 → dict_get index zone = dict_get index []).
Proof.
  intros zone.
  apply (_load_labels_complete sample_panel () eq_refl 16 0 None [] () []
           [(1, 1); (2, 3)] zone () []).
  eapply loads_cons; [reflexivity|reflexivity|].
  eapply loads_cons; [reflexivity|reflexivity|apply loads_nil].
Defined.

Lemma load_labels_keys_witness :
  ∃ elements, mem_map_elements sample_panel = Some elements ∧
    ∀ elem_type,
      is_Some (dict_get elem_type
                 [("zone", [(1, Panel.properties_of ∅ 1 "Front door")])])
      ↔ elem_type ∈ elements.*1.
Proof.
  apply (load_labels_keys sample_panel () [] _ ()
           [Log INFO "Updating Labels from Panel" [] None;
            Log ERROR "Could not fully load labels" [] None;
            Log INFO "{}: {}" [PyStr "zone"; PyStr "Front door"] None]).
  reflexivity.
Defined.

Lemma load_labels_no_parser_witness :
  ∃ r log', Panel.load_labels sample_base_panel () [] = (r, (), log') ∧
    (no_address [("zone", {| addresses := [[1; 2; 3]]; label_offset := 0 |})] →
     ∃ data, r = Ok data ∧ all_empty data) ∧
    (¬ no_address [("zone", {| addresses := [[1; 2; 3]]; label_offset := 0 |})] →
     r = Raise (ResourceWarning "{} parser not found" [PyStr "ReadEEPROM"])).
Proof.
  apply (load_labels_no_parser sample_base_panel); reflexivity.
Defined.

End evaluation_labels.

Section evaluation_no_codec.

#[local] Existing Instance sample_externals_no_codec.

Lemma _load_labels_decode_error_witness :
  Panel._load_labels sample_panel [] ([] ++ [(1, 1); (2, 2)]) 16 0 None () []
    = (Raise LookupError, [], (), []) ∧
  LookupError ≠ UnicodeDecodeError ∧
  ∃ label, bytes_decode LABEL_ENCODING label = Raise LookupError.
Proof.
  apply (_load_labels_decode_error sample_panel () eq_refl 16 0 None [] () []
           [] 1 1 [(2, 2)] [] () [] (sample_reply 1) ()).
  - apply loads_nil.
  - reflexivity.
  - reflexivity.
Defined.

End evaluation_no_codec.
